(** * PhomoV2CDK: the stage's infrastructure wiring, embedded and verified

    The repository is an AWS CDK application: every stack constructor is a
    function of the stage name that builds resources (tables, buckets,
    queues, functions), attaches event sources and rules, and grants
    permissions.  Each constructor is embedded as a function from the stage
    name to a record holding what the constructor builds; the mutating calls
    ([addGlobalSecondaryIndex], [addToPolicy], [addEventSource], the
    [grant*] family) become explicit state passing. *)

From Stdlib Require Import ZArith Ascii String.
From stdpp Require Import base decidable option list strings gmap sorting.

Local Open Scope string_scope.
Local Open Scope Z_scope.

(** ** aws-cdk-lib core *)
Module cdk.

Inductive RemovalPolicy : Set :=
| DESTROY
| RETAIN
| SNAPSHOT
| RETAIN_ON_UPDATE_OR_DELETE.

(** [cdk.Duration], kept in seconds. *)
Record Duration : Set := mkDuration { toSeconds : Z }.

Definition seconds (n : Z) : Duration := mkDuration n.
Definition hours (n : Z) : Duration := mkDuration (n * 3600).
Definition days (n : Z) : Duration := mkDuration (n * 86400).

(** A value that is known at deploy time only: [{ Ref: logicalId }], the
    identifier CloudFormation gives the resource of the construct
    [logicalId]. *)
Record Ref : Set := mkRef { logicalId : string }.

(** What becomes of a resource whose removal policy is left out and whose
    construct, like [sqs.Queue] or a [Cfn] resource, does not retain by
    default: it is deleted with its stack. *)
Definition orDestroy (p : option RemovalPolicy) : RemovalPolicy :=
  match p with
  | Some policy => policy
  | None => DESTROY
  end.

End cdk.

#[global] Instance RemovalPolicy_eq_dec : EqDecision cdk.RemovalPolicy.
Proof. solve_decision. Defined.

(** ** aws-cdk-lib/aws-dynamodb *)
Module dynamodb.

Inductive AttributeType : Set := BINARY | NUMBER | STRING.

Inductive BillingMode : Set := PAY_PER_REQUEST | PROVISIONED.

Inductive StreamViewType : Set :=
| NEW_IMAGE
| OLD_IMAGE
| NEW_AND_OLD_IMAGES
| KEYS_ONLY.

Record Attribute : Set := mkAttribute {
  name : string;
  type : AttributeType
}.

#[global] Instance AttributeType_eq_dec : EqDecision AttributeType.
Proof. solve_decision. Defined.
#[global] Instance StreamViewType_eq_dec : EqDecision StreamViewType.
Proof. solve_decision. Defined.
#[global] Instance Attribute_eq_dec : EqDecision Attribute.
Proof. solve_decision. Defined.

Record GlobalSecondaryIndexProps : Set := mkGSI {
  indexName : string;
  indexPartitionKey : Attribute;
  indexSortKey : option Attribute
}.

(** The properties the stacks pass to [new dynamodb.Table], together with
    the indexes added afterwards. *)
Record Table : Set := mkTable {
  constructId : string;
  tableName : string;
  partitionKey : Attribute;
  billingMode : BillingMode;
  stream : option StreamViewType;
  pointInTimeRecovery : bool;
  removalPolicy : cdk.RemovalPolicy;
  deletionProtection : bool;
  globalSecondaryIndexes : list GlobalSecondaryIndexProps
}.

(** [table.addGlobalSecondaryIndex(props)]: the index is appended to the
    ones the table already has. *)
Definition addGlobalSecondaryIndex
    (t : Table) (props : GlobalSecondaryIndexProps) : Table :=
  mkTable (constructId t) (tableName t) (partitionKey t) (billingMode t)
          (stream t) (pointInTimeRecovery t) (removalPolicy t)
          (deletionProtection t) (globalSecondaryIndexes t ++ [props]).

(** A scalar value.  A number is held as an integer; sets, lists and maps
    are left out: no key of the stage has such a type. *)
Inductive AttributeValue : Set :=
| S (s : string)
| N (n : Z)
| B (b : string)
| BOOL (b : bool)
| NULL.

Definition typeOf (v : AttributeValue) : option AttributeType :=
  match v with
  | S _ => Some STRING
  | N _ => Some NUMBER
  | B _ => Some BINARY
  | BOOL _ | NULL => None
  end.

Definition indexKeys (i : GlobalSecondaryIndexProps) : list Attribute :=
  indexPartitionKey i :: option_list (indexSortKey i).

(** A key attribute is declared once, the first time a key names it. *)
Definition registerAttribute (defs : list Attribute) (a : Attribute)
  : list Attribute :=
  if bool_decide (name a ∈ map name defs) then defs else defs ++ [a].

(** The attributes a table definition declares: its own key followed by
    the keys of its indexes.  Nothing else of an item is declared. *)
Definition attributeDefinitions (t : Table) : list Attribute :=
  fold_left registerAttribute
    (partitionKey t :: concat (map indexKeys (globalSecondaryIndexes t))) [].

Definition attributeNames (t : Table) : list string :=
  map name (attributeDefinitions t).

End dynamodb.

#[global] Existing Instances
dynamodb.AttributeType_eq_dec dynamodb.StreamViewType_eq_dec
dynamodb.Attribute_eq_dec.

#[global] Instance AttributeValue_eq_dec : EqDecision dynamodb.AttributeValue.
Proof. solve_decision. Defined.

(** An item is a finite map from attribute names to values. *)
Abbreviation Item := (gmap string dynamodb.AttributeValue).

(** ** What a table accepts

    A write is checked twice: against the limits the service puts on every
    item, whatever the table, and against the keys the table and its
    indexes declare. *)
Module limits.

(** Strings are held as the bytes of their UTF-8 encoding.  After a lead
    byte, each pair bounds one byte that must follow. *)
Definition continuation : N * N := (128, 191)%N.

Definition utf8Lead (b : N) : option (list (N * N)) :=
  if (b <=? 127)%N then Some []
  else if ((194 <=? b) && (b <=? 223))%N then Some [continuation]
  else if (b =? 224)%N then Some [(160, 191)%N; continuation]
  else if ((225 <=? b) && (b <=? 236))%N then Some [continuation; continuation]
  else if (b =? 237)%N then Some [(128, 159)%N; continuation]
  else if ((238 <=? b) && (b <=? 239))%N then Some [continuation; continuation]
  else if (b =? 240)%N then Some [(144, 191)%N; continuation; continuation]
  else if ((241 <=? b) && (b <=? 243))%N
       then Some [continuation; continuation; continuation]
  else if (b =? 244)%N then Some [(128, 143)%N; continuation; continuation]
  else None.

Fixpoint utf8From (expect : list (N * N)) (s : string) : bool :=
  match s with
  | EmptyString => match expect with [] => true | _ :: _ => false end
  | String c s' =>
      match expect with
      | [] =>
          match utf8Lead (N_of_ascii c) with
          | Some e => utf8From e s'
          | None => false
          end
      | (lo, hi) :: e =>
          ((lo <=? N_of_ascii c) && (N_of_ascii c <=? hi))%N && utf8From e s'
      end
  end.

(** The byte strings that encode a text. *)
Definition utf8 (s : string) : bool := utf8From [] s.

Definition size (s : string) : Z := Z.of_nat (String.length s).

(** An attribute name has at least one byte and at most 64 KB. *)
Definition validName (a : string) : bool :=
  utf8 a && (1 <=? size a) && (size a <=? 65535).

Fixpoint stripZeros (fuel : nat) (n : Z) : Z :=
  match fuel with
  | O => n
  | Datatypes.S fuel' =>
      if (negb (n =? 0) && (n mod 10 =? 0)) then stripZeros fuel' (n / 10)
      else n
  end.

(** The digits of a number that count towards its precision. *)
Definition significand (n : Z) : Z := stripZeros 126 (Z.abs n).

Fixpoint digitsOf (fuel : nat) (n : Z) : Z :=
  match fuel with
  | O => 0
  | Datatypes.S fuel' =>
      if (n =? 0) then 0 else 1 + digitsOf fuel' (n / 10)
  end.

(** A number has at most 38 significant digits and a magnitude of at most
    9.99...E+125. *)
Definition validNumber (n : Z) : bool :=
  (Z.abs n <? 10 ^ 126) && (significand n <? 10 ^ 38).

Definition validValue (v : dynamodb.AttributeValue) : bool :=
  match v with
  | dynamodb.S s => utf8 s
  | dynamodb.N n => validNumber n
  | dynamodb.B _ | dynamodb.BOOL _ | dynamodb.NULL => true
  end.

(** The bytes a value counts for: a string or a binary its length, a number
    one byte for each two significant digits and one more, a boolean or a
    null one byte. *)
Definition valueSize (v : dynamodb.AttributeValue) : Z :=
  match v with
  | dynamodb.S s | dynamodb.B s => size s
  | dynamodb.N n => (digitsOf 38 (significand n) + 1) / 2 + 1
  | dynamodb.BOOL _ | dynamodb.NULL => 1
  end.

Definition entrySize (a : string) (v : dynamodb.AttributeValue) : Z :=
  size a + valueSize v.

(** The size of an item: the names and the values of its attributes. *)
Definition itemSize (it : Item) : Z :=
  map_fold (fun a v acc => acc + entrySize a v) 0 it.

(** An item may take 400 KB. *)
Definition maxItemSize : Z := 409600.

Definition validEntry (a : string) (v : dynamodb.AttributeValue) : Prop :=
  validName a = true ∧ validValue v = true.

(** What the service asks of every item. *)
Definition withinLimits (it : Item) : bool :=
  bool_decide (map_Forall validEntry it) && (itemSize it <=? maxItemSize).

(** The most a partition key value and a sort key value may take. *)
Definition maxPartitionKeySize : Z := 2048.
Definition maxSortKeySize : Z := 1024.

End limits.

(** A key value has the declared type; a string or binary key is not empty
    and not longer than its role allows. *)
Definition keyOk (maxSize : Z) (a : dynamodb.Attribute)
  (v : dynamodb.AttributeValue) : bool :=
bool_decide (dynamodb.typeOf v = Some (dynamodb.type a))
&& match v with
   | dynamodb.S s | dynamodb.B s =>
       (1 <=? limits.size s) && (limits.size s <=? maxSize)
   | _ => true
   end.

(** An index key attribute may be missing (the item then stays out of the
    index); one that is present must be a proper key value. *)
Definition keyOkIfPresent (maxSize : Z) (it : Item) (a : dynamodb.Attribute)
  : bool :=
match it !! dynamodb.name a with
| None => true
| Some v => keyOk maxSize a v
end.

Definition indexAdmits (it : Item) (i : dynamodb.GlobalSecondaryIndexProps)
  : bool :=
keyOkIfPresent limits.maxPartitionKeySize it (dynamodb.indexPartitionKey i)
&& match dynamodb.indexSortKey i with
   | Some sk => keyOkIfPresent limits.maxSortKeySize it sk
   | None => true
   end.

(** What the table's own definition asks of an item: the partition key is
    present and a proper key value, and so is every index key that is
    present.  No other attribute is looked at. *)
Definition keysAdmitted (t : dynamodb.Table) (it : Item) : bool :=
match it !! dynamodb.name (dynamodb.partitionKey t) with
| None => false
| Some v => keyOk limits.maxPartitionKeySize (dynamodb.partitionKey t) v
end
&& forallb (indexAdmits it) (dynamodb.globalSecondaryIndexes t).

(** A write is accepted when the item is within the service's limits and
    the table's keys admit it. *)
Definition admits (t : dynamodb.Table) (it : Item) : bool :=
limits.withinLimits it && keysAdmitted t it.

(** ** lib/stacks/database-stack.ts *)
Module DatabaseStack.

Import dynamodb.

Record t : Set := mk {
  userTable : Table;
  friendshipTable : Table;
  contentTable : Table;
  recipientEdgeTable : Table;
  feedEntryTable : Table;
  faceIdentityTable : Table;
  contentFaceTable : Table;
  eventTable : Table;
  eventMemberTable : Table
}.

Definition str (n : string) : Attribute := mkAttribute n STRING.

Section WithStage.
Variable stageName : string.

Definition isProd : bool := bool_decide (stageName = "prod").

Definition policy : cdk.RemovalPolicy :=
    if isProd then cdk.RETAIN else cdk.DESTROY.

  (** The shape shared by the nine [new dynamodb.Table] calls. *)
Definition newTable (id nm pk : string) (s : option StreamViewType)
    : Table :=
    mkTable id nm (str pk) PAY_PER_REQUEST s isProd policy isProd [].

Definition mkUserTable : Table :=
    let tb := newTable "UserTable" ("User-" +:+ stageName) "userId" None in
    addGlobalSecondaryIndex tb
      (mkGSI "PhoneNumberIndex" (str "phoneNumber") None).

Definition mkFriendshipTable : Table :=
    let tb := newTable "FriendshipTable" ("Friendship-" +:+ stageName)
                "friendshipId" None in
    let tb := addGlobalSecondaryIndex tb
      (mkGSI "User1Index" (str "user1Id") (Some (str "status"))) in
    let tb := addGlobalSecondaryIndex tb
      (mkGSI "User2Index" (str "user2Id") (Some (str "status"))) in
    addGlobalSecondaryIndex tb
      (mkGSI "UserPairIndex" (str "userPair") None).

Definition mkContentTable : Table :=
    let tb := newTable "ContentTable" ("Content-" +:+ stageName)
                "contentId" None in
    let tb := addGlobalSecondaryIndex tb
      (mkGSI "OwnerContentIndex" (str "ownerId") (Some (str "createdAt"))) in
    addGlobalSecondaryIndex tb
      (mkGSI "EventContentIndex" (str "eventId") (Some (str "createdAt"))).

Definition mkRecipientEdgeTable : Table :=
    let tb := newTable "RecipientEdgeTable" ("RecipientEdge-" +:+ stageName)
                "edgeId" (Some NEW_IMAGE) in
    let tb := addGlobalSecondaryIndex tb
      (mkGSI "RecipientContentIndex" (str "recipientUserId")
             (Some (str "createdAt"))) in
    let tb := addGlobalSecondaryIndex tb
      (mkGSI "ContentRecipientsIndex" (str "contentId")
             (Some (str "recipientUserId"))) in
    addGlobalSecondaryIndex tb
      (mkGSI "OwnerRecipientIndex" (str "contentOwnerId")
             (Some (str "recipientUserId"))).

Definition mkFeedEntryTable : Table :=
    let tb := newTable "FeedEntryTable" ("FeedEntry-" +:+ stageName)
                "feedEntryId" None in
    addGlobalSecondaryIndex tb
      (mkGSI "UserFeedIndex" (str "recipientUserId")
             (Some (str "edgeCreatedAt"))).

Definition mkFaceIdentityTable : Table :=
    let tb := newTable "FaceIdentityTable" ("FaceIdentity-" +:+ stageName)
                "faceIdentityId" None in
    let tb := addGlobalSecondaryIndex tb
      (mkGSI "OwnerUnknownFacesIndex" (str "ownerId")
             (Some (str "status"))) in
    addGlobalSecondaryIndex tb (mkGSI "FaceIdIndex" (str "faceId") None).

Definition mkContentFaceTable : Table :=
    let tb := newTable "ContentFaceTable" ("ContentFace-" +:+ stageName)
                "contentFaceId" None in
    let tb := addGlobalSecondaryIndex tb
      (mkGSI "ContentFacesIndex" (str "contentId")
             (Some (str "faceIdentityId"))) in
    addGlobalSecondaryIndex tb
      (mkGSI "FaceIdentityContentIndex" (str "faceIdentityId")
             (Some (str "contentId"))).

Definition mkEventTable : Table :=
    let tb := newTable "EventTable" ("Phomo-Event-" +:+ stageName)
                "eventId" None in
    addGlobalSecondaryIndex tb
      (mkGSI "OwnerEventsIndex" (str "ownerId") (Some (str "createdAt"))).

Definition mkEventMemberTable : Table :=
    let tb := newTable "EventMemberTable"
                ("Phomo-EventMember-" +:+ stageName) "eventMemberId" None in
    let tb := addGlobalSecondaryIndex tb
      (mkGSI "UserEventsIndex" (str "userId") (Some (str "joinedAt"))) in
    addGlobalSecondaryIndex tb
      (mkGSI "EventMembersIndex" (str "eventId") (Some (str "userId"))).

Definition new : t :=
    mk mkUserTable mkFriendshipTable mkContentTable mkRecipientEdgeTable
       mkFeedEntryTable mkFaceIdentityTable mkContentFaceTable mkEventTable
       mkEventMemberTable.

End WithStage.

(** Every table the stack creates, in creation order. *)
Definition tables (db : t) : list Table :=
  [ userTable db; friendshipTable db; contentTable db;
    recipientEdgeTable db; feedEntryTable db; faceIdentityTable db;
    contentFaceTable db; eventTable db; eventMemberTable db ].

End DatabaseStack.

(** ** aws-cdk-lib/aws-iam *)
Module iam.

Inductive Effect : Set := ALLOW | DENY.

#[global] Instance Effect_eq_dec : EqDecision Effect.
Proof. solve_decision. Defined.

(** One entry of a statement's [conditions]: operator, context key and the
    values it is compared with. *)
Record Condition : Set := mkCondition {
  operator : string;
  key : string;
  values : list string
}.

Record PolicyStatement : Set := mkStatement {
  effect : Effect;
  actions : list string;
  resources : list string;
  conditions : list Condition
}.

(** [new iam.Role(...)] followed by its [addToPolicy] calls. *)
Record Role : Set := mkRole {
  roleId : string;
  federated : string;
  audience : cdk.Ref;
  amr : string;
  assumeRoleAction : string;
  statements : list PolicyStatement
}.

Definition addToPolicy (r : Role) (st : PolicyStatement) : Role :=
  mkRole (roleId r) (federated r) (audience r) (amr r) (assumeRoleAction r)
         (statements r ++ [st]).

(** The action names a role's statements list. *)
Definition roleActions (r : Role) : list string :=
  flat_map actions (statements r).

(** *** Policy evaluation *)

(** A resource, action or condition pattern, cut into what the evaluator
    distinguishes: literal characters, the wildcards [*] and [?], and
    policy variables written [${name}]. *)
Inductive Token : Set :=
| Lit (c : ascii)
| Star
| Quest
| Var (v : string).

Definition tokenOf (c : ascii) : Token :=
  if bool_decide (c = "*"%char) then Star
  else if bool_decide (c = "?"%char) then Quest
  else Lit c.

Definition lits (s : string) : list Token :=
  map Lit (list_ascii_of_string s).

(** Scanner for a pattern.  [inVar = Some acc] while the characters of a
    variable name are being collected ([acc] holds them reversed).  A
    [${] that is never closed is kept as literal text. *)
Fixpoint scan (inVar : option string) (s : string) : list Token :=
  match inVar, s with
  | None, EmptyString => []
  | None, String c rest =>
      match rest with
      | String c' rest' =>
          if bool_decide (c = "$"%char) && bool_decide (c' = "{"%char)
          then scan (Some EmptyString) rest'
          else tokenOf c :: scan None rest
      | EmptyString => [tokenOf c]
      end
  | Some acc, EmptyString => lits ("${" +:+ String.rev acc)
  | Some acc, String c rest =>
      if bool_decide (c = "}"%char)
      then Var (String.rev acc) :: scan None rest
      else scan (Some (String c acc)) rest
  end.

Definition tokens (pattern : string) : list Token := scan None pattern.

(** A string in which no policy variable can start. *)
Fixpoint plain (s : string) : bool :=
  match s with
  | EmptyString => true
  | String c s' => negb (bool_decide (c = "$"%char)) && plain s'
  end.

(** [dropPrefix v s] is what remains of [s] after [v], when [s] starts
    with [v]. *)
Fixpoint dropPrefix (v s : string) : option string :=
  match v, s with
  | EmptyString, _ => Some s
  | String a v', String b s' =>
      if bool_decide (a = b) then dropPrefix v' s' else None
  | String _ _, EmptyString => None
  end.

(** Action names are compared without regard to case. *)
Definition lowerChar (c : ascii) : ascii :=
  let n := N_of_ascii c in
  if ((65 <=? n) && (n <=? 90))%N then ascii_of_N (n + 32) else c.

Fixpoint lower (s : string) : string :=
  match s with
  | EmptyString => EmptyString
  | String c s' => String (lowerChar c) (lower s')
  end.

(** An action pattern knows the wildcards but no policy variables. *)
Definition actionTokens (pattern : string) : list Token :=
  map tokenOf (list_ascii_of_string (lower pattern)).

(** Request context: the values of the policy variables and condition
    keys of one request. *)
Section Match.
Variable ctx : gmap string string.

Fixpoint tmatch (p : list Token) (s : string) {struct p} : bool :=
    match p with
    | [] => bool_decide (s = EmptyString)
    | Lit c :: p' =>
        match s with
        | String c' s' => bool_decide (c = c') && tmatch p' s'
        | EmptyString => false
        end
    | Quest :: p' =>
        match s with
        | String _ s' => tmatch p' s'
        | EmptyString => false
        end
    | Star :: p' =>
        (fix star (s : string) : bool :=
           tmatch p' s
           || match s with
              | String _ s' => star s'
              | EmptyString => false
              end) s
    | Var v :: p' =>
        match ctx !! v with
        | Some val =>
            match dropPrefix val s with
            | Some s' => tmatch p' s'
            | None => false
            end
        | None => false
        end
    end.

Definition like (pattern s : string) : bool := tmatch (tokens pattern) s.

Definition likeAction (pattern action : string) : bool :=
    tmatch (actionTokens pattern) (lower action).

Definition conditionHolds (c : Condition) : bool :=
    if bool_decide (operator c = "StringLike") then
      match ctx !! key c with
      | Some v => existsb (fun p => like p v) (values c)
      | None => false
      end
    else false.

Definition statementMatches
      (st : PolicyStatement) (action resource : string) : bool :=
    existsb (fun a => likeAction a action) (actions st)
    && existsb (fun r => like r resource) (resources st)
    && forallb conditionHolds (conditions st).

  (** An identity policy allows a request when some [Allow] statement
      matches it and no [Deny] statement does. *)
Definition allows (r : Role) (action resource : string) : bool :=
    existsb (fun st => bool_decide (effect st = ALLOW)
                       && statementMatches st action resource)
            (statements r)
    && negb (existsb (fun st => bool_decide (effect st = DENY)
                                && statementMatches st action resource)
                     (statements r)).
End Match.

End iam.


(** ** aws-cdk-lib/aws-s3 *)
Module s3.

Inductive BucketEncryption : Set := S3_MANAGED | KMS_MANAGED | UNENCRYPTED.

Record Bucket : Set := mkBucket {
  bucketName : string;
  encryption : BucketEncryption;
  blockAllPublicAccess : bool;
  enforceSSL : bool;
  versioned : bool;
  eventBridgeEnabled : bool;
  removalPolicy : cdk.RemovalPolicy;
  autoDeleteObjects : bool
}.

Definition bucketArn (b : Bucket) : string :=
  "arn:aws:s3:::" +:+ bucketName b.

(** ARN of the object stored under [key]. *)
Definition objectArn (b : Bucket) (key : string) : string :=
  bucketArn b +:+ "/" +:+ key.

End s3.

(** ** aws-cdk-lib/aws-cognito: the properties that decide protection and
    role attachment *)
Module cognito.

Record UserPool : Set := mkUserPool {
  userPoolName : string;
  selfSignUpEnabled : bool;
  deletionProtection : bool;
  removalPolicy : cdk.RemovalPolicy
}.

(** [poolRemovalPolicy] is what [applyRemovalPolicy] was called with, if
    it was called. *)
Record CfnIdentityPool : Set := mkIdentityPool {
  poolConstructId : string;
  identityPoolName : string;
  allowUnauthenticatedIdentities : bool;
  poolRemovalPolicy : option cdk.RemovalPolicy
}.

(** [identityPool.ref]: the pool's id, which exists once the pool is
    deployed. *)
Definition ref (p : CfnIdentityPool) : cdk.Ref :=
  cdk.mkRef (poolConstructId p).

(** [CfnIdentityPoolRoleAttachment]: the roles handed out per class of
    identity. *)
Record CfnIdentityPoolRoleAttachment : Set := mkRoleAttachment {
  identityPoolId : cdk.Ref;
  authenticated : option iam.Role;
  unauthenticated : option iam.Role
}.

End cognito.

(** ** lib/stacks/auth-stack.ts *)
Module AuthStack.

Record t : Set := mk {
  userPool : cognito.UserPool;
  identityPool : cognito.CfnIdentityPool
}.

Definition new (stageName : string) : t :=
  mk (cognito.mkUserPool
        ("Phomo-UserPool-" +:+ stageName)
        true
        (bool_decide (stageName = "prod"))
        (if bool_decide (stageName = "prod")
         then cdk.RETAIN else cdk.DESTROY))
     (cognito.mkIdentityPool "IdentityPool"
        ("Phomo_IdentityPool_" +:+ stageName) false None).

End AuthStack.

(** ** lib/stacks/storage-stack.ts *)
Module StorageStack.

Record t : Set := mk {
  photoBucket : s3.Bucket;
  authenticatedRole : iam.Role;
  roleAttachment : cognito.CfnIdentityPoolRoleAttachment
}.

(** The policy variable Cognito fills in with the caller's identity id. *)
Definition sub : string := "cognito-identity.amazonaws.com:sub".

Section WithProps.
Variable stageName : string.
Variable identityPool : cognito.CfnIdentityPool.

Definition mkPhotoBucket : s3.Bucket :=
    s3.mkBucket ("phomov2-photos-" +:+ stageName)
      s3.S3_MANAGED true true false
      true
      (if bool_decide (stageName = "prod")
       then cdk.RETAIN else cdk.DESTROY)
      (negb (bool_decide (stageName = "prod"))).

Definition arn : string := s3.bucketArn mkPhotoBucket.

Definition ownFolders : list string :=
    [ arn +:+ "/photos/${" +:+ sub +:+ "}/*";
      arn +:+ "/faces/${" +:+ sub +:+ "}/*" ].

Definition mkAuthenticatedRole : iam.Role :=
    let r := iam.mkRole "AuthenticatedRole"
               "cognito-identity.amazonaws.com"
               (cognito.ref identityPool) "authenticated"
               "sts:AssumeRoleWithWebIdentity" [] in
    (* Upload own photos and face images *)
    let r := iam.addToPolicy r
      (iam.mkStatement iam.ALLOW ["s3:PutObject"; "s3:PutObjectAcl"]
         ownFolders []) in
    (* Read own photos *)
    let r := iam.addToPolicy r
      (iam.mkStatement iam.ALLOW ["s3:GetObject"] ownFolders []) in
    (* Read all photos *)
    let r := iam.addToPolicy r
      (iam.mkStatement iam.ALLOW ["s3:GetObject"]
         [ arn +:+ "/photos/*/*"; arn +:+ "/faces/*/*" ] []) in
    (* Delete own photos *)
    let r := iam.addToPolicy r
      (iam.mkStatement iam.ALLOW ["s3:DeleteObject"] ownFolders []) in
    (* List bucket *)
    iam.addToPolicy r
      (iam.mkStatement iam.ALLOW ["s3:ListBucket"] [arn]
         [ iam.mkCondition "StringLike" "s3:prefix"
             [ "photos/${" +:+ sub +:+ "}/*";
               "faces/${" +:+ sub +:+ "}/*" ] ]).

Definition new : t :=
    mk mkPhotoBucket mkAuthenticatedRole
       (cognito.mkRoleAttachment (cognito.ref identityPool)
          (Some mkAuthenticatedRole) None).

End WithProps.

(** The request context of an authenticated caller whose identity id is
    [identityId]. *)
Definition callerContext (identityId : string) : gmap string string :=
  {[ sub := identityId ]}.

End StorageStack.

(** ** aws-cdk-lib/aws-sqs *)
Module sqs.

Record DlqProps : Set := mkDlq {
  dlqId : string;
  dlqName : string;
  dlqRetentionPeriod : cdk.Duration;
  dlqRemovalPolicy : option cdk.RemovalPolicy
}.

(** [deadLetterQueue: { queue, maxReceiveCount }] *)
Record DeadLetterQueue : Set := mkDeadLetterQueue {
  queue : DlqProps;
  maxReceiveCount : nat
}.

Record Queue : Set := mkQueue {
  queueId : string;
  queueName : string;
  visibilityTimeout : cdk.Duration;
  retentionPeriod : cdk.Duration;
  deadLetterQueue : option DeadLetterQueue;
  removalPolicy : option cdk.RemovalPolicy
}.

End sqs.

(** ** aws-cdk-lib/aws-lambda and aws-lambda-nodejs *)
Module lambda.

Inductive Runtime : Set := NODEJS_18_X | NODEJS_20_X.

Inductive StartingPosition : Set := TRIM_HORIZON | LATEST.

Record Function : Set := mkFunction {
  functionId : string;
  functionName : string;
  entry : string;
  handler : string;
  runtime : Runtime;
  timeout : cdk.Duration;
  memorySize : Z;
  environment : list (string * string)
}.

(** Two constructs of a stage are the same when their ids are. *)
Definition same (f g : Function) : bool :=
  bool_decide (functionId f = functionId g).

End lambda.

(** ** aws-cdk-lib/aws-lambda-event-sources *)
Module lambdaEventSources.

Record SqsEventSourceProps : Set := mkSqsProps {
  sqsBatchSize : nat;
  maxBatchingWindow : cdk.Duration
}.

(** Where a stream event source sends the records it gives up on. *)
Inductive EventSourceDlq : Set :=
| SqsDlq (q : sqs.Queue)
| SnsDlq (topic : string).

Record DynamoEventSourceProps : Set := mkDynamoProps {
  startingPosition : lambda.StartingPosition;
  batchSize : nat;
  bisectBatchOnError : bool;
  retryAttempts : nat;
  onFailure : option EventSourceDlq
}.

Inductive EventSource : Set :=
| SqsEventSource (q : sqs.Queue) (props : SqsEventSourceProps)
| DynamoEventSource (tb : dynamodb.Table) (props : DynamoEventSourceProps).

(** [fn.addEventSource(source)] *)
Record EventSourceMapping : Set := mkMapping {
  target : lambda.Function;
  source : EventSource
}.

End lambdaEventSources.

(** ** aws-cdk-lib/aws-events and aws-events-targets *)
Module events.

(** An element of a pattern array: a plain string matches exactly, an
    object [{ prefix: p }] matches every value starting with [p]. *)
Inductive PatternValue : Set :=
| Exact (s : string)
| Prefix (p : string).

(** A field of [detail], addressed by its path. *)
Definition Path : Set := list string.

(** Every field of a pattern is optional; a field that is left out
    constrains nothing. *)
Record EventPattern : Set := mkPattern {
  source : option (list string);
  detailType : option (list string);
  detail : list (Path * list PatternValue)
}.

Inductive Schedule : Set := rate (d : cdk.Duration).

Inductive Target : Set :=
| SqsQueue (q : sqs.Queue)
| LambdaFunction (f : lambda.Function).

Record Rule : Set := mkRule {
  ruleId : string;
  ruleName : string;
  eventPattern : option EventPattern;
  schedule : option Schedule;
  targets : list Target
}.

(** [rule.addTarget(target)] *)
Definition addTarget (r : Rule) (tg : Target) : Rule :=
  mkRule (ruleId r) (ruleName r) (eventPattern r) (schedule r)
         (targets r ++ [tg]).

(** An event on the bus. *)
Record Event : Set := mkEvent {
  evSource : string;
  evDetailType : string;
  evDetail : list (Path * string)
}.

Fixpoint field (d : list (Path * string)) (p : Path) : option string :=
  match d with
  | [] => None
  | (q, v) :: d' => if bool_decide (q = p) then Some v else field d' p
  end.

Definition valueMatches (v : string) (pv : PatternValue) : bool :=
  match pv with
  | Exact s => bool_decide (s = v)
  | Prefix p => String.prefix p v
  end.

Definition fieldMatches (e : Event) (f : Path * list PatternValue) : bool :=
  match field (evDetail e) (fst f) with
  | Some v => existsb (valueMatches v) (snd f)
  | None => false
  end.

Definition oneOf (allowed : option (list string)) (v : string) : bool :=
  match allowed with
  | Some l => existsb (fun s => bool_decide (s = v)) l
  | None => true
  end.

(** Every field the pattern names must match; fields it does not name are
    free. *)
Definition matches (p : EventPattern) (e : Event) : bool :=
  oneOf (source p) (evSource e)
  && oneOf (detailType p) (evDetailType e)
  && forallb (fieldMatches e) (detail p).

End events.

(** ** Permissions handed out by the [grant*] calls *)
Module grants.

(** Who a permission is given to: the role of a function, the service role
    of an API data source, or the event bus acting for one rule
    ([events.amazonaws.com] with the rule as source). *)
Inductive Principal : Set :=
| FunctionRole (f : lambda.Function)
| DataSource (id : string)
| EventsRule (ruleId : string).

(** [ReadData], [WriteData] and [ReadWriteData] are the table grants,
    [StreamRead] is [grantStreamRead], [Read] is a bucket's [grantRead],
    [ConsumeMessages] and [SendMessages] are the queue grants. *)
Inductive Access : Set :=
| ReadData
| WriteData
| ReadWriteData
| StreamRead
| Read
| Invoke
| ConsumeMessages
| SendMessages
| Statement (st : iam.PolicyStatement).

Inductive Resource : Set :=
| OnTable (tb : dynamodb.Table)
| OnStream (tb : dynamodb.Table)
| OnBucket (b : s3.Bucket)
| OnFunction (f : lambda.Function)
| OnQueue (q : sqs.Queue)
| OnRole.

Record Grant : Set := mkGrant {
  grantee : Principal;
  access : Access;
  resource : Resource
}.

Definition isFunction (p : Principal) (f : lambda.Function) : bool :=
  match p with
  | FunctionRole g => lambda.same g f
  | DataSource _ | EventsRule _ => false
  end.

Definition isTable (r : Resource) (tb : dynamodb.Table) : bool :=
  match r with
  | OnTable u => bool_decide (dynamodb.constructId u = dynamodb.constructId tb)
  | _ => false
  end.

Definition reads (a : Access) : bool :=
  match a with ReadData | ReadWriteData => true | _ => false end.

Definition writes (a : Access) : bool :=
  match a with WriteData | ReadWriteData => true | _ => false end.

Definition canRead (gs : list Grant) (f : lambda.Function)
    (tb : dynamodb.Table) : bool :=
  existsb (fun g => isFunction (grantee g) f && reads (access g)
                    && isTable (resource g) tb) gs.

Definition canWrite (gs : list Grant) (f : lambda.Function)
    (tb : dynamodb.Table) : bool :=
  existsb (fun g => isFunction (grantee g) f && writes (access g)
                    && isTable (resource g) tb) gs.

Definition grantsInvoke (f : lambda.Function) (g : Grant) : bool :=
  match access g, resource g with
  | Invoke, OnFunction h => lambda.same h f
  | _, _ => false
  end.

(** The principals allowed to invoke [f]. *)
Definition invokers (gs : list Grant) (f : lambda.Function)
  : list Principal :=
  map grantee (List.filter (grantsInvoke f) gs).

(** Whether a grant lets its grantee read the change stream of [tb]. *)
Definition readsStream (g : Grant) (tb : dynamodb.Table) : bool :=
  match access g, resource g with
  | StreamRead, OnStream u =>
      bool_decide (dynamodb.constructId u = dynamodb.constructId tb)
  | _, _ => false
  end.

Definition canReadStream (gs : list Grant) (f : lambda.Function)
    (tb : dynamodb.Table) : bool :=
  existsb (fun g => isFunction (grantee g) f && readsStream g tb) gs.

(** [source.bind(target)], called by [target.addEventSource(source)]: a
    queue source lets the function consume the queue's messages
    ([queue.grantConsumeMessages]), a table source lets it read the
    table's stream ([table.grantStreamRead]). *)
Definition bindEventSource (m : lambdaEventSources.EventSourceMapping)
  : Grant :=
  let f := FunctionRole (lambdaEventSources.target m) in
  match lambdaEventSources.source m with
  | lambdaEventSources.SqsEventSource q _ =>
      mkGrant f ConsumeMessages (OnQueue q)
  | lambdaEventSources.DynamoEventSource tb _ =>
      mkGrant f StreamRead (OnStream tb)
  end.

(** [target.bind(rule)]: a queue target lets the rule send to the queue
    ([queue.grantSendMessages]), a function target lets the rule invoke the
    function ([addPermission]). *)
Definition bindTarget (ruleId : string) (tg : events.Target) : Grant :=
  match tg with
  | events.SqsQueue q => mkGrant (EventsRule ruleId) SendMessages (OnQueue q)
  | events.LambdaFunction f =>
      mkGrant (EventsRule ruleId) Invoke (OnFunction f)
  end.

Definition bindRule (r : events.Rule) : list Grant :=
  map (bindTarget (events.ruleId r)) (events.targets r).

End grants.

(** ** lib/stacks/rekognition-stack.ts *)
Module RekognitionStack.

(** [rekognition.CfnCollection]; [collectionRemovalPolicy] is what
    [applyRemovalPolicy] was called with, if it was called. *)
Record CfnCollection : Set := mkCollection {
  collectionConstructId : string;
  cfnCollectionId : string;
  tags : list (string * string);
  collectionRemovalPolicy : option cdk.RemovalPolicy
}.

Record t : Set := mk {
  faceCollection : CfnCollection;
  collectionId : string
}.

Definition new (stageName : string) : t :=
  let collectionId := "phomo-faces-" +:+ stageName in
  mk (mkCollection "FaceCollection" collectionId
        [ ("Name", "Phomo Face Collection - " +:+ stageName);
          ("Environment", stageName);
          ("Application", "Phomo") ]
        None)
     collectionId.

End RekognitionStack.

(** ** lib/stacks/face-processing-stack.ts *)
Module FaceProcessingStack.

Import grants.

Record t : Set := mk {
  photoProcessingDLQ : sqs.DlqProps;
  photoProcessingQueue : sqs.Queue;
  processContentFacesFunction : lambda.Function;
  enrollFaceFunction : lambda.Function;
  retroactiveMatchFunction : lambda.Function;
  eventSourceMappings : list lambdaEventSources.EventSourceMapping;
  rules : list events.Rule;
  permissions : list Grant
}.

Section WithProps.
Variable stageName : string.
Variable photoBucket : s3.Bucket.
Variable collectionId : string.
Variable databaseStack : DatabaseStack.t.

Definition mkPhotoProcessingDLQ : sqs.DlqProps :=
  sqs.mkDlq "PhotoProcessingDLQ"
    ("phomo-photo-processing-dlq-" +:+ stageName) (cdk.days 14) None.

Definition mkPhotoProcessingQueue : sqs.Queue :=
  sqs.mkQueue "PhotoProcessingQueue"
    ("phomo-photo-processing-" +:+ stageName)
    (cdk.seconds 30) (cdk.days 4)
    (Some (sqs.mkDeadLetterQueue mkPhotoProcessingDLQ 3)) None.

Definition sharedEnvironment : list (string * string) :=
  [ ("STAGE_NAME", stageName);
    ("REKOGNITION_COLLECTION_ID", collectionId);
    ("PHOTO_BUCKET_NAME", s3.bucketName photoBucket);
    ("USER_TABLE_NAME",
      dynamodb.tableName (DatabaseStack.userTable databaseStack));
    ("FRIENDSHIP_TABLE_NAME",
      dynamodb.tableName (DatabaseStack.friendshipTable databaseStack));
    ("CONTENT_TABLE_NAME",
      dynamodb.tableName (DatabaseStack.contentTable databaseStack));
    ("RECIPIENT_EDGE_TABLE_NAME",
      dynamodb.tableName (DatabaseStack.recipientEdgeTable databaseStack));
    ("FACE_IDENTITY_TABLE_NAME",
      dynamodb.tableName (DatabaseStack.faceIdentityTable databaseStack));
    ("CONTENT_FACE_TABLE_NAME",
      dynamodb.tableName (DatabaseStack.contentFaceTable databaseStack));
    ("EVENT_TABLE_NAME",
      dynamodb.tableName (DatabaseStack.eventTable databaseStack)) ].

Definition mkProcessContentFacesFunction : lambda.Function :=
  lambda.mkFunction "ProcessContentFacesFunction"
    ("phomo-process-content-faces-" +:+ stageName)
    "../lambdas/src/face-processing/process-content-faces.ts" "handler"
    lambda.NODEJS_20_X (cdk.seconds 30) 512 sharedEnvironment.

Definition mkEnrollFaceFunction : lambda.Function :=
  lambda.mkFunction "EnrollFaceFunction"
    ("phomo-enroll-face-" +:+ stageName)
    "../lambdas/src/face-processing/enroll-face.ts" "handler"
    lambda.NODEJS_20_X (cdk.seconds 30) 256 sharedEnvironment.

Definition mkRetroactiveMatchFunction : lambda.Function :=
  lambda.mkFunction "RetroactiveMatchFunction"
    ("phomo-retroactive-match-" +:+ stageName)
    "../lambdas/src/face-processing/retroactive-match.ts" "handler"
    lambda.NODEJS_20_X (cdk.seconds 60) 512 sharedEnvironment.

Definition queueProps : lambdaEventSources.SqsEventSourceProps :=
  lambdaEventSources.mkSqsProps 1 (cdk.seconds 0).

(** The single [addEventSource] call of the stack. *)
Definition mkEventSourceMappings
  : list lambdaEventSources.EventSourceMapping :=
  [ lambdaEventSources.mkMapping mkProcessContentFacesFunction
      (lambdaEventSources.SqsEventSource mkPhotoProcessingQueue
         queueProps) ].

Definition mkPhotoUploadRule : events.Rule :=
  events.mkRule "PhotoUploadRule"
    ("phomo-photo-upload-" +:+ stageName)
    (Some (events.mkPattern
             (Some ["aws.s3"])
             (Some ["Object Created"])
             [ (["bucket"; "name"],
                 [events.Exact (s3.bucketName photoBucket)]);
               (["object"; "key"], [events.Prefix "photos/"]) ]))
    None
    [events.SqsQueue mkPhotoProcessingQueue].

Definition rekognitionPolicy : iam.PolicyStatement :=
  iam.mkStatement iam.ALLOW
    [ "rekognition:IndexFaces"; "rekognition:SearchUsers";
      "rekognition:SearchFaces"; "rekognition:SearchFacesByImage";
      "rekognition:CreateUser"; "rekognition:AssociateFaces";
      "rekognition:ListFaces"; "rekognition:DetectFaces" ]
    ["*"] [].

(** The grants in the order the constructor makes them: the one the event
    source brings, the one the rule's target brings, then the stack's own
    [addToRolePolicy] and [grant*] calls. *)
Definition mkPermissions : list Grant :=
  let process := FunctionRole mkProcessContentFacesFunction in
  let enroll := FunctionRole mkEnrollFaceFunction in
  let retro := FunctionRole mkRetroactiveMatchFunction in
  let db := databaseStack in
  map bindEventSource mkEventSourceMappings
  ++ bindRule mkPhotoUploadRule
  ++
  [ mkGrant process (Statement rekognitionPolicy) OnRole;
    mkGrant enroll (Statement rekognitionPolicy) OnRole;
    mkGrant retro (Statement rekognitionPolicy) OnRole;
    mkGrant process Read (OnBucket photoBucket);
    mkGrant enroll Read (OnBucket photoBucket);
    mkGrant process ReadWriteData (OnTable (DatabaseStack.userTable db));
    mkGrant enroll ReadWriteData (OnTable (DatabaseStack.userTable db));
    mkGrant retro ReadData (OnTable (DatabaseStack.userTable db));
    mkGrant process ReadData (OnTable (DatabaseStack.friendshipTable db));
    mkGrant retro ReadData (OnTable (DatabaseStack.friendshipTable db));
    mkGrant process ReadData (OnTable (DatabaseStack.contentTable db));
    mkGrant process WriteData (OnTable (DatabaseStack.recipientEdgeTable db));
    mkGrant retro WriteData (OnTable (DatabaseStack.recipientEdgeTable db));
    mkGrant process ReadWriteData
      (OnTable (DatabaseStack.faceIdentityTable db));
    mkGrant retro ReadWriteData
      (OnTable (DatabaseStack.faceIdentityTable db));
    mkGrant process ReadWriteData
      (OnTable (DatabaseStack.contentFaceTable db));
    mkGrant retro ReadData (OnTable (DatabaseStack.contentFaceTable db));
    mkGrant process ReadData (OnTable (DatabaseStack.eventTable db)) ].

Definition new : t :=
  mk mkPhotoProcessingDLQ mkPhotoProcessingQueue
     mkProcessContentFacesFunction mkEnrollFaceFunction
     mkRetroactiveMatchFunction mkEventSourceMappings [mkPhotoUploadRule]
     mkPermissions.

End WithProps.

End FaceProcessingStack.

(** ** lib/stacks/stream-processing-stack.ts *)
Module StreamProcessingStack.

Import grants.

Record t : Set := mk {
  feedEntrySyncFunction : lambda.Function;
  eventSourceMappings : list lambdaEventSources.EventSourceMapping;
  permissions : list Grant
}.

Section WithProps.
Variable stageName : string.
Variable databaseStack : DatabaseStack.t.

Definition mkFeedEntrySyncFunction : lambda.Function :=
  lambda.mkFunction "FeedEntrySyncFunction"
    ("phomo-feed-entry-sync-" +:+ stageName)
    "../lambdas/stream-processing/feed-entry-sync.ts" "handler"
    lambda.NODEJS_20_X (cdk.seconds 10) 256
    [ ("STAGE_NAME", stageName);
      ("FEED_ENTRY_TABLE_NAME",
        dynamodb.tableName (DatabaseStack.feedEntryTable databaseStack));
      ("CONTENT_TABLE_NAME",
        dynamodb.tableName (DatabaseStack.contentTable databaseStack)) ].

(** The stream event source: no [onFailure] destination is passed. *)
Definition streamProps : lambdaEventSources.DynamoEventSourceProps :=
  lambdaEventSources.mkDynamoProps lambda.TRIM_HORIZON 10 true 3 None.

Definition mkEventSourceMappings
  : list lambdaEventSources.EventSourceMapping :=
  [ lambdaEventSources.mkMapping mkFeedEntrySyncFunction
      (lambdaEventSources.DynamoEventSource
         (DatabaseStack.recipientEdgeTable databaseStack) streamProps) ].

(** The grant the stream event source brings, then the stack's own
    [grant*] calls. *)
Definition mkPermissions : list Grant :=
  map bindEventSource mkEventSourceMappings
  ++
  [ mkGrant (FunctionRole mkFeedEntrySyncFunction) ReadData
      (OnTable (DatabaseStack.contentTable databaseStack));
    mkGrant (FunctionRole mkFeedEntrySyncFunction) WriteData
      (OnTable (DatabaseStack.feedEntryTable databaseStack)) ].

Definition new : t :=
  mk mkFeedEntrySyncFunction mkEventSourceMappings mkPermissions.

End WithProps.

End StreamProcessingStack.

(** ** lib/stacks/scheduled-jobs-stack.ts *)
Module ScheduledJobsStack.

Import grants.

Record t : Set := mk {
  sendEventRemindersFunction : lambda.Function;
  rules : list events.Rule;
  permissions : list Grant
}.

Section WithProps.
Variable stageName : string.
Variable databaseStack : DatabaseStack.t.

Definition mkSendEventRemindersFunction : lambda.Function :=
  lambda.mkFunction "SendEventRemindersFunction"
    ("phomo-send-event-reminders-" +:+ stageName)
    "../lambdas/src/scheduled-jobs/send-event-reminders.ts" "handler"
    lambda.NODEJS_20_X (cdk.seconds 60) 256
    [ ("STAGE_NAME", stageName);
      ("EVENT_TABLE_NAME",
        dynamodb.tableName (DatabaseStack.eventTable databaseStack));
      ("EVENT_MEMBER_TABLE_NAME",
        dynamodb.tableName (DatabaseStack.eventMemberTable databaseStack));
      ("USER_TABLE_NAME",
        dynamodb.tableName (DatabaseStack.userTable databaseStack)) ].

Definition mkEventReminderRule : events.Rule :=
  let eventReminderRule :=
    events.mkRule "EventReminderRule"
      ("phomo-event-reminder-" +:+ stageName)
      None (Some (events.rate (cdk.hours 1))) [] in
  events.addTarget eventReminderRule
    (events.LambdaFunction mkSendEventRemindersFunction).

(** The grant the rule's target brings, then the stack's own [grant*]
    calls. *)
Definition mkPermissions : list Grant :=
  let f := FunctionRole mkSendEventRemindersFunction in
  bindRule mkEventReminderRule
  ++
  [ mkGrant f ReadData (OnTable (DatabaseStack.eventTable databaseStack));
    mkGrant f ReadData
      (OnTable (DatabaseStack.eventMemberTable databaseStack));
    mkGrant f ReadData (OnTable (DatabaseStack.userTable databaseStack)) ].

Definition new : t :=
  mk mkSendEventRemindersFunction [mkEventReminderRule] mkPermissions.

End WithProps.

End ScheduledJobsStack.

(** ** lib/stacks/api-stack.ts *)
Module ApiStack.

Import grants.

Record t : Set := mk {
  apiName : string;
  acceptFriendshipFunction : lambda.Function;
  getContentUrlFunction : lambda.Function;
  findFriendsByPhoneFunction : lambda.Function;
  dynamoDbDataSources : list (string * dynamodb.Table);
  lambdaDataSources : list (string * lambda.Function);
  permissions : list Grant
}.

Section WithProps.
Variable stageName : string.
Variable photoBucket : s3.Bucket.
Variable collectionId : string.
Variable databaseStack : DatabaseStack.t.
Variable faceProcessingStack : FaceProcessingStack.t.

Definition sharedEnvironment : list (string * string) :=
  let db := databaseStack in
  [ ("STAGE_NAME", stageName);
    ("PHOTO_BUCKET_NAME", s3.bucketName photoBucket);
    ("REKOGNITION_COLLECTION_ID", collectionId);
    ("USER_TABLE_NAME", dynamodb.tableName (DatabaseStack.userTable db));
    ("FRIENDSHIP_TABLE_NAME",
      dynamodb.tableName (DatabaseStack.friendshipTable db));
    ("CONTENT_TABLE_NAME",
      dynamodb.tableName (DatabaseStack.contentTable db));
    ("RECIPIENT_EDGE_TABLE_NAME",
      dynamodb.tableName (DatabaseStack.recipientEdgeTable db));
    ("FEED_ENTRY_TABLE_NAME",
      dynamodb.tableName (DatabaseStack.feedEntryTable db));
    ("FACE_IDENTITY_TABLE_NAME",
      dynamodb.tableName (DatabaseStack.faceIdentityTable db));
    ("CONTENT_FACE_TABLE_NAME",
      dynamodb.tableName (DatabaseStack.contentFaceTable db));
    ("EVENT_TABLE_NAME", dynamodb.tableName (DatabaseStack.eventTable db));
    ("EVENT_MEMBER_TABLE_NAME",
      dynamodb.tableName (DatabaseStack.eventMemberTable db)) ].

Definition mkAcceptFriendshipFunction : lambda.Function :=
  lambda.mkFunction "AcceptFriendshipFunction"
    ("phomo-accept-friendship-" +:+ stageName)
    "../lambdas/api-resolvers/accept-friendship.ts" "handler"
    lambda.NODEJS_20_X (cdk.seconds 90) 512 sharedEnvironment.

Definition mkGetContentUrlFunction : lambda.Function :=
  lambda.mkFunction "GetContentUrlFunction"
    ("phomo-get-content-url-" +:+ stageName)
    "../lambdas/api-resolvers/get-content-url.ts" "handler"
    lambda.NODEJS_20_X (cdk.seconds 10) 256 sharedEnvironment.

Definition mkFindFriendsByPhoneFunction : lambda.Function :=
  lambda.mkFunction "FindFriendsByPhoneFunction"
    ("phomo-find-friends-by-phone-" +:+ stageName)
    "../lambdas/api-resolvers/find-friends-by-phone.ts" "handler"
    lambda.NODEJS_20_X (cdk.seconds 30) 256 sharedEnvironment.

(** The six [addDynamoDbDataSource] calls. *)
Definition mkDynamoDbDataSources : list (string * dynamodb.Table) :=
  let db := databaseStack in
  [ ("UserTableDataSource", DatabaseStack.userTable db);
    ("FriendshipTableDataSource", DatabaseStack.friendshipTable db);
    ("ContentTableDataSource", DatabaseStack.contentTable db);
    ("FeedEntryTableDataSource", DatabaseStack.feedEntryTable db);
    ("EventTableDataSource", DatabaseStack.eventTable db);
    ("EventMemberTableDataSource", DatabaseStack.eventMemberTable db) ].

(** The four [addLambdaDataSource] calls. *)
Definition mkLambdaDataSources : list (string * lambda.Function) :=
  [ ("AcceptFriendshipDataSource", mkAcceptFriendshipFunction);
    ("GetContentUrlDataSource", mkGetContentUrlFunction);
    ("FindFriendsByPhoneDataSource", mkFindFriendsByPhoneFunction);
    ("EnrollFaceDataSource",
      FaceProcessingStack.enrollFaceFunction faceProcessingStack) ].

(** A data source's service role may read and write its table, or invoke its
    function; after these come the stack's own [grant*] calls. *)
Definition mkPermissions : list Grant :=
  map (fun d => mkGrant (DataSource (fst d)) ReadWriteData (OnTable (snd d)))
      mkDynamoDbDataSources
  ++ map (fun d => mkGrant (DataSource (fst d)) Invoke (OnFunction (snd d)))
         mkLambdaDataSources
  ++ [ mkGrant (FunctionRole mkAcceptFriendshipFunction) ReadWriteData
         (OnTable (DatabaseStack.friendshipTable databaseStack));
       mkGrant (FunctionRole mkAcceptFriendshipFunction) ReadData
         (OnTable (DatabaseStack.userTable databaseStack));
       mkGrant (FunctionRole mkAcceptFriendshipFunction) Invoke
         (OnFunction
            (FaceProcessingStack.retroactiveMatchFunction
               faceProcessingStack));
       mkGrant (FunctionRole mkGetContentUrlFunction) ReadData
         (OnTable (DatabaseStack.contentTable databaseStack));
       mkGrant (FunctionRole mkGetContentUrlFunction) Read
         (OnBucket photoBucket);
       mkGrant (FunctionRole mkFindFriendsByPhoneFunction) ReadData
         (OnTable (DatabaseStack.userTable databaseStack)) ].

Definition new : t :=
  mk ("Phomo-API-" +:+ stageName) mkAcceptFriendshipFunction
     mkGetContentUrlFunction mkFindFriendsByPhoneFunction
     mkDynamoDbDataSources mkLambdaDataSources mkPermissions.

End WithProps.

End ApiStack.

(** ** config/stages.ts *)
Module config.

Record StageConfig : Set := mkStageConfig {
  stageName : string;
  account : option string;
  region : string
}.

Definition stages : list StageConfig :=
  [ mkStageConfig "dev" None "us-east-1";
    mkStageConfig "staging" None "us-east-1";
    mkStageConfig "prod" None "us-east-1" ].

End config.

(** ** lib/phomo-stage.ts *)
Module PhomoStage.

Record t : Set := mk {
  authStack : AuthStack.t;
  storageStack : StorageStack.t;
  databaseStack : DatabaseStack.t;
  rekognitionStack : RekognitionStack.t;
  faceProcessingStack : FaceProcessingStack.t;
  streamProcessingStack : StreamProcessingStack.t;
  scheduledJobsStack : ScheduledJobsStack.t;
  apiStack : ApiStack.t
}.

Definition new (stageName : string) : t :=
  let authStack := AuthStack.new stageName in
  let storageStack :=
    StorageStack.new stageName (AuthStack.identityPool authStack) in
  let databaseStack := DatabaseStack.new stageName in
  let rekognitionStack := RekognitionStack.new stageName in
  let faceProcessingStack :=
    FaceProcessingStack.new stageName
      (StorageStack.photoBucket storageStack)
      (RekognitionStack.collectionId rekognitionStack)
      databaseStack in
  let streamProcessingStack :=
    StreamProcessingStack.new stageName databaseStack in
  let scheduledJobsStack :=
    ScheduledJobsStack.new stageName databaseStack in
  let apiStack :=
    ApiStack.new stageName
      (StorageStack.photoBucket storageStack)
      (RekognitionStack.collectionId rekognitionStack)
      databaseStack faceProcessingStack in
  mk authStack storageStack databaseStack rekognitionStack
     faceProcessingStack streamProcessingStack scheduledJobsStack apiStack.

(** *** The stage seen as one wiring diagram *)

Definition eventSourceMappings (st : t)
  : list lambdaEventSources.EventSourceMapping :=
  FaceProcessingStack.eventSourceMappings (faceProcessingStack st)
  ++ StreamProcessingStack.eventSourceMappings (streamProcessingStack st).

Definition rules (st : t) : list events.Rule :=
  FaceProcessingStack.rules (faceProcessingStack st)
  ++ ScheduledJobsStack.rules (scheduledJobsStack st).

Definition permissions (st : t) : list grants.Grant :=
  FaceProcessingStack.permissions (faceProcessingStack st)
  ++ StreamProcessingStack.permissions (streamProcessingStack st)
  ++ ScheduledJobsStack.permissions (scheduledJobsStack st)
  ++ ApiStack.permissions (apiStack st).

Definition functions (st : t) : list lambda.Function :=
  [ FaceProcessingStack.processContentFacesFunction (faceProcessingStack st);
    FaceProcessingStack.enrollFaceFunction (faceProcessingStack st);
    FaceProcessingStack.retroactiveMatchFunction (faceProcessingStack st);
    StreamProcessingStack.feedEntrySyncFunction (streamProcessingStack st);
    ScheduledJobsStack.sendEventRemindersFunction (scheduledJobsStack st);
    ApiStack.acceptFriendshipFunction (apiStack st);
    ApiStack.getContentUrlFunction (apiStack st);
    ApiStack.findFriendsByPhoneFunction (apiStack st) ].

End PhomoStage.

(** ** How the wiring turns an occurrence into function invocations *)
Module wiring.

Import lambdaEventSources.

(** The functions polling queue [q]. *)
Definition queueConsumers (ms : list EventSourceMapping) (q : sqs.Queue)
  : list lambda.Function :=
  flat_map (fun m => match source m with
                     | SqsEventSource q' _ =>
                         if bool_decide (sqs.queueId q' = sqs.queueId q)
                         then [target m] else []
                     | DynamoEventSource _ _ => []
                     end) ms.

(** The functions reading the change stream of table [tb]; a table without
    a stream has none. *)
Definition streamConsumers (ms : list EventSourceMapping)
    (tb : dynamodb.Table) : list lambda.Function :=
  match dynamodb.stream tb with
  | None => []
  | Some _ =>
      flat_map (fun m => match source m with
                         | DynamoEventSource tb' _ =>
                             if bool_decide (dynamodb.constructId tb'
                                             = dynamodb.constructId tb)
                             then [target m] else []
                         | SqsEventSource _ _ => []
                         end) ms
  end.

Definition targetInvokes (ms : list EventSourceMapping) (tg : events.Target)
  : list lambda.Function :=
  match tg with
  | events.SqsQueue q => queueConsumers ms q
  | events.LambdaFunction f => [f]
  end.

(** What a rule starts when event [e] is on the bus. *)
Definition ruleInvokes (ms : list EventSourceMapping) (e : events.Event)
    (r : events.Rule) : list lambda.Function :=
  match events.eventPattern r with
  | Some p =>
      if events.matches p e
      then flat_map (targetInvokes ms) (events.targets r) else []
  | None => []
  end.

(** What a rule starts when its schedule fires. *)
Definition scheduleInvokes (ms : list EventSourceMapping) (r : events.Rule)
  : list lambda.Function :=
  match events.schedule r with
  | Some _ => flat_map (targetInvokes ms) (events.targets r)
  | None => []
  end.

(** The occurrences the stage's resources react to. *)
Inductive Occurrence : Set :=
| BusEvent (e : events.Event)
| ScheduleFired (ruleId : string)
| StreamRecord (tb : dynamodb.Table)
| QueueMessage (q : sqs.Queue).

Definition invoked (st : PhomoStage.t) (o : Occurrence)
  : list lambda.Function :=
  let ms := PhomoStage.eventSourceMappings st in
  match o with
  | BusEvent e => flat_map (ruleInvokes ms e) (PhomoStage.rules st)
  | ScheduleFired id =>
      flat_map (fun r => if bool_decide (events.ruleId r = id)
                         then scheduleInvokes ms r else [])
               (PhomoStage.rules st)
  | StreamRecord tb => streamConsumers ms tb
  | QueueMessage q => queueConsumers ms q
  end.

(** The event a bucket puts on the bus when an object is created under
    [key]; nothing is emitted unless [eventBridgeEnabled] is set. *)
Definition objectCreated (b : s3.Bucket) (key : string)
  : option events.Event :=
  if s3.eventBridgeEnabled b
  then Some (events.mkEvent "aws.s3" "Object Created"
               [ (["bucket"; "name"], s3.bucketName b);
                 (["object"; "key"], key) ])
  else None.

(** The functions started by the creation of [key] in bucket [b]. *)
Definition onObjectCreated (st : PhomoStage.t) (b : s3.Bucket)
    (key : string) : list lambda.Function :=
  match objectCreated b key with
  | Some e => invoked st (BusEvent e)
  | None => []
  end.

End wiring.

(** ** Tables as stores: writes and index queries *)
Module store.

Import dynamodb.

(** The rows of a table, addressed by the value of the partition key. *)
Abbreviation Rows := (gmap string Item).



Definition findIndex (tb : Table) (nm : string)
  : option GlobalSecondaryIndexProps :=
  List.find (fun i => bool_decide (indexName i = nm))
            (globalSecondaryIndexes tb).

(** The string stored under attribute [a], if there is one. *)
Definition stringAt (it : Item) (a : string) : option string :=
  match it !! a with
  | Some (S s) => Some s
  | _ => None
  end.

(** An item appears in partition [pk] of an index when it carries the index
    partition key with that value and, for an index with a sort key, the
    sort key too (indexes are sparse). *)
Definition inPartition (i : GlobalSecondaryIndexProps) (pk : string)
    (it : Item) : bool :=
  bool_decide (stringAt it (name (indexPartitionKey i)) = Some pk)
  && match indexSortKey i with
     | Some sk => bool_decide (is_Some (stringAt it (name sk)))
     | None => true
     end.

Definition sortValue (i : GlobalSecondaryIndexProps) (it : Item) : string :=
  match indexSortKey i with
  | Some sk => default EmptyString (stringAt it (name sk))
  | None => EmptyString
  end.

(** Order of two rows inside one partition of index [i]. *)
Definition sortLe (i : GlobalSecondaryIndexProps) (a b : Item) : Prop :=
  String.le (sortValue i a) (sortValue i b).

#[global] Instance sortLe_dec i : RelDecision (sortLe i).
Proof. intros a b. unfold sortLe. apply _. Defined.

(** [Query] on an index: the rows of one partition in sort-key order,
    ascending when [scanIndexForward] is set and descending otherwise. *)
Definition query (i : GlobalSecondaryIndexProps) (pk : string)
    (scanIndexForward : bool) (items : list Item) : list Item :=
  let rows := List.filter (inPartition i pk) items in
  let ascending := merge_sort (sortLe i) rows in
  if scanIndexForward then ascending else reverse ascending.

End store.

(** ** The feed listing *)
Module feed.

(** Modelled from the spec: the [Query.getFeed] resolver is not written yet
    (api-stack.ts only lists it as work to do, reading [FeedEntryTable]
    through [UserFeedIndex]).  Following the spec's ordering rule and the
    index's purpose, "my feed, newest first", it is a query of the
    recipient's partition of [UserFeedIndex] in descending key order. *)
Definition getFeed (db : DatabaseStack.t) (recipient : string)
    (entries : list Item) : option (list Item) :=
  match store.findIndex (DatabaseStack.feedEntryTable db) "UserFeedIndex" with
  | Some i => Some (store.query i recipient false entries)
  | None => None
  end.

(** The edge-creation time a feed row is listed under. *)
Definition edgeCreatedAt (it : Item) : string :=
  default EmptyString (store.stringAt it "edgeCreatedAt").

(** [newerFirst a b]: row [a] may be listed before row [b]. *)
Definition newerFirst (a b : Item) : Prop :=
  String.le (edgeCreatedAt b) (edgeCreatedAt a).

(** The rows of [entries] that belong to [recipient]'s feed. *)
Definition feedRowOf (recipient : string) (it : Item) : bool :=
  bool_decide (store.stringAt it "recipientUserId" = Some recipient)
  && bool_decide (is_Some (store.stringAt it "edgeCreatedAt")).

End feed.

(** ** RecipientEdge records as the spec describes them *)
Module edge.

Import dynamodb.

Definition methods : list string := ["FACE_MATCH"; "SHARED_EVENT"; "MANUAL"].

Definition provenances : list string := ["REALTIME"; "RETROACTIVE"].

(** The spec's value sets for the attributes of an edge record. *)
Definition wellFormed (it : Item) : bool :=
  match it !! "method" with
  | Some (S m) => bool_decide (m ∈ methods)
  | _ => false
  end
  && match it !! "confidence" with
     | Some (N c) => bool_decide (0 ≤ c ≤ 100)
     | _ => false
     end
  && match it !! "provenance" with
     | Some (S p) => bool_decide (p ∈ provenances)
     | _ => false
     end
  && bool_decide (is_Some (it !! "createdAt")).

(** A record written with the attribute names and values that the comment
    above the table lists ([sourceType], [SHARED_CAMERA]) and a confidence
    outside the range. *)
Definition sample : Item :=
  {[ "edgeId" := S "c1#u2#FACE_MATCH";
     "contentId" := S "c1";
     "recipientUserId" := S "u2";
     "contentOwnerId" := S "u1";
     "method" := S "SHARED_CAMERA";
     "confidence" := N 250;
     "sourceType" := S "REALTIME";
     "createdAt" := S "2024-05-01T10:00:00Z" ]}.

End edge.

(** ** Friendship rows *)
Module friendship.

Import dynamodb.

Definition row (friendshipId user1Id user2Id userPair status : string)
  : Item :=
  {[ "friendshipId" := S friendshipId;
     "user1Id" := S user1Id;
     "user2Id" := S user2Id;
     "userPair" := S userPair;
     "status" := S status ]}.


End friendship.

(** ** A queue polled by a function, with redrive to a dead-letter queue *)
Module redrive.

Section Queue.
Context {M : Type}.

(** [ok m n]: the function succeeds on message [m] at its [n]-th receive. *)
Variable ok : M → nat → bool.

(** Messages waiting in the queue with the number of times each has been
    received, messages the function finished, and messages moved to the
    dead-letter queue. *)
Record State : Type := mkState {
  pending : list (M * nat);
  processed : list M;
  dead : list M
}.

Definition init (msgs : list M) : State :=
  mkState (map (fun m => (m, 0%nat)) msgs) [] [].

Definition exhausted (maxReceiveCount : nat) (e : M * nat) : bool :=
  Nat.leb maxReceiveCount (snd e).

Definition receive (e : M * nat) : M * nat := (fst e, Datatypes.S (snd e)).

Definition succeeds (e : M * nat) : bool := ok (fst e) (snd e).

(** One poll.  Up to [batch] messages leave the head of the queue.  Those
    already received [maxReceiveCount] times go to the dead-letter queue;
    the others are handed to the function as one batch.  The function
    either finishes the whole batch or fails it, and a failed batch
    returns to the queue. *)
Definition poll (batch maxReceiveCount : nat) (s : State) : State :=
  let taken := take batch (pending s) in
  let rest := drop batch (pending s) in
  let gone := List.filter (exhausted maxReceiveCount) taken in
  let live :=
    map receive
        (List.filter (fun e => negb (exhausted maxReceiveCount e)) taken) in
  if forallb succeeds live then
    mkState rest (processed s ++ map fst live) (dead s ++ map fst gone)
  else
    mkState (rest ++ live) (processed s) (dead s ++ map fst gone).

Fixpoint polls (n batch maxReceiveCount : nat) (s : State) : State :=
  match n with
  | O => s
  | Datatypes.S n' => polls n' batch maxReceiveCount (poll batch maxReceiveCount s)
  end.

(** Where a message that has been received [c] times ends when it is
    always polled alone: [true] for finished, [false] for dead-lettered.
    [left] bounds the receives that remain. *)
Fixpoint finishes (left : nat) (m : M) (c : nat) : bool :=
  match left with
  | O => false
  | Datatypes.S l => ok m (Datatypes.S c) || finishes l m (Datatypes.S c)
  end.

(** Whether a waiting message will be finished when it is always polled
    alone, given the receives its count leaves it. *)
Definition willFinish (maxReceiveCount : nat) (e : M * nat) : bool :=
  finishes (maxReceiveCount - snd e) (fst e) (snd e).

(** The messages that are or will be finished, and those that are or will
    be dead-lettered. *)
Definition finishedEventually (maxReceiveCount : nat) (s : State) : list M :=
  processed s
  ++ map fst (List.filter (willFinish maxReceiveCount) (pending s)).

Definition deadEventually (maxReceiveCount : nat) (s : State) : list M :=
  dead s
  ++ map fst (List.filter (fun e => negb (willFinish maxReceiveCount e))
                          (pending s)).

(** The polls a waiting message can still take part in. *)
Definition debt (maxReceiveCount : nat) (l : list (M * nat)) : nat :=
  sum_list_with (fun e => Datatypes.S (maxReceiveCount - snd e)) l.

End Queue.

Arguments State : clear implicits.

(** The photo-processing queue of a stack polled by its event source until
    [n] polls have been made. *)
Definition run {M : Type} (ok : M → nat → bool) (q : sqs.Queue)
    (src : lambdaEventSources.SqsEventSourceProps) (n : nat)
    (msgs : list M) : option (State M) :=
  match sqs.deadLetterQueue q with
  | Some d =>
      Some (polls ok n (lambdaEventSources.sqsBatchSize src)
                  (sqs.maxReceiveCount d) (init msgs))
  | None => None
  end.

(** The properties of the event source that polls [q]. *)
Definition sourceOf (ms : list lambdaEventSources.EventSourceMapping)
    (q : sqs.Queue) : option lambdaEventSources.SqsEventSourceProps :=
  head (flat_map
          (fun m => match lambdaEventSources.source m with
                    | lambdaEventSources.SqsEventSource q' p =>
                        if bool_decide (sqs.queueId q' = sqs.queueId q)
                        then [p] else []
                    | lambdaEventSources.DynamoEventSource _ _ => []
                    end) ms).

(** The photo-processing queue of a stage, polled [n] times by its event
    source. *)
Definition photoProcessing {M : Type} (st : PhomoStage.t)
    (ok : M → nat → bool) (n : nat) (msgs : list M) : option (State M) :=
  let q := FaceProcessingStack.photoProcessingQueue
             (PhomoStage.faceProcessingStack st) in
  match sourceOf (PhomoStage.eventSourceMappings st) q with
  | Some src => run ok q src n msgs
  | None => None
  end.

End redrive.

(** ** A function reading a table's change stream *)
Module streaming.

Import lambdaEventSources.

Section Shard.
Context {R : Type}.

(** [ok r]: the function can process record [r].  A batch fails when it
    holds a record the function cannot process. *)
Variable ok : R → bool.
Variable props : DynamoEventSourceProps.

Record Outcome : Type := mkOutcome {
  delivered : list R;
  deadLettered : list R;
  discarded : list R
}.

Definition nothing : Outcome := mkOutcome [] [] [].

Definition both (a b : Outcome) : Outcome :=
  mkOutcome (delivered a ++ delivered b)
            (deadLettered a ++ deadLettered b)
            (discarded a ++ discarded b).

(** Records the event source gives up on go to the [onFailure] destination
    when there is one and are dropped otherwise. *)
Definition giveUp (batch : list R) : Outcome :=
  match onFailure props with
  | Some _ => mkOutcome [] batch []
  | None => mkOutcome [] [] batch
  end.

(** One batch.  On an error a batch of several records is cut in two when
    [bisectBatchOnError] is set, which does not use up a retry; otherwise
    it is retried while retries remain and given up after that. *)
Fixpoint attempt (fuel retries : nat) (batch : list R) : Outcome :=
  match fuel with
  | O => nothing
  | Datatypes.S fuel' =>
      if forallb ok batch then mkOutcome batch [] []
      else if bisectBatchOnError props && Nat.ltb 1 (length batch) then
        let half := Nat.div (length batch) 2 in
        both (attempt fuel' retries (take half batch))
             (attempt fuel' retries (drop half batch))
      else
        match retries with
        | O => giveUp batch
        | Datatypes.S r => attempt fuel' r batch
        end
  end.

Definition processBatch (batch : list R) : Outcome :=
  attempt (length batch + retryAttempts props + 1) (retryAttempts props) batch.

(** The records of a shard, read in order in batches of [batchSize]. *)
Fixpoint consume (fuel : nat) (records : list R) : Outcome :=
  match fuel, records with
  | O, _ | _, [] => nothing
  | Datatypes.S fuel', _ :: _ =>
      both (processBatch (take (Nat.max 1 (batchSize props)) records))
           (consume fuel' (drop (Nat.max 1 (batchSize props)) records))
  end.

Definition processShard (records : list R) : Outcome :=
  consume (length records) records.

End Shard.

Arguments Outcome : clear implicits.

(** The stream event sources of a stage that read table [tb]. *)
Definition sourcesOf (ms : list EventSourceMapping) (tb : dynamodb.Table)
  : list DynamoEventSourceProps :=
  flat_map (fun m => match source m with
                     | DynamoEventSource tb' p =>
                         if bool_decide (dynamodb.constructId tb'
                                         = dynamodb.constructId tb)
                         then [p] else []
                     | SqsEventSource _ _ => []
                     end) ms.

End streaming.

(** ** Accepting a friendship *)
Module acceptance.

Inductive Status : Set := PENDING | ACCEPTED.

#[global] Instance Status_eq_dec : EqDecision Status.
Proof. solve_decision. Defined.

(** What can happen in a stage: a friend request is sent, a request is
    accepted, or one of the occurrences the wiring reacts to takes place. *)
Inductive Action : Set :=
| SendFriendRequest (fr : string)
| AcceptFriendship (fr : string)
| Occurs (o : wiring.Occurrence).

(** A function invocation: the function's construct id and, for an
    invocation made by another function, the friendship it is made for. *)
Record Invocation : Set := mkInvocation {
  callee : string;
  payload : option string
}.

Record State : Type := mkState {
  friendships : gmap string Status;
  invocations : list Invocation;
  transitions : list string
}.

Definition start : State := mkState ∅ [] [].

(** A function can invoke another one only with an invoke grant. *)
Definition mayInvoke (st : PhomoStage.t) (caller callee : lambda.Function)
  : bool :=
  existsb (fun p => grants.isFunction p caller)
          (grants.invokers (PhomoStage.permissions st) callee).

(** Modelled from the spec: the accept-friendship handler is not part of
    the stacks (only its entry path is).  Following the spec, it moves a
    PENDING friendship to ACCEPTED and then asks for one retroactive match
    of that friendship; ACCEPTED is terminal, so accepting again changes
    nothing and asks for nothing. *)
Definition acceptFriendship (st : PhomoStage.t) (fr : string) (s : State)
  : State :=
  let accept := ApiStack.acceptFriendshipFunction (PhomoStage.apiStack st) in
  let retro := FaceProcessingStack.retroactiveMatchFunction
                 (PhomoStage.faceProcessingStack st) in
  match friendships s !! fr with
  | Some PENDING =>
      mkState (<[fr := ACCEPTED]> (friendships s))
              (invocations s
               ++ (if mayInvoke st accept retro
                   then [mkInvocation (lambda.functionId retro) (Some fr)]
                   else []))
              (transitions s ++ [fr])
  | _ => s
  end.

(** Modelled from the spec: a request creates the friendship as PENDING
    unless the two users already have one. *)
Definition sendFriendRequest (fr : string) (s : State) : State :=
  match friendships s !! fr with
  | None => mkState (<[fr := PENDING]> (friendships s))
                    (invocations s) (transitions s)
  | Some _ => s
  end.

Definition step (st : PhomoStage.t) (s : State) (a : Action) : State :=
  match a with
  | SendFriendRequest fr => sendFriendRequest fr s
  | AcceptFriendship fr => acceptFriendship st fr s
  | Occurs o =>
      mkState (friendships s)
              (invocations s
               ++ map (fun f => mkInvocation (lambda.functionId f) None)
                      (wiring.invoked st o))
              (transitions s)
  end.

Definition run (st : PhomoStage.t) (actions : list Action) : State :=
  fold_left (step st) actions start.

(** The friendships for which the invocations [l] start a retroactive
    match, in order. *)
Definition runsOf (st : PhomoStage.t) (l : list Invocation) : list string :=
  omap (fun i =>
          if bool_decide
               (callee i
                = lambda.functionId
                    (FaceProcessingStack.retroactiveMatchFunction
                       (PhomoStage.faceProcessingStack st)))
          then Some (default EmptyString (payload i)) else None) l.

Definition retroactiveRuns (st : PhomoStage.t) (s : State) : list string :=
  runsOf st (invocations s).

(** What holds of every state a stage can reach: the retroactive matches
    started are the recorded transitions, no friendship is recorded twice,
    and the recorded friendships are the ACCEPTED ones. *)
Definition consistent (st : PhomoStage.t) (s : State) : Prop :=
  retroactiveRuns st s = transitions s
  ∧ NoDup (transitions s)
  ∧ ∀ fr, friendships s !! fr = Some ACCEPTED ↔ fr ∈ transitions s.

End acceptance.

(** ** Protection

    A table is protected exactly in prod when its three safeguards follow
    the stage name. *)
Definition tableProtectedIffProd (stageName : string) (tb : dynamodb.Table)
  : Prop :=
  (dynamodb.pointInTimeRecovery tb = true ↔ stageName = "prod")
  ∧ (dynamodb.deletionProtection tb = true ↔ stageName = "prod")
  ∧ (dynamodb.removalPolicy tb = cdk.RETAIN ↔ stageName = "prod")
  ∧ (dynamodb.removalPolicy tb = cdk.DESTROY ↔ stageName ≠ "prod").

(** The resources of a stage that hold data. *)
Module protection.

Inductive Resource : Set :=
| UserPool (p : cognito.UserPool)
| IdentityPool (p : cognito.CfnIdentityPool)
| Bucket (b : s3.Bucket)
| Table (tb : dynamodb.Table)
| FaceCollection (c : RekognitionStack.CfnCollection)
| DeadLetterQueue (q : sqs.DlqProps)
| Queue (q : sqs.Queue).

(** What happens to a resource when its stack is deleted.  The tables, the
    bucket and the user pool are always given a policy; the others can be
    left without one. *)
Definition removalPolicy (r : Resource) : cdk.RemovalPolicy :=
  match r with
  | UserPool p => cognito.removalPolicy p
  | IdentityPool p => cdk.orDestroy (cognito.poolRemovalPolicy p)
  | Bucket b => s3.removalPolicy b
  | Table tb => dynamodb.removalPolicy tb
  | FaceCollection c =>
      cdk.orDestroy (RekognitionStack.collectionRemovalPolicy c)
  | DeadLetterQueue q => cdk.orDestroy (sqs.dlqRemovalPolicy q)
  | Queue q => cdk.orDestroy (sqs.removalPolicy q)
  end.

Definition retained (r : Resource) : bool :=
  bool_decide (removalPolicy r = cdk.RETAIN).

(** The data-holding resources of a stage, in the order the stage builds
    its stacks. *)
Definition persistent (st : PhomoStage.t) : list Resource :=
  [ UserPool (AuthStack.userPool (PhomoStage.authStack st));
    IdentityPool (AuthStack.identityPool (PhomoStage.authStack st));
    Bucket (StorageStack.photoBucket (PhomoStage.storageStack st)) ]
  ++ map Table (DatabaseStack.tables (PhomoStage.databaseStack st))
  ++ [ FaceCollection
         (RekognitionStack.faceCollection (PhomoStage.rekognitionStack st));
       DeadLetterQueue
         (FaceProcessingStack.photoProcessingDLQ
            (PhomoStage.faceProcessingStack st));
       Queue
         (FaceProcessingStack.photoProcessingQueue
            (PhomoStage.faceProcessingStack st)) ].

End protection.

(** ** Further parts of the stacks *)

(** *** Stack outputs: the [CfnOutput]s with their export names *)
Module outputs.

Record CfnOutput : Set := mkOutput {
  stack : string;
  outputId : string;
  exportName : string
}.

(** database-stack.ts *)
Definition database (stageName : string) : list CfnOutput :=
  [ mkOutput "Database" "UserTableName" ("UserTableName-" +:+ stageName);
    mkOutput "Database" "FriendshipTableName"
      ("FriendshipTableName-" +:+ stageName);
    mkOutput "Database" "ContentTableName"
      ("ContentTableName-" +:+ stageName);
    mkOutput "Database" "RecipientEdgeTableName"
      ("RecipientEdgeTableName-" +:+ stageName);
    mkOutput "Database" "FeedEntryTableName"
      ("FeedEntryTableName-" +:+ stageName);
    mkOutput "Database" "FaceIdentityTableName"
      ("FaceIdentityTableName-" +:+ stageName);
    mkOutput "Database" "ContentFaceTableName"
      ("ContentFaceTableName-" +:+ stageName);
    mkOutput "Database" "EventTableName"
      ("Phomo-EventTableName-" +:+ stageName);
    mkOutput "Database" "EventMemberTableName"
      ("Phomo-EventMemberTableName-" +:+ stageName);
    mkOutput "Database" "RecipientEdgeTableStreamArn"
      ("Phomo-RecipientEdgeStreamArn-" +:+ stageName) ].

(** storage-stack.ts *)
Definition storage (stageName : string) : list CfnOutput :=
  [ mkOutput "Storage" "PhotoBucketName"
      ("Phomo-PhotoBucketName-" +:+ stageName);
    mkOutput "Storage" "PhotoBucketArn"
      ("Phomo-PhotoBucketArn-" +:+ stageName);
    mkOutput "Storage" "PhotoBucketDomain"
      ("Phomo-PhotoBucketDomain-" +:+ stageName);
    mkOutput "Storage" "AuthenticatedRoleArn"
      ("Phomo-AuthenticatedRoleArn-" +:+ stageName) ].

(** auth-stack.ts *)
Definition auth (stageName : string) : list CfnOutput :=
  [ mkOutput "Auth" "UserPoolId" ("Phomo-UserPoolId-" +:+ stageName);
    mkOutput "Auth" "UserPoolClientId"
      ("Phomo-UserPoolClientId-" +:+ stageName);
    mkOutput "Auth" "IdentityPoolId"
      ("Phomo-IdentityPoolId-" +:+ stageName);
    mkOutput "Auth" "UserPoolDomain"
      ("Phomo-UserPoolDomain-" +:+ stageName) ].

(** rekognition-stack.ts *)
Definition rekognition (stageName : string) : list CfnOutput :=
  [ mkOutput "Rekognition" "FaceCollectionId"
      ("Phomo-FaceCollectionId-" +:+ stageName);
    mkOutput "Rekognition" "FaceCollectionArn"
      ("Phomo-FaceCollectionArn-" +:+ stageName) ].

(** face-processing-stack.ts *)
Definition faceProcessing (stageName : string) : list CfnOutput :=
  [ mkOutput "FaceProcessing" "PhotoProcessingQueueUrl"
      ("Phomo-PhotoProcessingQueueUrl-" +:+ stageName);
    mkOutput "FaceProcessing" "ProcessContentFacesFunctionArn"
      ("Phomo-ProcessContentFacesFunctionArn-" +:+ stageName);
    mkOutput "FaceProcessing" "EnrollFaceFunctionArn"
      ("Phomo-EnrollFaceFunctionArn-" +:+ stageName);
    mkOutput "FaceProcessing" "RetroactiveMatchFunctionArn"
      ("Phomo-RetroactiveMatchFunctionArn-" +:+ stageName) ].

(** stream-processing-stack.ts *)
Definition streamProcessing (stageName : string) : list CfnOutput :=
  [ mkOutput "StreamProcessing" "FeedEntrySyncFunctionArn"
      ("Phomo-FeedEntrySyncFunctionArn-" +:+ stageName) ].

(** scheduled-jobs-stack.ts *)
Definition scheduledJobs (stageName : string) : list CfnOutput :=
  [ mkOutput "ScheduledJobs" "SendEventRemindersFunctionArn"
      ("Phomo-SendEventRemindersFunctionArn-" +:+ stageName) ].

(** api-stack.ts *)
Definition api (stageName : string) : list CfnOutput :=
  [ mkOutput "Api" "GraphQLApiUrl" ("Phomo-GraphQLApiUrl-" +:+ stageName);
    mkOutput "Api" "GraphQLApiId" ("Phomo-GraphQLApiId-" +:+ stageName);
    mkOutput "Api" "GraphQLApiKey" ("Phomo-GraphQLApiKey-" +:+ stageName) ].

(** The outputs of a stage, stack by stack in the order the stage creates
    its stacks. *)
Definition ofStage (stageName : string) : list CfnOutput :=
  auth stageName ++ storage stageName ++ database stageName
  ++ rekognition stageName ++ faceProcessing stageName
  ++ streamProcessing stageName ++ scheduledJobs stageName ++ api stageName.

End outputs.

(** *** Names that must be unique in an account and region *)
Module names.

(** [diverge p q]: the two strings differ at a position both have, so
    neither can be extended into the other. *)
Fixpoint diverge (p q : string) : bool :=
  match p, q with
  | String a p', String b q' =>
      if bool_decide (a = b) then diverge p' q' else true
  | _, _ => false
  end.

(** Every two different entries of a family of named things diverge. *)
Definition separated (family : list (string * string)) : bool :=
  forallb (fun x =>
             forallb (fun y => bool_decide (x = y)
                               || diverge (snd x) (snd y)) family)
          family.

(** Construct id and physical name of the tables of a stage. *)
Definition tables (stageName : string) : list (string * string) :=
  map (fun tb => (dynamodb.constructId tb, dynamodb.tableName tb))
      (DatabaseStack.tables (DatabaseStack.new stageName)).

(** Construct id and physical name of the functions of a stage. *)
Definition functions (stageName : string) : list (string * string) :=
  map (fun f => (lambda.functionId f, lambda.functionName f))
      (PhomoStage.functions (PhomoStage.new stageName)).

(** Output id (with its stack) and export name of the outputs of a
    stage. *)
Definition exports (stageName : string) : list (string * string) :=
  map (fun o => (outputs.stack o +:+ "/" +:+ outputs.outputId o,
                 outputs.exportName o))
      (outputs.ofStage stageName).

(** Rule id and rule name of the rules of a stage. *)
Definition rules (stageName : string) : list (string * string) :=
  map (fun r => (events.ruleId r, events.ruleName r))
      (PhomoStage.rules (PhomoStage.new stageName)).

(** Every name of a stage that must be unique in its account and region,
    with the kind of resource that bears it. *)
Definition ofStage (stageName : string) : list (string * string) :=
  let st := PhomoStage.new stageName in
  let fp := PhomoStage.faceProcessingStack st in
  map (fun n => ("table", snd n)) (tables stageName)
  ++ map (fun n => ("function", snd n)) (functions stageName)
  ++ [ ("queue", sqs.queueName (FaceProcessingStack.photoProcessingQueue fp));
       ("queue", sqs.dlqName (FaceProcessingStack.photoProcessingDLQ fp));
       ("bucket", s3.bucketName
                    (StorageStack.photoBucket (PhomoStage.storageStack st)));
       ("collection", RekognitionStack.collectionId
                        (PhomoStage.rekognitionStack st)) ]
  ++ map (fun n => ("rule", snd n)) (rules stageName)
  ++ map (fun n => ("export", snd n)) (exports stageName).

(** The names of [l1] that [l2] has too. *)
Definition overlap (l1 l2 : list (string * string))
  : list (string * string) :=
  List.filter (fun x => existsb (fun y => bool_decide (x = y)) l2) l1.

End names.

(** *** lib/pipeline-stack.ts: one deployment per configured stage *)
Module PipelineStack.

Record Deployment : Set := mkDeployment {
  id : string;
  account : option string;
  region : string;
  stage : PhomoStage.t
}.

(** [a || b] on optional strings: an absent or empty [a] gives [b]. *)
Definition orElse (a b : option string) : option string :=
  match a with
  | Some s => if bool_decide (s = EmptyString) then b else Some s
  | None => b
  end.

(** The body of [stages.forEach]. *)
Definition deploy (defaultAccount : option string)
    (stageConfig : config.StageConfig) : Deployment :=
  mkDeployment ("Phomo-" +:+ config.stageName stageConfig)
    (orElse (config.account stageConfig) defaultAccount)
    (config.region stageConfig)
    (PhomoStage.new (config.stageName stageConfig)).

(** The stages added to the pipeline, in order. *)
Definition addedStages (defaultAccount : option string)
    (stages : list config.StageConfig) : list Deployment :=
  map (deploy defaultAccount) stages.

Definition new (defaultAccount : option string) : list Deployment :=
  addedStages defaultAccount config.stages.

End PipelineStack.

(** *** auth-stack.ts: the user pool client's OAuth URLs *)
Module UserPoolClient.

Record t : Set := mk {
  userPoolClientName : string;
  callbackUrls : list string;
  logoutUrls : list string
}.

Definition new (stageName : string) : t :=
  mk ("Phomo-Client-" +:+ stageName)
     [ "phomo-" +:+ stageName +:+ "://oauth/callback";
       if bool_decide (stageName = "prod")
       then "https://phomo.camera/oauth/callback"
       else "https://" +:+ stageName +:+ ".phomo.camera/oauth/callback" ]
     [ "phomo-" +:+ stageName +:+ "://oauth/logout";
       if bool_decide (stageName = "prod")
       then "https://phomo.camera/oauth/logout"
       else "https://" +:+ stageName +:+ ".phomo.camera/oauth/logout" ].

End UserPoolClient.

(** *** storage-stack.ts: the bucket's CORS rule *)
Module cors.

Inductive HttpMethods : Set := GET | HEAD | PUT | POST | DELETE.

Record CorsRule : Set := mkRule {
  allowedMethods : list HttpMethods;
  allowedOrigins : list string;
  allowedHeaders : list string;
  exposedHeaders : list string;
  maxAge : Z
}.

Definition photoBucket (stageName : string) : list CorsRule :=
  [ mkRule [GET; HEAD; PUT; POST; DELETE]
      [ "https://phomo.camera";
        "https://" +:+ stageName +:+ ".phomo.camera";
        "http://localhost:3000";
        "http://localhost:19006" ]
      ["*"]
      [ "x-amz-server-side-encryption"; "x-amz-request-id"; "x-amz-id-2";
        "ETag" ]
      3000 ].

(** A cross-origin request from [origin] is answered when some rule lists
    the origin. *)
Definition allowsOrigin (rules : list CorsRule) (origin : string) : bool :=
  existsb (fun r => bool_decide (origin ∈ allowedOrigins r)) rules.

End cors.

(** *** Who may do what *)
Module access.

Import grants.

(** The principals that may write table [tb]. *)
Definition writers (gs : list Grant) (tb : dynamodb.Table)
  : list Principal :=
  map grantee
      (List.filter (fun g => writes (access g) && isTable (resource g) tb) gs).

(** The principals that may read table [tb]. *)
Definition readers (gs : list Grant) (tb : dynamodb.Table)
  : list Principal :=
  map grantee
      (List.filter (fun g => reads (access g) && isTable (resource g) tb) gs).

(** The construct ids of the tables function [f] may read. *)
Definition readable (gs : list Grant) (f : lambda.Function) : list string :=
  flat_map (fun g => if isFunction (grantee g) f && reads (access g)
                     then match resource g with
                          | OnTable u => [dynamodb.constructId u]
                          | _ => []
                          end
                     else []) gs.

(** The construct ids of the tables function [f] may write. *)
Definition writable (gs : list Grant) (f : lambda.Function) : list string :=
  flat_map (fun g => if isFunction (grantee g) f && writes (access g)
                     then match resource g with
                          | OnTable u => [dynamodb.constructId u]
                          | _ => []
                          end
                     else []) gs.

(** The principals that may read the change stream of table [tb]. *)
Definition streamReaders (gs : list Grant) (tb : dynamodb.Table)
  : list Principal :=
  map grantee (List.filter (fun g => readsStream g tb) gs).

(** The construct ids of the tables whose change stream function [f] may
    read. *)
Definition streamReadable (gs : list Grant) (f : lambda.Function)
  : list string :=
  flat_map (fun g => if isFunction (grantee g) f
                     then match access g, resource g with
                          | StreamRead, OnStream u => [dynamodb.constructId u]
                          | _, _ => []
                          end
                     else []) gs.

(** Whether function [f] was given [grantRead] on a bucket. *)
Definition readsBucket (gs : list Grant) (f : lambda.Function) : bool :=
  existsb (fun g => isFunction (grantee g) f
                    && match access g, resource g with
                       | Read, OnBucket _ => true
                       | _, _ => false
                       end) gs.

(** The name of the resource a grant is about, when it has one. *)
Definition resourceName (r : Resource) : option string :=
  match r with
  | OnTable tb => Some (dynamodb.tableName tb)
  | OnBucket b => Some (s3.bucketName b)
  | OnStream _ | OnFunction _ | OnQueue _ | OnRole => None
  end.

(** A function learns the names of its resources from its environment.
    [informed g]: the function a grant is made to finds the granted table
    or bucket among the values of its environment. *)
Definition informed (g : Grant) : Prop :=
  match grantee g, resourceName (resource g) with
  | FunctionRole f, Some n => In n (map snd (lambda.environment f))
  | _, _ => True
  end.

End access.

(** *** Policy patterns without wildcards or variables *)
Module patterns.

(** A string that, used as a pattern, stands for itself. *)
Fixpoint literal (s : string) : bool :=
  match s with
  | EmptyString => true
  | String c s' =>
      negb (bool_decide (c = "$"%char))
      && negb (bool_decide (c = "*"%char))
      && negb (bool_decide (c = "?"%char))
      && literal s'
  end.

(** The request context of a caller with identity [identityId] listing the
    bucket under [prefix]. *)
Definition listContext (identityId prefix : string) : gmap string string :=
  <["s3:prefix" := prefix]> (StorageStack.callerContext identityId).

End patterns.

(** * Properties of the stage *)

(** ** Protection of persistent resources *)

Lemma isProd_true (stageName : string) :
  DatabaseStack.isProd stageName = true ↔ stageName = "prod".
Proof. unfold DatabaseStack.isProd. apply bool_decide_eq_true. Qed.

Lemma policy_retain (stageName : string) :
  DatabaseStack.policy stageName = cdk.RETAIN ↔ stageName = "prod".
Proof.
  unfold DatabaseStack.policy, DatabaseStack.isProd.
  case_bool_decide; split; intros; done.
Qed.

Lemma policy_destroy (stageName : string) :
  DatabaseStack.policy stageName = cdk.DESTROY ↔ stageName ≠ "prod".
Proof.
  unfold DatabaseStack.policy, DatabaseStack.isProd.
  case_bool_decide; split; intros; done.
Qed.

Lemma newTable_protected (stageName id nm pk : string) s :
  tableProtectedIffProd stageName (DatabaseStack.newTable stageName id nm pk s).
Proof.
  repeat split; simpl;
    first [ apply isProd_true | apply policy_retain | apply policy_destroy ].
Qed.

Lemma addGlobalSecondaryIndex_protected stageName tb i :
  tableProtectedIffProd stageName tb →
  tableProtectedIffProd stageName (dynamodb.addGlobalSecondaryIndex tb i).
Proof. intros H. exact H. Qed.

(** C10, as the spec states it, fails: in prod the face collection holds
    the face vectors of the stage and is given no removal policy, so it is
    not retained; neither are the identity pool and the two queues. *)
Lemma face_collection_is_not_retained_in_prod :
  let st := PhomoStage.new "prod" in
  let collection :=
    RekognitionStack.faceCollection (PhomoStage.rekognitionStack st) in
  In (protection.FaceCollection collection) (protection.persistent st)
  ∧ RekognitionStack.collectionRemovalPolicy collection = None
  ∧ protection.retained (protection.FaceCollection collection) = false.
Proof. repeat split. simpl. tauto. Qed.

(** C10, amended. For every stage name, each of the nine tables has
    point-in-time recovery, deletion protection and the RETAIN removal
    policy exactly when the stage name is "prod" (and DESTROY exactly when
    it is not); the photo bucket and the user pool are RETAIN exactly in prod
    and DESTROY otherwise, the user pool's deletion protection follows prod,
    and the bucket deletes its objects automatically exactly outside prod.
    These are the only resources that are protected: the identity pool, the
    face collection and the two queues are given no removal policy in any
    stage, so the retained resources of a stage are the user pool, the bucket
    and the nine tables in prod and none otherwise. *)
Theorem resources_protected_exactly_in_prod (stageName : string) :
  let st := PhomoStage.new stageName in
  let bucket := StorageStack.photoBucket (PhomoStage.storageStack st) in
  let pool := AuthStack.userPool (PhomoStage.authStack st) in
  let fp := PhomoStage.faceProcessingStack st in
  length (DatabaseStack.tables (PhomoStage.databaseStack st)) = 9%nat
  ∧ Forall (tableProtectedIffProd stageName)
           (DatabaseStack.tables (PhomoStage.databaseStack st))
  ∧ (s3.removalPolicy bucket = cdk.RETAIN ↔ stageName = "prod")
  ∧ (s3.removalPolicy bucket = cdk.DESTROY ↔ stageName ≠ "prod")
  ∧ (s3.autoDeleteObjects bucket = true ↔ stageName ≠ "prod")
  ∧ (cognito.removalPolicy pool = cdk.RETAIN ↔ stageName = "prod")
  ∧ (cognito.removalPolicy pool = cdk.DESTROY ↔ stageName ≠ "prod")
  ∧ (cognito.deletionProtection pool = true ↔ stageName = "prod")
  ∧ cognito.poolRemovalPolicy
      (AuthStack.identityPool (PhomoStage.authStack st)) = None
  ∧ RekognitionStack.collectionRemovalPolicy
      (RekognitionStack.faceCollection (PhomoStage.rekognitionStack st))
    = None
  ∧ sqs.dlqRemovalPolicy (FaceProcessingStack.photoProcessingDLQ fp) = None
  ∧ sqs.removalPolicy (FaceProcessingStack.photoProcessingQueue fp) = None
  ∧ List.filter protection.retained (protection.persistent st)
    = if bool_decide (stageName = "prod")
      then ([protection.UserPool pool; protection.Bucket bucket]
            ++ map protection.Table
                   (DatabaseStack.tables (PhomoStage.databaseStack st)))%list
      else [].
Proof.
  intros st bucket pool fp. split; [reflexivity|]. split.
  { unfold DatabaseStack.tables. simpl.
    repeat (apply Forall_cons; split;
            [ repeat apply addGlobalSecondaryIndex_protected;
              apply newTable_protected | ]).
    constructor. }
  assert (Hiff : (s3.removalPolicy bucket = cdk.RETAIN ↔ stageName = "prod")
    ∧ (s3.removalPolicy bucket = cdk.DESTROY ↔ stageName ≠ "prod")
    ∧ (s3.autoDeleteObjects bucket = true ↔ stageName ≠ "prod")
    ∧ (cognito.removalPolicy pool = cdk.RETAIN ↔ stageName = "prod")
    ∧ (cognito.removalPolicy pool = cdk.DESTROY ↔ stageName ≠ "prod")
    ∧ (cognito.deletionProtection pool = true ↔ stageName = "prod")).
  { subst bucket pool st. simpl.
    repeat split; intros H; try (case_bool_decide; done);
      try (apply bool_decide_eq_true; done);
      try (apply bool_decide_eq_true in H; done). }
  destruct Hiff as (H1 & H2 & H3 & H4 & H5 & H6).
  do 6 (split; [assumption|]).
  do 4 (split; [reflexivity|]).
  subst bucket pool st.
  destruct (decide (stageName = "prod")) as [->|Hne]; [reflexivity|].
  unfold protection.persistent, protection.retained.
  simpl. unfold DatabaseStack.policy, DatabaseStack.isProd.
  rewrite !(bool_decide_eq_false_2 (stageName = "prod")) by done.
  reflexivity.
Qed.

(** ** Feed materialization wiring *)

(** C1. For every stage name: the RecipientEdge table has a stream with the
    NEW_IMAGE view; a record of that stream starts the feed-entry-sync
    function and nothing else; that function may read the Content table and
    write the FeedEntry table; and no other table of the stage has a stream
    consumer. *)
Theorem feed_materialization_wiring (stageName : string) :
  let st := PhomoStage.new stageName in
  let db := PhomoStage.databaseStack st in
  let sync := StreamProcessingStack.feedEntrySyncFunction
                (PhomoStage.streamProcessingStack st) in
  dynamodb.stream (DatabaseStack.recipientEdgeTable db)
    = Some dynamodb.NEW_IMAGE
  ∧ wiring.invoked st (wiring.StreamRecord (DatabaseStack.recipientEdgeTable db))
    = [sync]
  ∧ lambda.functionName sync = "phomo-feed-entry-sync-" +:+ stageName
  ∧ grants.canRead (PhomoStage.permissions st) sync
      (DatabaseStack.contentTable db) = true
  ∧ grants.canWrite (PhomoStage.permissions st) sync
      (DatabaseStack.feedEntryTable db) = true
  ∧ Forall (fun tb =>
              wiring.invoked st (wiring.StreamRecord tb) ≠ [] →
              tb = DatabaseStack.recipientEdgeTable db)
           (DatabaseStack.tables db).
Proof.
  intros st db sync. repeat split.
  unfold DatabaseStack.tables.
  repeat (apply Forall_cons; split; [ intros H; try done | ]).
  constructor.
Qed.

(** ** The RecipientEdge schema *)

Lemma forallb_agree {A} (f g : A → bool) (l : list A) :
  (∀ x, x ∈ l → f x = g x) → forallb f l = forallb g l.
Proof.
  induction l as [|x l IH]; intros H; simpl; [done|].
  rewrite (H x) by left. rewrite IH; [done|].
  intros y Hy. apply H. by right.
Qed.

Lemma registerAttribute_names (l acc : list dynamodb.Attribute) n :
  n ∈ map dynamodb.name acc ∨ n ∈ map dynamodb.name l →
  n ∈ map dynamodb.name (fold_left dynamodb.registerAttribute l acc).
Proof.
  revert acc. induction l as [|x l IH]; intros acc [H|H]; simpl in *.
  - done.
  - by apply elem_of_nil in H.
  - apply IH. left. unfold dynamodb.registerAttribute.
    case_bool_decide; [done|].
    rewrite map_app. apply elem_of_app. by left.
  - apply elem_of_cons in H as [->|H]; [|apply IH; by right].
    apply IH. left. unfold dynamodb.registerAttribute.
    case_bool_decide as Hx; [done|].
    rewrite map_app. apply elem_of_app. right. simpl. by left.
Qed.

Lemma undeclared_not_key (tb : dynamodb.Table) a k :
  a ∉ dynamodb.attributeNames tb →
  k ∈ dynamodb.partitionKey tb
      :: concat (map dynamodb.indexKeys (dynamodb.globalSecondaryIndexes tb)) →
  a ≠ dynamodb.name k.
Proof.
  intros H Hk ->. apply H.
  unfold dynamodb.attributeNames, dynamodb.attributeDefinitions.
  apply registerAttribute_names. right.
  by apply (list_elem_of_fmap_2 dynamodb.name).
Qed.

Lemma keyOkIfPresent_insert_ne n (it : Item) a v (k : dynamodb.Attribute) :
  a ≠ dynamodb.name k →
  keyOkIfPresent n (<[a := v]> it) k = keyOkIfPresent n it k.
Proof. intros H. unfold keyOkIfPresent. by rewrite lookup_insert_ne. Qed.

Lemma keyOkIfPresent_delete_ne n (it : Item) a (k : dynamodb.Attribute) :
  a ≠ dynamodb.name k →
  keyOkIfPresent n (delete a it) k = keyOkIfPresent n it k.
Proof. intros H. unfold keyOkIfPresent. by rewrite lookup_delete_ne. Qed.

Lemma indexKeys_declared (tb : dynamodb.Table) i k :
  i ∈ dynamodb.globalSecondaryIndexes tb →
  k ∈ dynamodb.indexKeys i →
  k ∈ dynamodb.partitionKey tb
      :: concat (map dynamodb.indexKeys (dynamodb.globalSecondaryIndexes tb)).
Proof.
  intros Hi Hk. right. apply list_elem_of_In, in_concat.
  exists (dynamodb.indexKeys i). split.
  - by apply in_map, list_elem_of_In.
  - by apply list_elem_of_In.
Qed.

(** The two index checks look at the index's own keys only. *)
Lemma indexAdmits_agree (tb : dynamodb.Table) (it it' : Item) i :
  i ∈ dynamodb.globalSecondaryIndexes tb →
  (∀ n k, k ∈ dynamodb.partitionKey tb
            :: concat (map dynamodb.indexKeys
                           (dynamodb.globalSecondaryIndexes tb)) →
          keyOkIfPresent n it' k = keyOkIfPresent n it k) →
  indexAdmits it' i = indexAdmits it i.
Proof.
  intros Hi H. unfold indexAdmits.
  rewrite (H _ (dynamodb.indexPartitionKey i))
    by (apply (indexKeys_declared tb i); [done | by left]).
  destruct (dynamodb.indexSortKey i) as [sk|] eqn:Hsk; [|done].
  rewrite (H _ sk); [done|].
  apply (indexKeys_declared tb i); [done|].
  unfold dynamodb.indexKeys. rewrite Hsk. right. by left.
Qed.

(** What the table's definition asks of an item depends on the declared
    attributes only. *)
Lemma keysAdmitted_insert_undeclared (tb : dynamodb.Table) (it : Item) a v :
  a ∉ dynamodb.attributeNames tb →
  keysAdmitted tb (<[a := v]> it) = keysAdmitted tb it.
Proof.
  intros H. unfold keysAdmitted.
  pose proof (fun k => undeclared_not_key tb a k H) as Hin.
  rewrite lookup_insert_ne by (apply Hin; left).
  f_equal. apply forallb_agree. intros i Hi.
  apply (indexAdmits_agree tb); [done|]. intros n k Hk.
  by apply keyOkIfPresent_insert_ne, Hin.
Qed.

Lemma keysAdmitted_delete_undeclared (tb : dynamodb.Table) (it : Item) a :
  a ∉ dynamodb.attributeNames tb →
  keysAdmitted tb (delete a it) = keysAdmitted tb it.
Proof.
  intros H. unfold keysAdmitted.
  pose proof (fun k => undeclared_not_key tb a k H) as Hin.
  rewrite lookup_delete_ne by (apply Hin; left).
  f_equal. apply forallb_agree. intros i Hi.
  apply (indexAdmits_agree tb); [done|]. intros n k Hk.
  by apply keyOkIfPresent_delete_ne, Hin.
Qed.

(** *** The size of an item *)

Lemma itemSize_insert (it : Item) a v :
  it !! a = None →
  limits.itemSize (<[a := v]> it)
  = limits.itemSize it + limits.entrySize a v.
Proof.
  intros H. unfold limits.itemSize.
  rewrite map_fold_insert_L; [done| |done]. intros. lia.
Qed.


Lemma digitsOf_nonneg fuel n : 0 ≤ limits.digitsOf fuel n.
Proof.
  revert n. induction fuel as [|fuel IH]; intros n; simpl; [done|].
  destruct (n =? 0); [done|]. specialize (IH (n / 10)). lia.
Qed.

Lemma entrySize_nonneg a v : 0 ≤ limits.entrySize a v.
Proof.
  unfold limits.entrySize, limits.size.
  assert (0 ≤ limits.valueSize v); [|lia].
  destruct v as [s|n|b|b|]; unfold limits.valueSize, limits.size; try lia.
  pose proof (digitsOf_nonneg 38 (limits.significand n)) as H.
  assert (0 ≤ (limits.digitsOf 38 (limits.significand n) + 1) / 2)
    by (apply Z.div_pos; lia).
  lia.
Qed.

(** Removing an attribute keeps an item within the limits. *)
Lemma withinLimits_delete (it : Item) a :
  limits.withinLimits it = true → limits.withinLimits (delete a it) = true.
Proof.
  unfold limits.withinLimits. rewrite !andb_true_iff, !bool_decide_eq_true.
  rewrite !Z.leb_le. intros [Hall Hsize]. split.
  - by apply map_Forall_delete.
  - destruct (it !! a) as [v|] eqn:Hv.
    + rewrite <- (insert_delete_id it a v Hv) in Hsize.
      rewrite itemSize_insert in Hsize by apply lookup_delete_eq.
      pose proof (entrySize_nonneg a v). lia.
    + by rewrite delete_id.
Qed.

Lemma recipientEdge_attributeNames (stageName : string) :
  dynamodb.attributeNames
    (DatabaseStack.recipientEdgeTable (DatabaseStack.new stageName))
  = ["edgeId"; "recipientUserId"; "createdAt"; "contentId"; "contentOwnerId"].
Proof. reflexivity. Qed.

(** C2, as the spec states it, fails: the dev stage's RecipientEdge table
    accepts a record whose method is SHARED_CAMERA, whose confidence is 250
    and which has no provenance attribute. *)
Lemma recipient_edge_schema_admits_other_values :
  admits (DatabaseStack.recipientEdgeTable (DatabaseStack.new "dev"))
         edge.sample = true
  ∧ edge.wellFormed edge.sample = false.
Proof. split; vm_compute; reflexivity. Qed.

(** C2, amended. For every stage name the RecipientEdge table declares
    exactly the key attributes edgeId, recipientUserId, createdAt, contentId
    and contentOwnerId, all of them strings.  Beyond the limits the service
    puts on every item, whether a record is accepted does not depend on any
    other attribute: for a record within those limits, setting an undeclared
    attribute (method, confidence, provenance, sourceType, ...) to a value
    that keeps it within them, or removing the attribute, leaves acceptance
    unchanged.  The declared partition key does count: without edgeId no
    record is accepted. *)
Theorem recipient_edge_schema_declares_keys_only
    (stageName : string) (it : Item) (a : string)
    (v : dynamodb.AttributeValue) :
  (a ∉ ["edgeId"; "recipientUserId"; "createdAt"; "contentId";
        "contentOwnerId"]) →
  limits.withinLimits it = true →
  limits.withinLimits (<[a := v]> it) = true →
  (let tb := DatabaseStack.recipientEdgeTable
               (PhomoStage.databaseStack (PhomoStage.new stageName)) in
   dynamodb.attributeDefinitions tb
   = map DatabaseStack.str
         ["edgeId"; "recipientUserId"; "createdAt"; "contentId";
          "contentOwnerId"]
   ∧ admits tb (<[a := v]> it) = admits tb it
   ∧ admits tb (delete a it) = admits tb it
   ∧ admits tb (delete "edgeId" it) = false).
Proof.
  intros H Hit Hset tb. split; [reflexivity|].
  assert (Ha : a ∉ dynamodb.attributeNames tb).
  { subst tb. simpl PhomoStage.databaseStack.
    by rewrite recipientEdge_attributeNames. }
  unfold admits. split; [|split].
  - by rewrite Hset, Hit, keysAdmitted_insert_undeclared.
  - by rewrite (withinLimits_delete it a Hit), Hit,
         keysAdmitted_delete_undeclared.
  - unfold keysAdmitted.
    change (dynamodb.name (dynamodb.partitionKey tb)) with "edgeId".
    rewrite lookup_delete_eq. apply andb_false_r.
Qed.

Lemma recipient_edge_schema_declares_keys_only_witness :
  ("method" ∉ ["edgeId"; "recipientUserId"; "createdAt"; "contentId";
               "contentOwnerId"])
  ∧ limits.withinLimits edge.sample = true
  ∧ limits.withinLimits (<["method" := dynamodb.S "FACE_MATCH"]> edge.sample)
    = true
  ∧ (let tb := DatabaseStack.recipientEdgeTable
                 (PhomoStage.databaseStack (PhomoStage.new "dev")) in
     dynamodb.attributeDefinitions tb
     = map DatabaseStack.str
           ["edgeId"; "recipientUserId"; "createdAt"; "contentId";
            "contentOwnerId"]
     ∧ admits tb (<["method" := dynamodb.S "FACE_MATCH"]> edge.sample)
       = admits tb edge.sample
     ∧ admits tb (delete "method" edge.sample) = admits tb edge.sample
     ∧ admits tb (delete "edgeId" edge.sample) = false).
Proof.
  assert (H : "method" ∉ ["edgeId"; "recipientUserId"; "createdAt";
                          "contentId"; "contentOwnerId"])
    by (apply (bool_decide_unpack _); vm_compute; exact I).
  assert (H1 : limits.withinLimits edge.sample = true)
    by (vm_compute; reflexivity).
  assert (H2 : limits.withinLimits
                 (<["method" := dynamodb.S "FACE_MATCH"]> edge.sample) = true)
    by (vm_compute; reflexivity).
  split; [exact H|]. split; [exact H1|]. split; [exact H2|].
  exact (recipient_edge_schema_declares_keys_only
           "dev" edge.sample "method" (dynamodb.S "FACE_MATCH") H H1 H2).
Defined.

(** ** Photo uploads and face processing *)

(** What any bus event can start in a stage: nothing, or the
    process-content-faces function when the photo-upload rule matches. *)
Lemma invoked_bus_event (stageName : string) (e : events.Event) :
  let st := PhomoStage.new stageName in
  let fp := PhomoStage.faceProcessingStack st in
  wiring.invoked st (wiring.BusEvent e)
  = if events.matches
         (events.mkPattern (Some ["aws.s3"]) (Some ["Object Created"])
            [ (["bucket"; "name"],
                [events.Exact ("phomov2-photos-" +:+ stageName)]);
              (["object"; "key"], [events.Prefix "photos/"]) ]) e
    then [FaceProcessingStack.processContentFacesFunction fp] else [].
Proof.
  intros st fp. unfold wiring.invoked. simpl.
  unfold wiring.ruleInvokes. simpl.
  by destruct (events.matches _ e).
Qed.

(** A schedule starts the reminder function and nothing else. *)
Lemma invoked_schedule (stageName id : string) :
  let st := PhomoStage.new stageName in
  wiring.invoked st (wiring.ScheduleFired id)
  = if bool_decide ("EventReminderRule" = id)
    then [ScheduledJobsStack.sendEventRemindersFunction
            (PhomoStage.scheduledJobsStack st)]
    else [].
Proof.
  intros st. unfold wiring.invoked, wiring.scheduleInvokes. simpl.
  by repeat case_bool_decide.
Qed.

(** A stream record starts the feed-entry-sync function and nothing else. *)
Lemma invoked_stream (stageName : string) (tb : dynamodb.Table) :
  let st := PhomoStage.new stageName in
  wiring.invoked st (wiring.StreamRecord tb) = []
  ∨ wiring.invoked st (wiring.StreamRecord tb)
    = [StreamProcessingStack.feedEntrySyncFunction
         (PhomoStage.streamProcessingStack st)].
Proof.
  intros st. unfold wiring.invoked, wiring.streamConsumers.
  destruct (dynamodb.stream tb); [|by left].
  simpl. destruct (bool_decide _); [by right | by left].
Qed.

(** A queue message starts the process-content-faces function and nothing
    else. *)
Lemma invoked_queue (stageName : string) (q : sqs.Queue) :
  let st := PhomoStage.new stageName in
  wiring.invoked st (wiring.QueueMessage q)
  = if bool_decide ("PhotoProcessingQueue" = sqs.queueId q)
    then [FaceProcessingStack.processContentFacesFunction
            (PhomoStage.faceProcessingStack st)]
    else [].
Proof.
  intros st. unfold wiring.invoked. simpl.
  by destruct (bool_decide _).
Qed.

Lemma matches_photo_upload (bucketName : string) (e : events.Event) :
  events.matches
    (events.mkPattern (Some ["aws.s3"]) (Some ["Object Created"])
       [ (["bucket"; "name"], [events.Exact bucketName]);
         (["object"; "key"], [events.Prefix "photos/"]) ]) e = true
  ↔ events.evSource e = "aws.s3"
    ∧ events.evDetailType e = "Object Created"
    ∧ events.field (events.evDetail e) ["bucket"; "name"] = Some bucketName
    ∧ ∃ k, events.field (events.evDetail e) ["object"; "key"] = Some k
           ∧ String.prefix "photos/" k = true.
Proof.
  unfold events.matches, events.fieldMatches, events.oneOf. simpl.
  rewrite !orb_false_r, !andb_true_r, !andb_true_iff, !bool_decide_eq_true.
  destruct (events.field (events.evDetail e) ["bucket"; "name"]) as [b|];
    destruct (events.field (events.evDetail e) ["object"; "key"]) as [k|];
    simpl; rewrite ?orb_false_r, ?bool_decide_eq_true; split.
  all: intros H; destruct_and?;
    repeat match goal with H : ∃ _, _ |- _ => destruct H as [? H] end;
    destruct_and?; simplify_eq; eauto 10.
Qed.

(** C4. For every stage name and object key: the photo bucket emits
    creation events; creating an object starts the process-content-faces
    function exactly when the key begins with photos/; a bus event that
    starts that function is an Object Created event of the photo bucket
    with such a key; no stream record and no schedule starts it; the
    photo-upload rule's only target is the photo-processing queue, and that
    queue is the function's event source with batch size 1. *)
Theorem photo_uploads_trigger_face_processing (stageName key : string) :
  let st := PhomoStage.new stageName in
  let fp := PhomoStage.faceProcessingStack st in
  let bucket := StorageStack.photoBucket (PhomoStage.storageStack st) in
  let process := FaceProcessingStack.processContentFacesFunction fp in
  let queue := FaceProcessingStack.photoProcessingQueue fp in
  s3.eventBridgeEnabled bucket = true
  ∧ wiring.onObjectCreated st bucket key
    = (if String.prefix "photos/" key then [process] else [])
  ∧ (∀ e, wiring.invoked st (wiring.BusEvent e) ≠ [] →
          wiring.invoked st (wiring.BusEvent e) = [process]
          ∧ events.evSource e = "aws.s3"
          ∧ events.evDetailType e = "Object Created"
          ∧ events.field (events.evDetail e) ["bucket"; "name"]
            = Some (s3.bucketName bucket)
          ∧ ∃ k, events.field (events.evDetail e) ["object"; "key"] = Some k
                 ∧ String.prefix "photos/" k = true)
  ∧ (∀ tb f, f ∈ wiring.invoked st (wiring.StreamRecord tb) →
             lambda.same f process = false)
  ∧ (∀ id f, f ∈ wiring.invoked st (wiring.ScheduleFired id) →
             lambda.same f process = false)
  ∧ map events.targets (FaceProcessingStack.rules fp)
    = [[events.SqsQueue queue]]
  ∧ FaceProcessingStack.eventSourceMappings fp
    = [ lambdaEventSources.mkMapping process
          (lambdaEventSources.SqsEventSource queue
             (lambdaEventSources.mkSqsProps 1 (cdk.seconds 0))) ]
  ∧ wiring.invoked st (wiring.QueueMessage queue) = [process].
Proof.
  intros st fp bucket process queue.
  split; [reflexivity|]. split.
  { unfold wiring.onObjectCreated, wiring.objectCreated.
    change (s3.eventBridgeEnabled bucket) with true. cbv iota.
    subst st. rewrite invoked_bus_event.
    destruct (String.prefix "photos/" key) eqn:Hp.
    - rewrite (proj2 (matches_photo_upload _ _)); [done|].
      repeat split; eauto.
    - destruct (events.matches _ _) eqn:Hm; [|done].
      apply matches_photo_upload in Hm as (_ & _ & _ & k & Hk & Hpre).
      simpl in Hk. injection Hk as <-. congruence. }
  split.
  { intros e. subst st. rewrite invoked_bus_event.
    destruct (events.matches _ e) eqn:Hm; [|done]. intros _.
    split; [done|]. by apply matches_photo_upload in Hm. }
  split.
  { intros tb f. subst st.
    destruct (invoked_stream stageName tb) as [-> | ->].
    - by intros ?%elem_of_nil.
    - intros ->%list_elem_of_singleton. reflexivity. }
  split.
  { intros id f. subst st. rewrite invoked_schedule.
    destruct (bool_decide _); [|by intros ?%elem_of_nil].
    intros ->%list_elem_of_singleton. reflexivity. }
  repeat split.
Qed.

(** ** What the authenticated role may read *)

Lemma append_cons (c : ascii) (s t : string) :
  String c s +:+ t = String c (s +:+ t).
Proof. reflexivity. Qed.

Lemma append_assoc (s t u : string) : (s +:+ t) +:+ u = s +:+ (t +:+ u).
Proof.
  induction s as [|c s IH]; [reflexivity|].
  rewrite !append_cons. by rewrite IH.
Qed.

Lemma plain_app (s t : string) :
  iam.plain s = true → iam.plain t = true → iam.plain (s +:+ t) = true.
Proof.
  intros Hs Ht. induction s as [|c s IH]; [exact Ht|].
  rewrite append_cons. simpl in *.
  apply andb_true_iff in Hs as [Hc Hs]. rewrite Hc. simpl. by apply IH.
Qed.

Lemma scan_cons_plain (c : ascii) (rest : string) :
  c ≠ "$"%char →
  iam.scan None (String c rest) = iam.tokenOf c :: iam.scan None rest.
Proof.
  intros Hc. destruct rest as [|c' rest']; simpl; [done|].
  by rewrite (bool_decide_eq_false_2 _ Hc).
Qed.

(** Scanning a pattern that begins with plain text yields the tokens of
    that text followed by the tokens of the rest. *)
Lemma scan_plain_app (s t : string) :
  iam.plain s = true →
  iam.tokens (s +:+ t)
  = (map iam.tokenOf (list_ascii_of_string s) ++ iam.tokens t)%list.
Proof.
  unfold iam.tokens. induction s as [|c s IH]; intros Hs; [reflexivity|].
  simpl in Hs. apply andb_true_iff in Hs as [Hc Hs].
  apply negb_true_iff, bool_decide_eq_false in Hc.
  rewrite append_cons, scan_cons_plain by done.
  simpl. by rewrite IH.
Qed.

Section Matching.
Variable ctx : gmap string string.

Lemma tmatch_star (p : list iam.Token) (s : string) :
  iam.tmatch ctx (iam.Star :: p) s
  = iam.tmatch ctx p s
    || match s with
       | String _ s' => iam.tmatch ctx (iam.Star :: p) s'
       | EmptyString => false
       end.
Proof. by destruct s. Qed.

(** A wildcard may match nothing. *)
Lemma tmatch_star_skip p s :
  iam.tmatch ctx p s = true → iam.tmatch ctx (iam.Star :: p) s = true.
Proof. intros H. rewrite tmatch_star, H. reflexivity. Qed.

(** A wildcard may take one more character. *)
Lemma tmatch_star_more p c s :
  iam.tmatch ctx (iam.Star :: p) s = true →
  iam.tmatch ctx (iam.Star :: p) (String c s) = true.
Proof. intros H. rewrite tmatch_star, H. apply orb_true_r. Qed.

Lemma tmatch_tokenOf p c s :
  iam.tmatch ctx p s = true →
  iam.tmatch ctx (iam.tokenOf c :: p) (String c s) = true.
Proof.
  intros H. unfold iam.tokenOf. repeat case_bool_decide.
  - by apply tmatch_star_more, tmatch_star_skip.
  - exact H.
  - simpl. by rewrite bool_decide_eq_true_2.
Qed.

(** Text used as a pattern matches itself, whatever follows. *)
Lemma tmatch_text_prefix (pre : string) p s :
  iam.tmatch ctx p s = true →
  iam.tmatch ctx (map iam.tokenOf (list_ascii_of_string pre) ++ p)%list
             (pre +:+ s) = true.
Proof.
  intros H. induction pre as [|c pre IH]; [exact H|].
  rewrite append_cons. simpl map. simpl app. by apply tmatch_tokenOf.
Qed.

Lemma tmatch_star_any (s : string) : iam.tmatch ctx [iam.Star] s = true.
Proof.
  induction s as [|c s IH]; [reflexivity|].
  by apply tmatch_star_more.
Qed.

(** The pattern of a two-level folder matches every owner and every
    object name. *)
Lemma tmatch_any_folder (owner object : string) :
  iam.tmatch ctx [iam.Star; iam.Lit "/"; iam.Star]
             (owner +:+ "/" +:+ object) = true.
Proof.
  induction owner as [|c owner IH].
  - apply tmatch_star_skip. simpl. apply tmatch_star_any.
  - rewrite append_cons. by apply tmatch_star_more.
Qed.

Lemma like_any_folder (pre owner object : string) :
  iam.plain pre = true →
  iam.like ctx (pre +:+ "*/*") (pre +:+ owner +:+ "/" +:+ object) = true.
Proof.
  intros Hpre. unfold iam.like. rewrite scan_plain_app by done.
  apply tmatch_text_prefix. apply tmatch_any_folder.
Qed.

End Matching.

(** A statement without conditions that lists s3:GetObject and the
    two-level pattern of a folder matches every object of that folder. *)
Lemma statement_matches_folder (ctx : gmap string string)
    (st : iam.PolicyStatement) (arn folder owner object : string) :
  In "s3:GetObject" (iam.actions st) →
  In (arn +:+ "/" +:+ folder +:+ "/*/*") (iam.resources st) →
  iam.conditions st = [] →
  iam.plain arn = true →
  iam.plain folder = true →
  iam.statementMatches ctx st "s3:GetObject"
    (arn +:+ "/" +:+ folder +:+ "/" +:+ owner +:+ "/" +:+ object) = true.
Proof.
  intros Hact Hres Hcond Harn Hfolder. unfold iam.statementMatches.
  rewrite Hcond. simpl forallb. rewrite andb_true_r.
  apply andb_true_iff. split; apply existsb_exists.
  - exists "s3:GetObject". split; [done|]. reflexivity.
  - exists (arn +:+ "/" +:+ folder +:+ "/*/*"). split; [done|].
    change "/*/*" with ("/" +:+ "*/*").
    rewrite <- !(append_assoc _ _ "*/*").
    rewrite <- !(append_assoc _ _ (owner +:+ "/" +:+ object)).
    apply like_any_folder.
    repeat (apply plain_app; try done).
Qed.

Lemma bucketArn_plain (stageName : string) :
  iam.plain stageName = true →
  iam.plain (StorageStack.arn stageName) = true.
Proof.
  intros H. unfold StorageStack.arn, s3.bucketArn. simpl s3.bucketName.
  repeat (apply plain_app; try done).
Qed.

(** C9. For every stage name in which no policy variable can start, every
    authenticated caller, every owner folder and every object name: the role
    attached to the identity pool for authenticated identities allows
    s3:GetObject on the object photos/owner/object and on the object
    faces/owner/object of the photo bucket, whoever the caller is. *)
Theorem authenticated_role_reads_every_photo
    (stageName identityId owner object : string) :
  iam.plain stageName = true →
  (let storage := PhomoStage.storageStack (PhomoStage.new stageName) in
   let bucket := StorageStack.photoBucket storage in
   let role := StorageStack.authenticatedRole storage in
   let ctx := StorageStack.callerContext identityId in
   cognito.authenticated (StorageStack.roleAttachment storage) = Some role
   ∧ iam.allows ctx role "s3:GetObject"
       (s3.objectArn bucket ("photos/" +:+ owner +:+ "/" +:+ object)) = true
   ∧ iam.allows ctx role "s3:GetObject"
       (s3.objectArn bucket ("faces/" +:+ owner +:+ "/" +:+ object)) = true).
Proof.
  intros Hplain storage bucket role ctx.
  split; [reflexivity|].
  pose (readAll := iam.mkStatement iam.ALLOW ["s3:GetObject"]
                     [ StorageStack.arn stageName +:+ "/photos/*/*";
                       StorageStack.arn stageName +:+ "/faces/*/*" ] []).
  assert (Hin : In readAll (iam.statements role)) by (simpl; tauto).
  assert (Hfolder : ∀ folder,
            In (StorageStack.arn stageName +:+ "/" +:+ folder +:+ "/*/*")
               (iam.resources readAll) →
            iam.plain folder = true →
            iam.allows ctx role "s3:GetObject"
              (StorageStack.arn stageName +:+ "/" +:+ folder +:+ "/"
               +:+ owner +:+ "/" +:+ object) = true).
  { intros folder Hres Hf. unfold iam.allows.
    apply andb_true_iff. split; [|reflexivity].
    apply existsb_exists. exists readAll. split; [exact Hin|].
    apply andb_true_iff. split; [reflexivity|].
    apply statement_matches_folder;
      first [ done | by left | by apply bucketArn_plain ]. }
  split.
  - apply (Hfolder "photos"); [by left | reflexivity].
  - apply (Hfolder "faces"); [right; by left | reflexivity].
Qed.

Lemma authenticated_role_reads_every_photo_witness :
  iam.plain "dev" = true
  ∧ (let storage := PhomoStage.storageStack (PhomoStage.new "dev") in
     let bucket := StorageStack.photoBucket storage in
     let role := StorageStack.authenticatedRole storage in
     let ctx := StorageStack.callerContext "us-east-1:bob" in
     cognito.authenticated (StorageStack.roleAttachment storage) = Some role
     ∧ iam.allows ctx role "s3:GetObject"
         (s3.objectArn bucket
            ("photos/" +:+ "us-east-1:alice" +:+ "/" +:+ "p1.jpg")) = true
     ∧ iam.allows ctx role "s3:GetObject"
         (s3.objectArn bucket
            ("faces/" +:+ "us-east-1:alice" +:+ "/" +:+ "p1.jpg")) = true).
Proof.
  split; [reflexivity|].
  exact (authenticated_role_reads_every_photo
           "dev" "us-east-1:bob" "us-east-1:alice" "p1.jpg" eq_refl).
Defined.

(** ** The feed listing *)

#[local] Instance sortLe_total i : Total (store.sortLe i).
Proof. intros a b. unfold store.sortLe. apply total, _. Qed.

#[local] Instance sortLe_trans i : Transitive (store.sortLe i).
Proof. intros a b c. unfold store.sortLe. apply transitivity. Qed.

(** A query returns the rows of the partition, each one once. *)
Lemma query_Permutation i pk forward (items : list Item) :
  store.query i pk forward items ≡ₚ List.filter (store.inPartition i pk) items.
Proof.
  unfold store.query. destruct forward.
  - apply merge_sort_Permutation.
  - rewrite reverse_Permutation. apply merge_sort_Permutation.
Qed.

(** Read forward, the rows come in ascending key order. *)
Lemma query_forward_sorted i pk (items : list Item) :
  StronglySorted (store.sortLe i) (store.query i pk true items).
Proof. unfold store.query. apply StronglySorted_merge_sort; apply _. Qed.

(** Read backward, they come in descending key order. *)
Lemma query_backward_sorted i pk (items : list Item) :
  StronglySorted (flip (store.sortLe i)) (store.query i pk false items).
Proof.
  unfold store.query. apply Sorted_StronglySorted.
  - intros a b c Hab Hbc. unfold flip in *. by transitivity b.
  - apply Sorted_reverse, Sorted_merge_sort. apply _.
Qed.

(** C3. For every stage name, recipient and set of FeedEntry rows: the
    FeedEntry table has the index UserFeedIndex with partition key
    recipientUserId and sort key edgeCreatedAt, both strings; the feed
    listing read through it returns the recipient's rows, each one once,
    sorted by edge-creation time descending. *)
Theorem feed_listing_newest_first
    (stageName recipient : string) (entries : list Item) :
  let db := PhomoStage.databaseStack (PhomoStage.new stageName) in
  ∃ i rows,
    store.findIndex (DatabaseStack.feedEntryTable db) "UserFeedIndex" = Some i
    ∧ dynamodb.indexPartitionKey i = DatabaseStack.str "recipientUserId"
    ∧ dynamodb.indexSortKey i = Some (DatabaseStack.str "edgeCreatedAt")
    ∧ feed.getFeed db recipient entries = Some rows
    ∧ StronglySorted feed.newerFirst rows
    ∧ rows ≡ₚ List.filter (feed.feedRowOf recipient) entries.
Proof.
  intros db.
  set (i := dynamodb.mkGSI "UserFeedIndex"
              (DatabaseStack.str "recipientUserId")
              (Some (DatabaseStack.str "edgeCreatedAt"))).
  exists i, (store.query i recipient false entries).
  repeat split.
  - apply (query_backward_sorted i).
  - apply (query_Permutation i).
Qed.

(** ** Friendship rows *)








(** ** Redelivery of photo-processing messages *)

Section Redrive.
Context {M : Type}.
Variable ok : M → nat → bool.
Variable k : nat.

Local Abbreviation poll1 := (redrive.poll ok 1 k).
Local Abbreviation willFinish := (redrive.willFinish ok k).
Local Abbreviation finishedEventually := (redrive.finishedEventually ok k).
Local Abbreviation deadEventually := (redrive.deadEventually ok k).

Lemma poll_one_nil (s : redrive.State M) :
  redrive.pending s = [] →
  poll1 s = redrive.mkState [] (redrive.processed s) (redrive.dead s).
Proof.
  intros H. unfold redrive.poll. rewrite H. simpl. by rewrite !app_nil_r.
Qed.

Lemma poll_one_cons (s : redrive.State M) e rest :
  redrive.pending s = e :: rest →
  poll1 s
  = if redrive.exhausted k e then
      redrive.mkState rest (redrive.processed s) (redrive.dead s ++ [fst e])
    else if redrive.succeeds ok (redrive.receive e) then
      redrive.mkState rest (redrive.processed s ++ [fst e]) (redrive.dead s)
    else
      redrive.mkState (rest ++ [redrive.receive e]) (redrive.processed s)
                      (redrive.dead s).
Proof.
  intros H. unfold redrive.poll. rewrite H. simpl.
  destruct (redrive.exhausted k e); simpl.
  - by rewrite app_nil_r.
  - rewrite andb_true_r.
    destruct (redrive.succeeds ok (redrive.receive e)); by rewrite app_nil_r.
Qed.

Lemma willFinish_exhausted e :
  redrive.exhausted k e = true → willFinish e = false.
Proof.
  unfold redrive.exhausted, redrive.willFinish. intros H%Nat.leb_le.
  by replace (k - snd e)%nat with 0%nat by lia.
Qed.

Lemma willFinish_live e :
  redrive.exhausted k e = false →
  willFinish e
  = redrive.succeeds ok (redrive.receive e) || willFinish (redrive.receive e).
Proof.
  unfold redrive.exhausted, redrive.willFinish, redrive.succeeds,
    redrive.receive.
  intros H%Nat.leb_gt. simpl.
  by replace (k - snd e)%nat with (S (k - S (snd e))) by lia.
Qed.

Lemma poll_finishedEventually (s : redrive.State M) :
  finishedEventually (poll1 s) ≡ₚ finishedEventually s.
Proof.
  unfold redrive.finishedEventually.
  destruct (redrive.pending s) as [|e rest] eqn:Hp.
  - by rewrite poll_one_nil.
  - rewrite (poll_one_cons s e rest) by done. simpl.
    destruct (redrive.exhausted k e) eqn:He.
    + simpl. by rewrite (willFinish_exhausted e He).
    + rewrite (willFinish_live e He).
      destruct (redrive.succeeds ok (redrive.receive e)); simpl.
      * by rewrite <- app_assoc.
      * rewrite List.filter_app, map_app. simpl.
        destruct (willFinish (redrive.receive e)); simpl.
        -- apply Permutation_app_head. symmetry. apply Permutation_cons_append.
        -- by rewrite app_nil_r.
Qed.

Lemma poll_deadEventually (s : redrive.State M) :
  deadEventually (poll1 s) ≡ₚ deadEventually s.
Proof.
  unfold redrive.deadEventually.
  destruct (redrive.pending s) as [|e rest] eqn:Hp.
  - by rewrite poll_one_nil.
  - rewrite (poll_one_cons s e rest) by done. simpl.
    destruct (redrive.exhausted k e) eqn:He.
    + simpl. rewrite (willFinish_exhausted e He). simpl.
      by rewrite <- app_assoc.
    + rewrite (willFinish_live e He).
      destruct (redrive.succeeds ok (redrive.receive e)); simpl; [done|].
      rewrite List.filter_app, map_app. simpl.
      destruct (willFinish (redrive.receive e)); simpl.
      * by rewrite app_nil_r.
      * apply Permutation_app_head. symmetry. apply Permutation_cons_append.
Qed.

Lemma debt_nil_iff (l : list (M * nat)) :
  redrive.debt k l = 0%nat ↔ l = [].
Proof.
  unfold redrive.debt. destruct l; simpl; [done|]. split; [lia|done].
Qed.

Lemma debt_app (l1 l2 : list (M * nat)) :
  redrive.debt k (l1 ++ l2) = (redrive.debt k l1 + redrive.debt k l2)%nat.
Proof. unfold redrive.debt. by rewrite sum_list_with_app. Qed.

(** Every poll of a queue that is not empty pays off some debt. *)
Lemma poll_debt (s : redrive.State M) :
  redrive.pending s ≠ [] →
  (redrive.debt k (redrive.pending (poll1 s))
   < redrive.debt k (redrive.pending s))%nat.
Proof.
  destruct (redrive.pending s) as [|e rest] eqn:Hp; [done|]. intros _.
  rewrite (poll_one_cons s e rest) by done.
  destruct (redrive.exhausted k e) eqn:He; simpl.
  - unfold redrive.debt. simpl. lia.
  - destruct (redrive.succeeds ok (redrive.receive e)); simpl.
    + unfold redrive.debt. simpl. lia.
    + rewrite debt_app. unfold redrive.debt. simpl.
      apply Nat.leb_gt in He. lia.
Qed.

Lemma polls_drain (n : nat) (s : redrive.State M) :
  (redrive.debt k (redrive.pending s) ≤ n)%nat →
  redrive.pending (redrive.polls ok n 1 k s) = [].
Proof.
  revert s. induction n as [|n IH]; intros s H; simpl.
  - apply debt_nil_iff. lia.
  - apply IH. destruct (redrive.pending s) as [|e rest] eqn:Hp.
    + rewrite poll_one_nil by done. simpl. unfold redrive.debt. simpl. lia.
    + assert (Hne : redrive.pending s ≠ []) by (by rewrite Hp).
      pose proof (poll_debt s Hne) as Hlt. rewrite Hp in Hlt. lia.
Qed.

Lemma polls_finishedEventually (n : nat) (s : redrive.State M) :
  finishedEventually (redrive.polls ok n 1 k s) ≡ₚ finishedEventually s.
Proof.
  revert s. induction n as [|n IH]; intros s; simpl; [done|].
  rewrite IH. apply poll_finishedEventually.
Qed.

Lemma polls_deadEventually (n : nat) (s : redrive.State M) :
  deadEventually (redrive.polls ok n 1 k s) ≡ₚ deadEventually s.
Proof.
  revert s. induction n as [|n IH]; intros s; simpl; [done|].
  rewrite IH. apply poll_deadEventually.
Qed.

Lemma init_filter (f : M * nat → bool) (msgs : list M) :
  map fst (List.filter f (map (fun m => (m, 0%nat)) msgs))
  = List.filter (fun m => f (m, 0%nat)) msgs.
Proof.
  induction msgs as [|m msgs IH]; simpl; [done|].
  destruct (f (m, 0%nat)); simpl; by rewrite IH.
Qed.

Lemma init_debt (msgs : list M) :
  redrive.debt k (redrive.pending (redrive.init msgs))
  = (S k * length msgs)%nat.
Proof.
  unfold redrive.debt. induction msgs as [|m msgs IH]; simpl in *; [lia|].
  rewrite IH. lia.
Qed.

(** A queue polled one message at a time, for long enough: nothing is left
    waiting, the finished messages are those the function succeeds on
    within [k] receives, and the others are dead-lettered. *)
Lemma polls_outcome (n : nat) (msgs : list M) :
  (S k * length msgs ≤ n)%nat →
  let final := redrive.polls ok n 1 k (redrive.init msgs) in
  redrive.pending final = []
  ∧ redrive.processed final
    ≡ₚ List.filter (fun m => redrive.finishes ok k m 0) msgs
  ∧ redrive.dead final
    ≡ₚ List.filter (fun m => negb (redrive.finishes ok k m 0)) msgs.
Proof.
  intros Hn final.
  assert (Hp : redrive.pending final = []).
  { apply polls_drain. by rewrite init_debt. }
  split; [exact Hp|]. split.
  - pose proof (polls_finishedEventually n (redrive.init msgs)) as H.
    fold final in H. unfold redrive.finishedEventually in H. rewrite Hp in H.
    simpl in H. rewrite app_nil_r in H. rewrite H.
    rewrite init_filter. unfold redrive.willFinish. simpl.
    by rewrite Nat.sub_0_r.
  - pose proof (polls_deadEventually n (redrive.init msgs)) as H.
    fold final in H. unfold redrive.deadEventually in H. rewrite Hp in H.
    simpl in H. rewrite app_nil_r in H. rewrite H.
    rewrite init_filter. unfold redrive.willFinish. simpl.
    by rewrite Nat.sub_0_r.
Qed.

End Redrive.

(** C5. For every stage name, every function behaviour and every list of
    messages: the photo-processing queue redrives to its dead-letter queue
    after 3 receives and that queue keeps messages for 14 days; once the
    queue has been polled long enough nothing is left waiting, a message is
    finished exactly when the function succeeds on it at its first, second
    or third receive, and every other message is in the dead-letter queue.
    No message is lost, and what happens to one message does not depend on
    the others. *)
Theorem photo_processing_retries_then_dead_letters
    (stageName : string) {M : Type} (ok : M → nat → bool)
    (msgs : list M) (n : nat) :
  (4 * length msgs ≤ n)%nat →
  (let st := PhomoStage.new stageName in
   let fp := PhomoStage.faceProcessingStack st in
   let queue := FaceProcessingStack.photoProcessingQueue fp in
   let succeeds m := ok m 1%nat || (ok m 2%nat || ok m 3%nat) in
   ∃ d final,
     sqs.deadLetterQueue queue = Some d
     ∧ sqs.queue d = FaceProcessingStack.photoProcessingDLQ fp
     ∧ sqs.maxReceiveCount d = 3%nat
     ∧ cdk.toSeconds (sqs.dlqRetentionPeriod (sqs.queue d)) = 14 * 86400
     ∧ redrive.photoProcessing st ok n msgs = Some final
     ∧ redrive.pending final = []
     ∧ redrive.processed final ≡ₚ List.filter succeeds msgs
     ∧ redrive.dead final ≡ₚ List.filter (fun m => negb (succeeds m)) msgs
     ∧ redrive.processed final ++ redrive.dead final ≡ₚ msgs).
Proof.
  intros Hn st fp queue succeeds.
  destruct (polls_outcome ok 3 n msgs Hn) as (Hp & Hproc & Hdead).
  assert (Hs : ∀ m, redrive.finishes ok 3 m 0 = succeeds m).
  { intros m. unfold succeeds. simpl. by rewrite orb_false_r. }
  rewrite (List.filter_ext _ _ Hs) in Hproc.
  rewrite (List.filter_ext (fun m => negb (redrive.finishes ok 3 m 0))
             (fun m => negb (succeeds m))) in Hdead
    by (intros m; by rewrite Hs).
  eexists _, _. repeat split; [exact Hp | exact Hproc | exact Hdead | ].
  rewrite Hproc, Hdead. clear.
  induction msgs as [|m msgs IH]; simpl; [done|].
  destruct (succeeds m); simpl.
  - by rewrite IH.
  - rewrite <- Permutation_middle. by rewrite IH.
Qed.

Lemma photo_processing_retries_then_dead_letters_witness :
  (4 * length ["p1.jpg"; "broken.jpg"] ≤ 8)%nat
  ∧ (let st := PhomoStage.new "dev" in
     let fp := PhomoStage.faceProcessingStack st in
     let queue := FaceProcessingStack.photoProcessingQueue fp in
     let ok := fun (m : string) (_ : nat) =>
                 negb (bool_decide (m = "broken.jpg")) in
     let succeeds m := ok m 1%nat || (ok m 2%nat || ok m 3%nat) in
     ∃ d final,
       sqs.deadLetterQueue queue = Some d
       ∧ sqs.queue d = FaceProcessingStack.photoProcessingDLQ fp
       ∧ sqs.maxReceiveCount d = 3%nat
       ∧ cdk.toSeconds (sqs.dlqRetentionPeriod (sqs.queue d)) = 14 * 86400
       ∧ redrive.photoProcessing st ok 8 ["p1.jpg"; "broken.jpg"]
         = Some final
       ∧ redrive.pending final = []
       ∧ redrive.processed final
         ≡ₚ List.filter succeeds ["p1.jpg"; "broken.jpg"]
       ∧ redrive.dead final
         ≡ₚ List.filter (fun m => negb (succeeds m)) ["p1.jpg"; "broken.jpg"]
       ∧ redrive.processed final ++ redrive.dead final
         ≡ₚ ["p1.jpg"; "broken.jpg"]).
Proof.
  assert (H : (4 * length ["p1.jpg"; "broken.jpg"] ≤ 8)%nat)
    by (vm_compute; lia).
  split; [exact H|].
  exact (photo_processing_retries_then_dead_letters "dev"
           (fun (m : string) (_ : nat) => negb (bool_decide (m = "broken.jpg")))
           ["p1.jpg"; "broken.jpg"] 8 H).
Defined.

(** ** Failures of the feed-entry-sync function *)

Lemma forallb_filter {A} (f : A → bool) (l : list A) :
  forallb f l = true →
  List.filter f l = l ∧ List.filter (fun x => negb (f x)) l = [].
Proof.
  induction l as [|x l IH]; simpl; [done|].
  intros [Hx Hl]%andb_true_iff. rewrite Hx. simpl.
  destruct (IH Hl) as [-> ->]. done.
Qed.

Lemma filter_take_drop {A} (f : A → bool) (n : nat) (l : list A) :
  (List.filter f (take n l) ++ List.filter f (drop n l))%list
  = List.filter f l.
Proof. by rewrite <- List.filter_app, take_drop. Qed.

Section StreamFailures.
Context {R : Type}.
Variable ok : R → bool.
Variable props : lambdaEventSources.DynamoEventSourceProps.
Hypothesis bisects : lambdaEventSources.bisectBatchOnError props = true.
Hypothesis noDestination : lambdaEventSources.onFailure props = None.

Local Abbreviation failing := (fun r => negb (ok r)).

Lemma attempt_step (fuel retries : nat) (batch : list R) :
  streaming.attempt ok props (S fuel) retries batch
  = if forallb ok batch then streaming.mkOutcome batch [] []
    else if lambdaEventSources.bisectBatchOnError props
            && Nat.ltb 1 (length batch) then
      streaming.both
        (streaming.attempt ok props fuel retries
           (take (Nat.div (length batch) 2) batch))
        (streaming.attempt ok props fuel retries
           (drop (Nat.div (length batch) 2) batch))
    else match retries with
         | O => streaming.giveUp props batch
         | S r => streaming.attempt ok props fuel r batch
         end.
Proof. reflexivity. Qed.

(** With bisection and no failure destination, a batch given enough fuel
    delivers the records the function can process, in order, and drops the
    others. *)
Lemma attempt_isolates (fuel retries : nat) (batch : list R) :
  (length batch + retries < fuel)%nat →
  streaming.attempt ok props fuel retries batch
  = streaming.mkOutcome (List.filter ok batch) []
                        (List.filter failing batch).
Proof.
  revert retries batch.
  induction fuel as [|fuel IH]; intros retries batch Hlt; [lia|].
  rewrite attempt_step. destruct (forallb ok batch) eqn:Hall.
  { by destruct (forallb_filter ok batch Hall) as [-> ->]. }
  rewrite bisects. rewrite andb_true_l.
  destruct (Nat.ltb 1 (length batch)) eqn:Hlen.
  - apply Nat.ltb_lt in Hlen.
    pose proof (Nat.div_mod_eq (length batch) 2) as Hdiv.
    pose proof (Nat.mod_upper_bound (length batch) 2) as Hmod.
    rewrite !IH.
    + unfold streaming.both. simpl streaming.delivered.
      simpl streaming.deadLettered. simpl streaming.discarded.
      by rewrite !filter_take_drop.
    + rewrite length_drop. lia.
    + rewrite length_take. lia.
  - apply Nat.ltb_ge in Hlen.
    destruct batch as [|r [|r' batch]]; simpl in *; [done| |lia].
    rewrite andb_true_r in Hall.
    destruct retries as [|retries].
    + unfold streaming.giveUp. by rewrite noDestination, Hall.
    + rewrite IH by (simpl; lia). simpl. by rewrite Hall.
Qed.

Lemma processBatch_isolates (batch : list R) :
  streaming.processBatch ok props batch
  = streaming.mkOutcome (List.filter ok batch) []
                        (List.filter failing batch).
Proof. unfold streaming.processBatch. apply attempt_isolates. lia. Qed.

Lemma consume_isolates (fuel : nat) (records : list R) :
  (length records ≤ fuel)%nat →
  streaming.consume ok props fuel records
  = streaming.mkOutcome (List.filter ok records) []
                        (List.filter failing records).
Proof.
  revert records. induction fuel as [|fuel IH]; intros records Hlen.
  - destruct records; [done|]. simpl in Hlen. lia.
  - destruct records as [|r records]; [done|].
    change (streaming.consume ok props (S fuel) (r :: records))
      with (streaming.both
              (streaming.processBatch ok props
                 (take (Nat.max 1 (lambdaEventSources.batchSize props))
                       (r :: records)))
              (streaming.consume ok props fuel
                 (drop (Nat.max 1 (lambdaEventSources.batchSize props))
                       (r :: records)))).
    rewrite processBatch_isolates, IH.
    + unfold streaming.both. simpl streaming.delivered.
      simpl streaming.deadLettered. simpl streaming.discarded.
      by rewrite !filter_take_drop.
    + rewrite length_drop. simpl in *. lia.
Qed.

End StreamFailures.

(** C6, what the code does. For every stage name the RecipientEdge stream
    has one event source, with batches of 10, bisection on error, 3 retries
    and no failure destination.  Whatever the records of a shard and
    whatever the function does, the records it can process are delivered,
    in order, the records it fails on are dropped once the retries are used
    up, and no record reaches a dead-letter channel.  In a shard holding
    e1, poison and e3, where the function fails on poison, e1 and e3 are
    delivered and poison is dropped. *)
Theorem feed_sync_gives_up_without_dead_letter
    (stageName : string) {R : Type} (ok : R → bool) (records : list R) :
  let st := PhomoStage.new stageName in
  let table := DatabaseStack.recipientEdgeTable (PhomoStage.databaseStack st) in
  ∃ props,
    streaming.sourcesOf (PhomoStage.eventSourceMappings st) table = [props]
    ∧ lambdaEventSources.batchSize props = 10%nat
    ∧ lambdaEventSources.bisectBatchOnError props = true
    ∧ lambdaEventSources.retryAttempts props = 3%nat
    ∧ lambdaEventSources.onFailure props = None
    ∧ streaming.processShard ok props records
      = streaming.mkOutcome (List.filter ok records) []
                            (List.filter (fun r => negb (ok r)) records)
    ∧ streaming.processShard
        (fun r : string => negb (bool_decide (r = "poison"))) props
        ["e1"; "poison"; "e3"]
      = streaming.mkOutcome ["e1"; "e3"] [] ["poison"].
Proof.
  intros st table. exists StreamProcessingStack.streamProps.
  repeat split.
  unfold streaming.processShard. by apply consume_isolates.
Qed.

(** ** Retroactive matching *)

Lemma invoked_never_retroactive (stageName : string) o f :
  f ∈ wiring.invoked (PhomoStage.new stageName) o →
  lambda.functionId f ≠ "RetroactiveMatchFunction".
Proof.
  destruct o as [e|id|tb|q].
  - rewrite invoked_bus_event. destruct (events.matches _ e).
    + by intros ->%list_elem_of_singleton.
    + by intros ?%elem_of_nil.
  - rewrite invoked_schedule. destruct (bool_decide _).
    + by intros ->%list_elem_of_singleton.
    + by intros ?%elem_of_nil.
  - destruct (invoked_stream stageName tb) as [-> | ->].
    + by intros ?%elem_of_nil.
    + by intros ->%list_elem_of_singleton.
  - rewrite invoked_queue. destruct (bool_decide _).
    + by intros ->%list_elem_of_singleton.
    + by intros ?%elem_of_nil.
Qed.

Section Acceptance.
Variable stageName : string.

Local Abbreviation st := (PhomoStage.new stageName).

Local Abbreviation consistent := (acceptance.consistent st).

Lemma start_consistent : consistent acceptance.start.
Proof.
  split; [done|]. split; [constructor|].
  intros fr. simpl. rewrite lookup_empty. split; [done|].
  by intros ?%elem_of_nil.
Qed.

Lemma runsOf_app (l1 l2 : list acceptance.Invocation) :
  acceptance.runsOf st (l1 ++ l2)
  = (acceptance.runsOf st l1 ++ acceptance.runsOf st l2)%list.
Proof. apply omap_app. Qed.

Lemma runsOf_invoked o :
  acceptance.runsOf st
    (map (fun f => acceptance.mkInvocation (lambda.functionId f) None)
         (wiring.invoked st o)) = [].
Proof.
  pose proof (invoked_never_retroactive stageName o) as H.
  induction (wiring.invoked st o) as [|f l IH]; [done|].
  unfold acceptance.runsOf in *. simpl. rewrite bool_decide_eq_false_2.
  - apply IH. intros g Hg. apply H. by right.
  - apply H. by left.
Qed.

Lemma step_consistent (s : acceptance.State) a :
  consistent s → consistent (acceptance.step st s a).
Proof.
  intros (Hruns & Hnodup & Hacc). destruct a as [fr|fr|o].
  - simpl. unfold acceptance.sendFriendRequest.
    destruct (acceptance.friendships s !! fr) eqn:Hfr;
      [exact (conj Hruns (conj Hnodup Hacc))|].
    split; [done|]. split; [done|]. intros fr'. simpl.
    destruct (decide (fr = fr')) as [<-|Hne].
    + rewrite lookup_insert_eq. rewrite <- Hacc, Hfr. split; [done|done].
    + by rewrite lookup_insert_ne.
  - simpl. unfold acceptance.acceptFriendship.
    destruct (acceptance.friendships s !! fr) as [[]|] eqn:Hfr;
      [|exact (conj Hruns (conj Hnodup Hacc))..].
    assert (Hnew : fr ∉ acceptance.transitions s).
    { intros Hin%Hacc. congruence. }
    split; [|split].
    + unfold acceptance.retroactiveRuns in *. simpl acceptance.invocations.
      rewrite runsOf_app, Hruns. reflexivity.
    + simpl. apply NoDup_app. split; [done|]. split.
      * intros x Hx ->%list_elem_of_singleton. done.
      * apply NoDup_singleton.
    + intros fr'. simpl. rewrite elem_of_app, list_elem_of_singleton.
      destruct (decide (fr = fr')) as [<-|Hne].
      * rewrite lookup_insert_eq. split; [by right|done].
      * rewrite lookup_insert_ne by done. rewrite Hacc.
        split; [by left|]. intros [H|H]; [done|congruence].
  - split; [|done]. unfold acceptance.retroactiveRuns in *. simpl.
    by rewrite runsOf_app, runsOf_invoked, app_nil_r.
Qed.

Lemma run_consistent (actions : list acceptance.Action) s :
  consistent s → consistent (fold_left (acceptance.step st) actions s).
Proof.
  revert s. induction actions as [|a actions IH]; intros s H; [done|].
  simpl. by apply IH, step_consistent.
Qed.

End Acceptance.

Lemma run_snoc (st : PhomoStage.t) (actions : list acceptance.Action) a :
  acceptance.run st (actions ++ [a])
  = acceptance.step st (acceptance.run st actions) a.
Proof. unfold acceptance.run. by rewrite fold_left_app. Qed.

(** C8. For every stage name and every sequence of actions: the
    accept-friendship function is the only principal granted invoke on the
    retroactive-match function; no bus event, schedule, stream record or
    queue message starts that function and no event source feeds it; in
    the state reached, the friendships for which a retroactive match was
    started are, in order and each once, the friendships that moved to
    ACCEPTED.  From that state, a friend request leaves a friendship that is
    PENDING if it is new, and accepting a friendship starts one more
    retroactive match, for that friendship, and makes it ACCEPTED exactly
    when it was PENDING; otherwise accepting starts nothing and changes
    nothing. *)
Theorem retroactive_match_once_per_acceptance
    (stageName : string) (actions : list acceptance.Action) :
  let st := PhomoStage.new stageName in
  let retro := FaceProcessingStack.retroactiveMatchFunction
                 (PhomoStage.faceProcessingStack st) in
  let accept := ApiStack.acceptFriendshipFunction (PhomoStage.apiStack st) in
  let final := acceptance.run st actions in
  grants.invokers (PhomoStage.permissions st) retro
  = [grants.FunctionRole accept]
  ∧ (∀ o f, f ∈ wiring.invoked st o → lambda.same f retro = false)
  ∧ Forall (fun m => lambda.same (lambdaEventSources.target m) retro = false)
           (PhomoStage.eventSourceMappings st)
  ∧ Forall (fun r => Forall (fun tg => tg ≠ events.LambdaFunction retro)
                            (events.targets r))
           (PhomoStage.rules st)
  ∧ acceptance.retroactiveRuns st final = acceptance.transitions final
  ∧ NoDup (acceptance.transitions final)
  ∧ (∀ fr, acceptance.friendships final !! fr = Some acceptance.ACCEPTED
           ↔ fr ∈ acceptance.transitions final)
  ∧ (∀ fr,
       acceptance.friendships
         (acceptance.run st (actions ++ [acceptance.SendFriendRequest fr]))
       !! fr
       = Some (default acceptance.PENDING
                       (acceptance.friendships final !! fr)))
  ∧ (∀ fr,
       let pending :=
         bool_decide (acceptance.friendships final !! fr
                      = Some acceptance.PENDING) in
       let after :=
         acceptance.run st (actions ++ [acceptance.AcceptFriendship fr]) in
       acceptance.retroactiveRuns st after
       = (acceptance.retroactiveRuns st final
          ++ (if pending then [fr] else []))%list
       ∧ acceptance.friendships after !! fr
         = (if pending then Some acceptance.ACCEPTED
            else acceptance.friendships final !! fr)
       ∧ (pending = false → after = final)).
Proof.
  intros st retro accept final.
  split; [reflexivity|]. split.
  { intros o f Hf. apply bool_decide_eq_false.
    by apply (invoked_never_retroactive stageName o). }
  split. { repeat constructor. }
  split. { repeat constructor; discriminate. }
  destruct (run_consistent stageName actions _ (start_consistent stageName))
    as (Hruns & Hnodup & Hacc).
  do 3 (split; [assumption|]). split.
  - intros fr. rewrite run_snoc.
    change (acceptance.step st (acceptance.run st actions)
              (acceptance.SendFriendRequest fr))
      with (acceptance.sendFriendRequest fr final).
    unfold acceptance.sendFriendRequest.
    destruct (acceptance.friendships final !! fr) as [status|] eqn:Hfr.
    + by rewrite Hfr.
    + simpl. by rewrite lookup_insert_eq.
  - intros fr pending after. subst pending after. rewrite run_snoc.
    change (acceptance.step st (acceptance.run st actions)
              (acceptance.AcceptFriendship fr))
      with (acceptance.acceptFriendship st fr final).
    unfold acceptance.acceptFriendship.
    change (acceptance.mayInvoke st _ _) with true. cbv iota.
    destruct (acceptance.friendships final !! fr) as [[]|] eqn:Hfr.
    + rewrite bool_decide_eq_true_2 by done.
      split; [|split; [|done]].
      * unfold acceptance.retroactiveRuns. simpl acceptance.invocations.
        by rewrite (runsOf_app stageName).
      * simpl. by rewrite lookup_insert_eq.
    + rewrite bool_decide_eq_false_2 by done.
      by rewrite app_nil_r.
    + rewrite bool_decide_eq_false_2 by done.
      by rewrite app_nil_r.
Qed.

(** ** The models at work on small inputs *)

(** Uploads are confined to the caller's own folder, reads are not. *)
Example uploads_stay_in_own_folder :
  let storage := PhomoStage.storageStack (PhomoStage.new "dev") in
  let bucket := StorageStack.photoBucket storage in
  let role := StorageStack.authenticatedRole storage in
  let bob := StorageStack.callerContext "us-east-1:bob" in
  iam.allows bob role "s3:PutObject"
    (s3.objectArn bucket "photos/us-east-1:bob/p1.jpg") = true
  ∧ iam.allows bob role "s3:PutObject"
      (s3.objectArn bucket "photos/us-east-1:alice/p1.jpg") = false
  ∧ iam.allows bob role "s3:GetObject"
      (s3.objectArn bucket "photos/us-east-1:alice/p1.jpg") = true
  ∧ iam.allows bob role "s3:GetObject"
      (s3.objectArn bucket "photos/p1.jpg") = false.
Proof. repeat split; vm_compute; reflexivity. Qed.

(** Polled two at a time, a message that could be finished shares the fate
    of the failing message next to it; polled one at a time, as the stack
    configures it, it does not. *)
Example batch_size_one_isolates_failures :
  let ok := fun (m : string) (_ : nat) =>
              negb (bool_decide (m = "broken.jpg")) in
  let final := fun batch =>
    redrive.polls ok 8 batch 3 (redrive.init ["p1.jpg"; "broken.jpg"]) in
  redrive.processed (final 1%nat) = ["p1.jpg"]
  ∧ redrive.dead (final 1%nat) = ["broken.jpg"]
  ∧ redrive.processed (final 2%nat) = []
  ∧ redrive.dead (final 2%nat) = ["p1.jpg"; "broken.jpg"].
Proof. repeat split; vm_compute; reflexivity. Qed.

(** A feed of three rows, two of them bob's. *)
Example feed_of_bob :
  let row := fun (id recipient created : string) =>
    ({[ "feedEntryId" := dynamodb.S id;
        "recipientUserId" := dynamodb.S recipient;
        "edgeCreatedAt" := dynamodb.S created ]} : Item) in
  let older := row "bob#c1" "bob" "2024-05-01T10:00:00Z" in
  let other := row "eve#c2" "eve" "2024-05-02T10:00:00Z" in
  let newer := row "bob#c3" "bob" "2024-05-03T10:00:00Z" in
  feed.getFeed (DatabaseStack.new "dev") "bob" [older; other; newer]
  = Some [newer; older].
Proof. vm_compute. reflexivity. Qed.

(** The event of an upload matches the photo-upload rule, the event of a
    face enrollment does not. *)
Example upload_and_enrollment :
  let st := PhomoStage.new "dev" in
  let bucket := StorageStack.photoBucket (PhomoStage.storageStack st) in
  map lambda.functionName
      (wiring.onObjectCreated st bucket "photos/us-east-1:alice/p1.jpg")
  = ["phomo-process-content-faces-dev"]
  ∧ wiring.onObjectCreated st bucket "faces/us-east-1:alice/me.jpg" = [].
Proof. split; vm_compute; reflexivity. Qed.

(** What the service refuses whatever the table: a number of 39
    significant digits and an attribute without a name; and what the keys
    refuse: an empty key value, a key of the wrong type. *)
Example limits_and_keys_refuse :
  let tb := DatabaseStack.recipientEdgeTable (DatabaseStack.new "dev") in
  let edge := ({[ "edgeId" := dynamodb.S "c1#u2" ]} : Item) in
  admits tb edge = true
  ∧ admits tb (<["confidence" := dynamodb.N (10 ^ 38)]> edge) = true
  ∧ admits tb (<["confidence" := dynamodb.N (10 ^ 38 + 1)]> edge) = false
  ∧ admits tb (<["" := dynamodb.S "x"]> edge) = false
  ∧ admits tb (<["note" := dynamodb.S ""]> edge) = true
  ∧ admits tb ({[ "edgeId" := dynamodb.S "" ]} : Item) = false
  ∧ admits tb (<["createdAt" := dynamodb.S ""]> edge) = false
  ∧ admits tb (<["createdAt" := dynamodb.N 1714557600]> edge) = false
  ∧ admits (DatabaseStack.friendshipTable (DatabaseStack.new "dev"))
           (friendship.row "" "alice" "bob" "alice#bob" "PENDING") = false.
Proof. repeat split; vm_compute; reflexivity. Qed.

(** A request may write an action name in any case; a resource is compared
    as written. *)
Example action_names_ignore_case :
  let storage := PhomoStage.storageStack (PhomoStage.new "dev") in
  let bucket := StorageStack.photoBucket storage in
  let role := StorageStack.authenticatedRole storage in
  let bob := StorageStack.callerContext "us-east-1:bob" in
  iam.allows bob role "s3:getobject"
    (s3.objectArn bucket "photos/us-east-1:alice/p1.jpg") = true
  ∧ iam.allows bob role "S3:GETOBJECT"
      (s3.objectArn bucket "photos/us-east-1:alice/p1.jpg") = true
  ∧ iam.allows bob role "s3:GetObject"
      (s3.objectArn bucket "PHOTOS/us-east-1:alice/p1.jpg") = false
  ∧ iam.allows bob role "s3:GetObjectAcl"
      (s3.objectArn bucket "photos/us-east-1:alice/p1.jpg") = false.
Proof. repeat split; vm_compute; reflexivity. Qed.

(** * Further properties *)

(** ** Names scoped by the stage name *)

Lemma diverge_app (p q s t : string) :
  names.diverge p q = true → p +:+ s ≠ q +:+ t.
Proof.
  revert q. induction p as [|a p IH]; intros [|b q]; simpl; try done.
  rewrite !append_cons. case_bool_decide as Hab.
  - intros Hd [= _ Heq]. by apply (IH q).
  - intros _ [= Heq _]. done.
Qed.

Lemma separated_inj (family : list (string * string)) (s t : string) x y :
  names.separated family = true →
  In x family → In y family →
  snd x +:+ s = snd y +:+ t →
  x = y ∧ s = t.
Proof.
  unfold names.separated. rewrite forallb_forall.
  intros Hsep Hx Hy Heq.
  specialize (Hsep x Hx). rewrite forallb_forall in Hsep.
  specialize (Hsep y Hy). apply orb_true_iff in Hsep as [Hxy|Hd].
  - apply bool_decide_eq_true in Hxy. subst y. split; [done|].
    by apply (inj (String.app (snd x))).
  - by apply diverge_app with (s := s) (t := t) in Hd.
Qed.

(** A family of names built by appending the stage name to separated
    prefixes never gives the same name twice, whatever the stages. *)
Lemma scoped_names_inj (name : string → list (string * string)) :
  (∀ s, name s = map (fun x => (fst x, snd x +:+ s)) (name EmptyString)) →
  names.separated (name EmptyString) = true →
  ∀ s t x y, In x (name s) → In y (name t) → snd x = snd y →
             s = t ∧ fst x = fst y.
Proof.
  intros Hname Hsep s t x y Hx Hy Heq.
  rewrite Hname in Hx, Hy.
  apply in_map_iff in Hx as (x0 & <- & Hx0).
  apply in_map_iff in Hy as (y0 & <- & Hy0).
  simpl in *.
  destruct (separated_inj _ s t x0 y0 Hsep Hx0 Hy0 Heq) as [-> ->]. done.
Qed.

(** X1. Across all stages no two tables share a physical name: tables with the
    same name belong to the same stage and are the same table. *)
Theorem table_names_never_collide
    (s1 s2 : string) (t1 t2 : dynamodb.Table) :
  In t1 (DatabaseStack.tables (DatabaseStack.new s1)) →
  In t2 (DatabaseStack.tables (DatabaseStack.new s2)) →
  dynamodb.tableName t1 = dynamodb.tableName t2 →
  s1 = s2 ∧ t1 = t2.
Proof.
  intros H1 H2 Heq.
  destruct (scoped_names_inj names.tables (fun s => eq_refl) eq_refl
              s1 s2 (dynamodb.constructId t1, dynamodb.tableName t1)
              (dynamodb.constructId t2, dynamodb.tableName t2))
    as [-> Hid]; try done.
  - unfold names.tables.
    by apply (in_map (fun tb => (dynamodb.constructId tb,
                                 dynamodb.tableName tb))).
  - unfold names.tables.
    by apply (in_map (fun tb => (dynamodb.constructId tb,
                                 dynamodb.tableName tb))).
  - split; [done|]. simpl in Hid, H1, H2.
    repeat (destruct H1 as [<-|H1]; [|]); try done;
      repeat (destruct H2 as [<-|H2]; [|]); try done;
      first [reflexivity | discriminate Hid].
Qed.

Lemma table_names_never_collide_witness :
  In (DatabaseStack.eventTable (DatabaseStack.new "dev"))
     (DatabaseStack.tables (DatabaseStack.new "dev"))
  ∧ In (DatabaseStack.eventTable (DatabaseStack.new "dev"))
       (DatabaseStack.tables (DatabaseStack.new "dev"))
  ∧ dynamodb.tableName (DatabaseStack.eventTable (DatabaseStack.new "dev"))
    = dynamodb.tableName (DatabaseStack.eventTable (DatabaseStack.new "dev"))
  ∧ "dev" = "dev"
  ∧ DatabaseStack.eventTable (DatabaseStack.new "dev")
    = DatabaseStack.eventTable (DatabaseStack.new "dev").
Proof.
  assert (H : In (DatabaseStack.eventTable (DatabaseStack.new "dev"))
                 (DatabaseStack.tables (DatabaseStack.new "dev")))
    by (simpl; tauto).
  split; [exact H|]. split; [exact H|]. split; [reflexivity|].
  exact (table_names_never_collide "dev" "dev" _ _ H H eq_refl).
Defined.

(** X2. Across all stages no two functions share a function name. *)
Theorem function_names_never_collide
    (s1 s2 : string) (f1 f2 : lambda.Function) :
  In f1 (PhomoStage.functions (PhomoStage.new s1)) →
  In f2 (PhomoStage.functions (PhomoStage.new s2)) →
  lambda.functionName f1 = lambda.functionName f2 →
  s1 = s2 ∧ f1 = f2.
Proof.
  intros H1 H2 Heq.
  destruct (scoped_names_inj names.functions (fun s => eq_refl) eq_refl
              s1 s2 (lambda.functionId f1, lambda.functionName f1)
              (lambda.functionId f2, lambda.functionName f2))
    as [-> Hid]; try done.
  - unfold names.functions.
    by apply (in_map (fun f => (lambda.functionId f, lambda.functionName f))).
  - unfold names.functions.
    by apply (in_map (fun f => (lambda.functionId f, lambda.functionName f))).
  - split; [done|]. simpl in Hid, H1, H2.
    repeat (destruct H1 as [<-|H1]; [|]); try done;
      repeat (destruct H2 as [<-|H2]; [|]); try done;
      first [reflexivity | discriminate Hid].
Qed.

Lemma function_names_never_collide_witness :
  let f := FaceProcessingStack.enrollFaceFunction
             (PhomoStage.faceProcessingStack (PhomoStage.new "staging")) in
  In f (PhomoStage.functions (PhomoStage.new "staging"))
  ∧ lambda.functionName f = lambda.functionName f
  ∧ "staging" = "staging" ∧ f = f.
Proof.
  intros f.
  assert (H : In f (PhomoStage.functions (PhomoStage.new "staging")))
    by (simpl; tauto).
  split; [exact H|]. split; [reflexivity|].
  exact (function_names_never_collide "staging" "staging" f f H H eq_refl).
Defined.

(** X3. Across all stacks and stages no two outputs share an export name. *)
Theorem export_names_never_collide
    (s1 s2 : string) (o1 o2 : outputs.CfnOutput) :
  In o1 (outputs.ofStage s1) →
  In o2 (outputs.ofStage s2) →
  outputs.exportName o1 = outputs.exportName o2 →
  s1 = s2 ∧ o1 = o2.
Proof.
  intros H1 H2 Heq.
  destruct (scoped_names_inj names.exports (fun s => eq_refl) eq_refl
              s1 s2
              (outputs.stack o1 +:+ "/" +:+ outputs.outputId o1,
               outputs.exportName o1)
              (outputs.stack o2 +:+ "/" +:+ outputs.outputId o2,
               outputs.exportName o2))
    as [-> Hid]; try done.
  - unfold names.exports.
    by apply (in_map (fun o => (outputs.stack o +:+ "/" +:+ outputs.outputId o,
                                outputs.exportName o))).
  - unfold names.exports.
    by apply (in_map (fun o => (outputs.stack o +:+ "/" +:+ outputs.outputId o,
                                outputs.exportName o))).
  - split; [done|]. simpl in Hid.
    unfold outputs.ofStage in H1, H2. simpl in H1, H2.
    repeat (destruct H1 as [<-|H1]; [|]); try done;
      repeat (destruct H2 as [<-|H2]; [|]); try done;
      first [reflexivity | discriminate Hid].
Qed.

Lemma export_names_never_collide_witness :
  let o := outputs.mkOutput "Api" "GraphQLApiUrl" "Phomo-GraphQLApiUrl-prod" in
  In o (outputs.ofStage "prod")
  ∧ outputs.exportName o = outputs.exportName o
  ∧ "prod" = "prod" ∧ o = o.
Proof.
  intros o.
  assert (H : In o (outputs.ofStage "prod")) by (vm_compute; tauto).
  split; [exact H|]. split; [reflexivity|].
  exact (export_names_never_collide "prod" "prod" o o H H eq_refl).
Defined.

(** X4. Queue names are injective in the stage name, and the photo-processing
    queue of one stage has the name of the dead-letter queue of another
    exactly when the first stage is called dlq- followed by the name of the
    second. *)
Theorem queue_names_collide_only_through_dlq (s1 s2 : string) :
  let queue s :=
    sqs.queueName (FaceProcessingStack.photoProcessingQueue
                     (PhomoStage.faceProcessingStack (PhomoStage.new s))) in
  let dlq s :=
    sqs.dlqName (FaceProcessingStack.photoProcessingDLQ
                   (PhomoStage.faceProcessingStack (PhomoStage.new s))) in
  (queue s1 = queue s2 ↔ s1 = s2)
  ∧ (dlq s1 = dlq s2 ↔ s1 = s2)
  ∧ (queue s1 = dlq s2 ↔ s1 = "dlq-" +:+ s2).
Proof.
  intros queue dlq. subst queue dlq. simpl. repeat split.
  - apply (inj (String.app _)).
  - by intros ->.
  - apply (inj (String.app _)).
  - by intros ->.
  - change ("phomo-photo-processing-dlq-" +:+ s2)
      with ("phomo-photo-processing-" +:+ "dlq-" +:+ s2).
    apply (inj (String.app _)).
  - by intros ->.
Qed.

(** ** The authenticated role, statement by statement *)

Lemma append_nil_r (s : string) : s +:+ EmptyString = s.
Proof. induction s as [|c s IH]; [done|]. by rewrite append_cons, IH. Qed.

Lemma literal_app (s t : string) :
  patterns.literal s = true → patterns.literal t = true →
  patterns.literal (s +:+ t) = true.
Proof.
  intros Hs Ht. induction s as [|c s IH]; [exact Ht|].
  rewrite append_cons. simpl in *.
  apply andb_true_iff in Hs as [Hc Hs]. rewrite Hc. simpl. by apply IH.
Qed.

Lemma literal_plain (s : string) :
  patterns.literal s = true → iam.plain s = true.
Proof.
  induction s as [|c s IH]; [done|]. simpl.
  rewrite !andb_true_iff. intros [[[-> _] _] Hs]. by rewrite IH.
Qed.

Lemma literal_tokens (s : string) :
  patterns.literal s = true →
  map iam.tokenOf (list_ascii_of_string s) = iam.lits s.
Proof.
  unfold iam.lits. induction s as [|c s IH]; [done|]. simpl.
  rewrite !andb_true_iff, !negb_true_iff, !bool_decide_eq_false.
  intros [[[_ Hstar] Hquest] Hs]. rewrite IH by done.
  unfold iam.tokenOf.
  by rewrite (bool_decide_eq_false_2 _ Hstar), (bool_decide_eq_false_2 _ Hquest).
Qed.

(** A pattern that begins with literal text begins with its characters. *)
Lemma tokens_literal_app (s t : string) :
  patterns.literal s = true →
  iam.tokens (s +:+ t) = (iam.lits s ++ iam.tokens t)%list.
Proof.
  intros Hs. rewrite scan_plain_app by by apply literal_plain.
  by rewrite literal_tokens.
Qed.

Lemma dropPrefix_Some (v s r : string) :
  iam.dropPrefix v s = Some r ↔ s = v +:+ r.
Proof.
  revert s. induction v as [|a v IH]; intros s; simpl.
  - split; [by intros [= ->] | by intros ->].
  - destruct s as [|b s]; [split; [done | by rewrite append_cons]|].
    rewrite append_cons. case_bool_decide as Hab.
    + subst b. rewrite IH. split; [by intros -> | by intros [= ->]].
    + split; [done | intros [= ? _]; done].
Qed.

Lemma dropPrefix_app (v r : string) : iam.dropPrefix v (v +:+ r) = Some r.
Proof. by apply dropPrefix_Some. Qed.

(** Lowering the case of a character creates no wildcard and no
    variable. *)
Lemma lowerChar_literal (c : ascii) :
  negb (bool_decide (c = "$"%char)) && negb (bool_decide (c = "*"%char))
  && negb (bool_decide (c = "?"%char)) = true →
  negb (bool_decide (iam.lowerChar c = "$"%char))
  && negb (bool_decide (iam.lowerChar c = "*"%char))
  && negb (bool_decide (iam.lowerChar c = "?"%char)) = true.
Proof.
  destruct c as [[] [] [] [] [] [] [] []]; vm_compute; intros H; exact H.
Qed.

Lemma literal_lower (p : string) :
  patterns.literal p = true → patterns.literal (iam.lower p) = true.
Proof.
  induction p as [|c p IH]; [done|]. simpl.
  rewrite !(andb_true_iff _ (patterns.literal _)).
  intros [Hc Hp]. split; [by apply lowerChar_literal | by apply IH].
Qed.

Lemma actionTokens_literal (p : string) :
  patterns.literal p = true → iam.actionTokens p = iam.lits (iam.lower p).
Proof. intros Hp. by apply literal_tokens, literal_lower. Qed.

Section Literal.
Variable ctx : gmap string string.

(** Literal characters at the head of a pattern are consumed one for
    one. *)
Lemma tmatch_lits (s : string) (p : list iam.Token) (r : string) :
  iam.tmatch ctx (iam.lits s ++ p) r
  = match iam.dropPrefix s r with
    | Some r' => iam.tmatch ctx p r'
    | None => false
    end.
Proof.
  unfold iam.lits. revert r. induction s as [|a s IH]; intros r; [done|].
  simpl. destruct r as [|b r]; [done|].
  case_bool_decide; simpl; [apply IH | done].
Qed.

Lemma tmatch_lits_only (p s : string) :
  iam.tmatch ctx (iam.lits p) s = true ↔ s = p.
Proof.
  rewrite <- (app_nil_r (iam.lits p)). rewrite tmatch_lits.
  destruct (iam.dropPrefix p s) as [r|] eqn:Hr.
  - apply dropPrefix_Some in Hr as ->. simpl. rewrite bool_decide_eq_true.
    split; [intros ->; apply append_nil_r|].
    intros H. rewrite <- (append_nil_r p) in H at 2.
    by apply (inj (String.app p)) in H.
  - split; [done|]. intros ->.
    rewrite <- (append_nil_r p) in Hr at 2. by rewrite dropPrefix_app in Hr.
Qed.

(** A literal action name matches itself in any case, and nothing else. *)
Lemma likeAction_literal (p a : string) :
  patterns.literal p = true →
  (iam.likeAction ctx p a = true ↔ iam.lower a = iam.lower p).
Proof.
  intros Hp. unfold iam.likeAction. rewrite actionTokens_literal by done.
  apply tmatch_lits_only.
Qed.

(** A literal pattern matches itself only. *)
Lemma like_literal (p s : string) :
  patterns.literal p = true → (iam.like ctx p s = true ↔ s = p).
Proof.
  intros Hp. unfold iam.like.
  rewrite <- (append_nil_r p) at 1. rewrite tokens_literal_app by done.
  rewrite tmatch_lits.
  destruct (iam.dropPrefix p s) as [r|] eqn:Hr.
  - apply dropPrefix_Some in Hr as ->. simpl. rewrite bool_decide_eq_true.
    split; [intros ->; apply append_nil_r|].
    intros H. rewrite <- (append_nil_r p) in H at 2.
    by apply (inj (String.app p)) in H.
  - split; [done|]. intros ->.
    rewrite <- (append_nil_r p) in Hr at 2. by rewrite dropPrefix_app in Hr.
Qed.

(** Whatever follows literal text in a pattern, what the pattern matches
    begins with that text. *)
Lemma like_literal_prefix (pre t r : string) :
  patterns.literal pre = true →
  iam.like ctx (pre +:+ t) r = true → ∃ rest, r = pre +:+ rest.
Proof.
  intros Hpre. unfold iam.like.
  rewrite tokens_literal_app, tmatch_lits by done.
  destruct (iam.dropPrefix pre r) as [r'|] eqn:Hr; [|done].
  apply dropPrefix_Some in Hr. eauto.
Qed.

(** The two-level wildcard matches the strings with a slash in them, and
    no others. *)
Lemma tmatch_any_folder_inv (s : string) :
  iam.tmatch ctx [iam.Star; iam.Lit "/"; iam.Star] s = true →
  ∃ owner object, s = owner +:+ "/" +:+ object.
Proof.
  induction s as [|c s IH]; rewrite tmatch_star; [done|].
  intros [H|H]%orb_true_iff.
  - simpl in H. apply andb_true_iff in H as [Hc _].
    apply bool_decide_eq_true in Hc as <-. by exists EmptyString, s.
  - destruct (IH H) as (owner & object & ->).
    by exists (String c owner), object.
Qed.

Lemma like_any_folder_iff (pre r : string) :
  patterns.literal pre = true →
  (iam.like ctx (pre +:+ "*/*") r = true
   ↔ ∃ owner object, r = pre +:+ owner +:+ "/" +:+ object).
Proof.
  intros Hpre. split.
  - unfold iam.like. rewrite tokens_literal_app, tmatch_lits by done.
    destruct (iam.dropPrefix pre r) as [r'|] eqn:Hr; [|done].
    apply dropPrefix_Some in Hr as ->.
    intros (owner & object & ->)%tmatch_any_folder_inv. eauto.
  - intros (owner & object & ->).
    apply like_any_folder. by apply literal_plain.
Qed.

(** The caller's folder: the pattern names the caller's identity and then
    leaves the rest free. *)
Lemma like_caller_folder (pre identityId r : string) :
  patterns.literal pre = true →
  ctx !! StorageStack.sub = Some identityId →
  (iam.like ctx (pre +:+ "${cognito-identity.amazonaws.com:sub}/*") r = true
   ↔ ∃ rest, r = pre +:+ identityId +:+ "/" +:+ rest).
Proof.
  intros Hpre Hctx. unfold iam.like.
  rewrite tokens_literal_app, tmatch_lits by done.
  change (iam.tokens "${cognito-identity.amazonaws.com:sub}/*")
    with [iam.Var StorageStack.sub; iam.Lit "/"; iam.Star].
  destruct (iam.dropPrefix pre r) as [r1|] eqn:Hr1.
  - apply dropPrefix_Some in Hr1 as ->. simpl iam.tmatch. rewrite Hctx.
    destruct (iam.dropPrefix identityId r1) as [r2|] eqn:Hr2.
    + apply dropPrefix_Some in Hr2 as ->.
      destruct r2 as [|c r3].
      * split; [done|]. intros (rest & H).
        apply (inj (String.app pre)), (inj (String.app identityId)) in H.
        done.
      * case_bool_decide as Hc.
        -- subst c. simpl. split; [eauto|]. intros _.
           apply (tmatch_star_any ctx).
        -- simpl. split; [done|]. intros (rest & H).
           apply (inj (String.app pre)), (inj (String.app identityId)) in H.
           by injection H.
    + split; [done|]. intros (rest & H).
      apply (inj (String.app pre)) in H. subst r1.
      by rewrite dropPrefix_app in Hr2.
  - split; [done|]. intros (rest & ->). by rewrite dropPrefix_app in Hr1.
Qed.

(** What a role of [Allow] statements with literal actions allows: the
    action is listed, in some case, by a statement one of whose resources
    matches and whose conditions hold. *)
Lemma allows_iff (role : iam.Role) (action resource : string) :
  Forall (fun st => iam.effect st = iam.ALLOW) (iam.statements role) →
  Forall (fun st => Forall (fun a => patterns.literal a = true)
                           (iam.actions st)) (iam.statements role) →
  (iam.allows ctx role action resource = true
   ↔ ∃ st, In st (iam.statements role)
           ∧ In (iam.lower action) (map iam.lower (iam.actions st))
           ∧ (∃ q, In q (iam.resources st)
                   ∧ iam.like ctx q resource = true)
           ∧ forallb (iam.conditionHolds ctx) (iam.conditions st) = true).
Proof.
  intros Hallow Hlit. unfold iam.allows.
  assert (Hdeny : existsb (fun st => bool_decide (iam.effect st = iam.DENY)
                             && iam.statementMatches ctx st action resource)
                          (iam.statements role) = false).
  { induction Hallow as [|st l Hst _ IH]; [done|]. simpl.
    rewrite IH by (by inversion Hlit). rewrite Hst. done. }
  rewrite Hdeny, andb_true_r, existsb_exists.
  rewrite Forall_forall in Hallow. rewrite Forall_forall in Hlit.
  split.
  - intros (st & Hin & Hm). exists st. split; [done|].
    apply andb_true_iff in Hm as [_ Hm]. unfold iam.statementMatches in Hm.
    apply andb_true_iff in Hm as [Hm Hcond].
    apply andb_true_iff in Hm as [Hact Hres].
    apply existsb_exists in Hact as (a & Ha & Hlike).
    apply existsb_exists in Hres as (q & Hq & Hqr).
    pose proof (Hlit st (proj2 (list_elem_of_In _ _) Hin)) as Hl.
    rewrite Forall_forall in Hl.
    apply likeAction_literal in Hlike; [|by apply Hl, list_elem_of_In].
    rewrite Hlike. split; [by apply in_map|]. eauto 10.
  - intros (st & Hin & Ha & (q & Hq & Hqr) & Hcond). exists st.
    split; [done|].
    rewrite (bool_decide_eq_true_2 _ (Hallow st (proj2 (list_elem_of_In _ _) Hin))).
    unfold iam.statementMatches. rewrite Hcond, andb_true_r. simpl.
    apply andb_true_iff. split; apply existsb_exists.
    + apply in_map_iff in Ha as (a & Heq & Ha).
      exists a. split; [done|]. apply likeAction_literal; [|done].
      pose proof (Hlit st (proj2 (list_elem_of_In _ _) Hin)) as Hl.
      rewrite Forall_forall in Hl. by apply Hl, list_elem_of_In.
    + eauto.
Qed.

(** The same for an action written as the role writes it, when the role's
    action names differ by more than case. *)
Lemma allows_listed (role : iam.Role) (action resource : string) :
  Forall (fun st => iam.effect st = iam.ALLOW) (iam.statements role) →
  Forall (fun st => Forall (fun a => patterns.literal a = true)
                           (iam.actions st)) (iam.statements role) →
  (∀ a b, In a (iam.roleActions role) → In b (iam.roleActions role) →
          iam.lower a = iam.lower b → a = b) →
  In action (iam.roleActions role) →
  (iam.allows ctx role action resource = true
   ↔ ∃ st, In st (iam.statements role)
           ∧ In action (iam.actions st)
           ∧ (∃ q, In q (iam.resources st)
                   ∧ iam.like ctx q resource = true)
           ∧ forallb (iam.conditionHolds ctx) (iam.conditions st) = true).
Proof.
  intros Hallow Hlit Hinj Hmem. rewrite (allows_iff _ _ _ Hallow Hlit).
  split; intros (st & Hin & Hact & Hrest); exists st;
    (split; [done|]); (split; [|done]).
  - apply in_map_iff in Hact as (b & Heq & Hb).
    rewrite <- (Hinj b action); [done| |done|done].
    unfold iam.roleActions. apply in_flat_map. eauto.
  - by apply in_map.
Qed.

End Literal.

Lemma bucketArn_literal (stageName : string) :
  patterns.literal stageName = true →
  patterns.literal (StorageStack.arn stageName) = true.
Proof.
  intros H. unfold StorageStack.arn, s3.bucketArn. simpl s3.bucketName.
  repeat (apply literal_app; try done).
Qed.

Lemma authenticatedRole_shape (stageName : string) pool :
  let role := StorageStack.mkAuthenticatedRole stageName pool in
  Forall (fun st => iam.effect st = iam.ALLOW) (iam.statements role)
  ∧ Forall (fun st => Forall (fun a => patterns.literal a = true)
                             (iam.actions st)) (iam.statements role).
Proof. split; repeat constructor. Qed.

(** The action names of the role differ by more than case. *)
Lemma authenticatedRole_actions (stageName : string) pool :
  let role := StorageStack.mkAuthenticatedRole stageName pool in
  iam.roleActions role
  = [ "s3:PutObject"; "s3:PutObjectAcl"; "s3:GetObject"; "s3:GetObject";
      "s3:DeleteObject"; "s3:ListBucket" ]
  ∧ ∀ a b, In a (iam.roleActions role) → In b (iam.roleActions role) →
           iam.lower a = iam.lower b → a = b.
Proof.
  split; [reflexivity|]. intros a b Ha Hb.
  change (iam.roleActions _)
    with [ "s3:PutObject"; "s3:PutObjectAcl"; "s3:GetObject"; "s3:GetObject";
           "s3:DeleteObject"; "s3:ListBucket" ] in Ha, Hb.
  simpl in Ha, Hb.
  repeat (destruct Ha as [<-|Ha]; [|]); try done;
    repeat (destruct Hb as [<-|Hb]; [|]); try done;
    vm_compute; intros H; first [reflexivity | discriminate H].
Qed.

(** The caller's own folder under [arn], seen from an object key. *)
Lemma like_own_folder ctx (arn folder identityId key : string) :
  patterns.literal arn = true →
  patterns.literal folder = true →
  ctx !! StorageStack.sub = Some identityId →
  (iam.like ctx
     (arn +:+ "/" +:+ folder +:+ "/${cognito-identity.amazonaws.com:sub}/*")
     (arn +:+ "/" +:+ key) = true
   ↔ ∃ rest, key = folder +:+ "/" +:+ identityId +:+ "/" +:+ rest).
Proof.
  intros Harn Hfolder Hctx.
  change "/${cognito-identity.amazonaws.com:sub}/*"
    with ("/" +:+ "${cognito-identity.amazonaws.com:sub}/*").
  rewrite <- !(append_assoc _ _ "${cognito-identity.amazonaws.com:sub}/*").
  rewrite like_caller_folder; [|repeat (apply literal_app; try done)|done].
  split; intros (rest & H); exists rest.
  - rewrite !append_assoc in H. apply (inj (String.app arn)) in H.
    rewrite !append_cons in H. by injection H.
  - rewrite H. by rewrite !append_assoc.
Qed.

(** Every object of a folder, seen from an object key. *)
Lemma like_whole_folder ctx (arn folder key : string) :
  patterns.literal arn = true →
  patterns.literal folder = true →
  (iam.like ctx (arn +:+ "/" +:+ folder +:+ "/*/*") (arn +:+ "/" +:+ key)
   = true
   ↔ ∃ owner object, key = folder +:+ "/" +:+ owner +:+ "/" +:+ object).
Proof.
  intros Harn Hfolder.
  change "/*/*" with ("/" +:+ "*/*").
  rewrite <- !(append_assoc _ _ "*/*").
  rewrite like_any_folder_iff by (repeat (apply literal_app; try done)).
  split; intros (owner & object & H); exists owner, object.
  - rewrite !append_assoc in H. apply (inj (String.app arn)) in H.
    rewrite !append_cons in H. by injection H.
  - rewrite H. by rewrite !append_assoc.
Qed.

Section AuthenticatedRole.
Variable stageName : string.
Hypothesis literalStage : patterns.literal stageName = true.

Local Abbreviation storage := (PhomoStage.storageStack (PhomoStage.new stageName)).
Local Abbreviation bucket := (StorageStack.photoBucket storage).
Local Abbreviation role := (StorageStack.authenticatedRole storage).

Lemma caller_sub (identityId : string) :
  StorageStack.callerContext identityId !! StorageStack.sub = Some identityId.
Proof. apply lookup_singleton_eq. Qed.

(** X5. In a stage whose name is literal text, an authenticated caller may
    put an object, set its ACL or delete it exactly when the key lies under
    photos/ or faces/ followed by the caller's own identity id. *)
Theorem writes_confined_to_own_folders (identityId action key : string) :
  In action ["s3:PutObject"; "s3:PutObjectAcl"; "s3:DeleteObject"] →
  (iam.allows (StorageStack.callerContext identityId) role action
     (s3.objectArn bucket key) = true
   ↔ ∃ rest, key = "photos/" +:+ identityId +:+ "/" +:+ rest
             ∨ key = "faces/" +:+ identityId +:+ "/" +:+ rest).
Proof.
  intros Haction.
  pose proof (bucketArn_literal stageName literalStage) as Harn.
  pose proof (caller_sub identityId) as Hctx.
  destruct (authenticatedRole_shape stageName
              (AuthStack.identityPool (AuthStack.new stageName))) as [Ha Hl].
  rewrite (allows_iff _ role action _ Ha Hl).
  assert (Hown : ∀ q,
    In q (StorageStack.ownFolders stageName) →
    (iam.like (StorageStack.callerContext identityId) q
       (s3.objectArn bucket key) = true
     ↔ (q = StorageStack.arn stageName +:+ "/" +:+ "photos"
              +:+ "/${cognito-identity.amazonaws.com:sub}/*"
        ∧ ∃ rest, key = "photos" +:+ "/" +:+ identityId +:+ "/" +:+ rest)
       ∨ (q = StorageStack.arn stageName +:+ "/" +:+ "faces"
                +:+ "/${cognito-identity.amazonaws.com:sub}/*"
          ∧ ∃ rest, key = "faces" +:+ "/" +:+ identityId +:+ "/" +:+ rest))).
  { intros q [<-|[<-|[]]].
    - change (s3.objectArn bucket key)
        with (StorageStack.arn stageName +:+ "/" +:+ key).
      rewrite (like_own_folder _ (StorageStack.arn stageName) "photos")
        by done.
      split; [intros H; left; by split|].
      intros [[_ H]|[Hq _]]; [done|].
      apply (inj (String.app _)) in Hq. discriminate Hq.
    - change (s3.objectArn bucket key)
        with (StorageStack.arn stageName +:+ "/" +:+ key).
      rewrite (like_own_folder _ (StorageStack.arn stageName) "faces")
        by done.
      split; [intros H; right; by split|].
      intros [[Hq _]|[_ H]]; [|done].
      apply (inj (String.app _)) in Hq. discriminate Hq. }
  split.
  - intros (st & Hst & Hact & (q & Hq & Hlike) & _).
    simpl in Hst.
    destruct Hst as [<-|[<-|[<-|[<-|[<-|[]]]]]]; simpl in Hact, Hq;
      try (destruct Haction as [<-|[<-|[<-|[]]]];
           destruct Hact as [Hact|Hact];
           first [discriminate Hact | destruct Hact | idtac]; fail).
    + apply Hown in Hlike; [|exact Hq].
      destruct Hlike as [[_ [rest ->]]|[_ [rest ->]]]; exists rest; eauto.
    + apply Hown in Hlike; [|exact Hq].
      destruct Hlike as [[_ [rest ->]]|[_ [rest ->]]]; exists rest; eauto.
  - intros (rest & Hkey).
    assert (Hres : ∃ q, In q (StorageStack.ownFolders stageName)
              ∧ iam.like (StorageStack.callerContext identityId) q
                  (s3.objectArn bucket key) = true).
    { destruct Hkey as [Hkey|Hkey].
      - eexists. split; [left; reflexivity|].
        apply Hown; [by left|]. left. split; [reflexivity|].
        exists rest. exact Hkey.
      - eexists. split; [right; left; reflexivity|].
        apply Hown; [right; by left|]. right. split; [reflexivity|].
        exists rest. exact Hkey. }
    destruct Haction as [<-|[<-|[<-|[]]]].
    + exists (iam.mkStatement iam.ALLOW ["s3:PutObject"; "s3:PutObjectAcl"]
                (StorageStack.ownFolders stageName) []).
      simpl. tauto.
    + exists (iam.mkStatement iam.ALLOW ["s3:PutObject"; "s3:PutObjectAcl"]
                (StorageStack.ownFolders stageName) []).
      simpl. tauto.
    + exists (iam.mkStatement iam.ALLOW ["s3:DeleteObject"]
                (StorageStack.ownFolders stageName) []).
      simpl. tauto.
Qed.

(** X6. In a stage whose name is literal text, an authenticated caller may
    get an object exactly when its key has the form photos/owner/object or
    faces/owner/object, for any owner: reading is not confined to the
    caller's folder, and keys with a single level are not readable. *)
Theorem reads_cover_exactly_two_level_keys (identityId key : string) :
  iam.allows (StorageStack.callerContext identityId) role "s3:GetObject"
    (s3.objectArn bucket key) = true
  ↔ ∃ owner object, key = "photos/" +:+ owner +:+ "/" +:+ object
                    ∨ key = "faces/" +:+ owner +:+ "/" +:+ object.
Proof.
  pose proof (bucketArn_literal stageName literalStage) as Harn.
  pose proof (caller_sub identityId) as Hctx.
  destruct (authenticatedRole_shape stageName
              (AuthStack.identityPool (AuthStack.new stageName))) as [Ha Hl].
  rewrite (allows_iff _ role _ _ Ha Hl).
  change (s3.objectArn bucket key)
    with (StorageStack.arn stageName +:+ "/" +:+ key).
  split.
  - intros (st & Hst & Hact & (q & Hq & Hlike) & _).
    simpl in Hst.
    destruct Hst as [<-|[<-|[<-|[<-|[<-|[]]]]]]; simpl in Hact, Hq;
      try (destruct Hact as [Hact|Hact];
           first [discriminate Hact | destruct Hact as [Hact|Hact];
                  first [discriminate Hact | destruct Hact] | destruct Hact];
           fail).
    + destruct Hq as [<-|[<-|[]]].
      * change (iam.like (StorageStack.callerContext identityId)
                  (StorageStack.arn stageName +:+ "/" +:+ "photos"
                   +:+ "/${cognito-identity.amazonaws.com:sub}/*")
                  (StorageStack.arn stageName +:+ "/" +:+ key) = true)
          in Hlike.
        apply (proj1 (like_own_folder _ (StorageStack.arn stageName) "photos"
                        identityId key Harn eq_refl Hctx))
          in Hlike as (rest & ->).
        exists identityId, rest. by left.
      * change (iam.like (StorageStack.callerContext identityId)
                  (StorageStack.arn stageName +:+ "/" +:+ "faces"
                   +:+ "/${cognito-identity.amazonaws.com:sub}/*")
                  (StorageStack.arn stageName +:+ "/" +:+ key) = true)
          in Hlike.
        apply (proj1 (like_own_folder _ (StorageStack.arn stageName) "faces"
                        identityId key Harn eq_refl Hctx))
          in Hlike as (rest & ->).
        exists identityId, rest. by right.
    + destruct Hq as [<-|[<-|[]]].
      * change (iam.like (StorageStack.callerContext identityId)
                  (StorageStack.arn stageName +:+ "/" +:+ "photos" +:+ "/*/*")
                  (StorageStack.arn stageName +:+ "/" +:+ key) = true)
          in Hlike.
        apply (proj1 (like_whole_folder _ (StorageStack.arn stageName) "photos"
                        key Harn eq_refl))
          in Hlike as (owner & object & ->).
        exists owner, object. by left.
      * change (iam.like (StorageStack.callerContext identityId)
                  (StorageStack.arn stageName +:+ "/" +:+ "faces" +:+ "/*/*")
                  (StorageStack.arn stageName +:+ "/" +:+ key) = true)
          in Hlike.
        apply (proj1 (like_whole_folder _ (StorageStack.arn stageName) "faces"
                        key Harn eq_refl))
          in Hlike as (owner & object & ->).
        exists owner, object. by right.
  - intros (owner & object & Hkey).
    exists (iam.mkStatement iam.ALLOW ["s3:GetObject"]
              [ StorageStack.arn stageName +:+ "/photos/*/*";
                StorageStack.arn stageName +:+ "/faces/*/*" ] []).
    split; [simpl; tauto|]. split; [by left|]. split; [|done].
    destruct Hkey as [->| ->].
    + exists (StorageStack.arn stageName +:+ "/photos/*/*").
      split; [by left|].
      apply (like_whole_folder _ (StorageStack.arn stageName) "photos");
        try done.
      by exists owner, object.
    + exists (StorageStack.arn stageName +:+ "/faces/*/*").
      split; [right; by left|].
      apply (like_whole_folder _ (StorageStack.arn stageName) "faces");
        try done.
      by exists owner, object.
Qed.

(** X7. In a stage whose name is literal text, whatever the request
    context, the role allows nothing but the five S3 actions of its
    statements, in whatever case the request writes them, and only on the
    photo bucket itself or on an object of the photo bucket. *)
Theorem role_allows_nothing_outside_the_bucket
    (ctx : gmap string string) (action resource : string) :
  iam.allows ctx role action resource = true →
  In (iam.lower action)
     (map iam.lower [ "s3:PutObject"; "s3:PutObjectAcl"; "s3:GetObject";
                      "s3:DeleteObject"; "s3:ListBucket" ])
  ∧ (resource = s3.bucketArn bucket
     ∨ ∃ key, resource = s3.objectArn bucket key).
Proof.
  pose proof (bucketArn_literal stageName literalStage) as Harn.
  destruct (authenticatedRole_shape stageName
              (AuthStack.identityPool (AuthStack.new stageName))) as [Ha Hl].
  rewrite (allows_iff _ role _ _ Ha Hl).
  intros (st & Hst & Hact & (q & Hq & Hlike) & _).
  split.
  - simpl in Hst.
    destruct Hst as [<-|[<-|[<-|[<-|[<-|[]]]]]]; simpl in Hact |- *; tauto.
  - assert (Hq' : q = StorageStack.arn stageName
                  ∨ ∃ t, q = (StorageStack.arn stageName +:+ "/") +:+ t).
    { simpl in Hst.
      destruct Hst as [<-|[<-|[<-|[<-|[<-|[]]]]]]; simpl in Hq;
        repeat (destruct Hq as [<-|Hq]; [|]); try done;
        first [ by left
              | right; eexists; rewrite append_assoc; reflexivity ]. }
    destruct Hq' as [-> | (t & ->)].
    + left. by apply like_literal in Hlike.
    + right. apply like_literal_prefix in Hlike as (key & ->);
        [|by apply literal_app].
      exists key. unfold s3.objectArn.
      change (s3.bucketArn bucket) with (StorageStack.arn stageName).
      by rewrite append_assoc.
Qed.

(** X8. In a stage whose name is literal text, listing the bucket is
    allowed exactly on the bucket itself and for a listing prefix under
    photos/ or faces/ followed by the caller's own identity id; a listing
    request that carries no prefix is refused. *)
Theorem listing_confined_to_own_prefix
    (identityId prefix resource : string) :
  (iam.allows (patterns.listContext identityId prefix) role "s3:ListBucket"
     resource = true
   ↔ resource = s3.bucketArn bucket
     ∧ ∃ rest, prefix = "photos/" +:+ identityId +:+ "/" +:+ rest
               ∨ prefix = "faces/" +:+ identityId +:+ "/" +:+ rest)
  ∧ iam.allows (StorageStack.callerContext identityId) role "s3:ListBucket"
      resource = false.
Proof.
  pose proof (bucketArn_literal stageName literalStage) as Harn.
  destruct (authenticatedRole_shape stageName
              (AuthStack.identityPool (AuthStack.new stageName))) as [Ha Hl].
  destruct (authenticatedRole_actions stageName
              (AuthStack.identityPool (AuthStack.new stageName)))
    as [Hacts Hinj].
  assert (Hmem : In "s3:ListBucket" (iam.roleActions role))
    by (simpl; tauto).
  assert (Hsub : patterns.listContext identityId prefix !! StorageStack.sub
                 = Some identityId).
  { unfold patterns.listContext. rewrite lookup_insert_ne by done.
    apply caller_sub. }
  assert (Hprefix : patterns.listContext identityId prefix !! "s3:prefix"
                    = Some prefix) by apply lookup_insert_eq.
  assert (Hlisted : ∀ ctx st,
            In st (iam.statements role) →
            In "s3:ListBucket" (iam.actions st) →
            st = iam.mkStatement iam.ALLOW ["s3:ListBucket"]
                   [StorageStack.arn stageName]
                   [ iam.mkCondition "StringLike" "s3:prefix"
                       [ "photos/${" +:+ StorageStack.sub +:+ "}/*";
                         "faces/${" +:+ StorageStack.sub +:+ "}/*" ] ]
            ∧ ∀ q, In q (iam.resources st) →
                   iam.like ctx q resource = true →
                   resource = StorageStack.arn stageName).
  { intros ctx st Hst Hact. simpl in Hst.
    destruct Hst as [<-|[<-|[<-|[<-|[<-|[]]]]]]; simpl in Hact;
      try (destruct Hact as [Hact|Hact];
           first [discriminate Hact | destruct Hact as [Hact|Hact];
                  first [discriminate Hact | destruct Hact] | destruct Hact];
           fail).
    split; [done|]. intros q [<-|[]] Hlike.
    by apply like_literal in Hlike. }
  split.
  - rewrite (allows_listed _ role _ _ Ha Hl Hinj Hmem). split.
    + intros (st & Hst & Hact & (q & Hq & Hlike) & Hcond).
      destruct (Hlisted (patterns.listContext identityId prefix) st Hst Hact)
        as [-> Hres].
      split; [by apply (Hres q)|].
      simpl in Hcond. unfold iam.conditionHolds in Hcond. simpl in Hcond.
      rewrite Hprefix in Hcond. simpl in Hcond.
      rewrite andb_true_r, orb_false_r in Hcond.
      apply orb_true_iff in Hcond as [H|H].
      * apply (proj1 (like_caller_folder _ "photos/" identityId prefix
                        eq_refl Hsub)) in H as (rest & ->).
        exists rest. by left.
      * apply (proj1 (like_caller_folder _ "faces/" identityId prefix
                        eq_refl Hsub)) in H as (rest & ->).
        exists rest. by right.
    + intros (-> & rest & Hp).
      exists (iam.mkStatement iam.ALLOW ["s3:ListBucket"]
                [StorageStack.arn stageName]
                [ iam.mkCondition "StringLike" "s3:prefix"
                    [ "photos/${" +:+ StorageStack.sub +:+ "}/*";
                      "faces/${" +:+ StorageStack.sub +:+ "}/*" ] ]).
      split; [simpl; tauto|]. split; [by left|]. split.
      * exists (StorageStack.arn stageName). split; [by left|].
        by apply like_literal.
      * simpl. unfold iam.conditionHolds. simpl. rewrite Hprefix. simpl.
        rewrite andb_true_r, orb_false_r. apply orb_true_iff.
        destruct Hp as [->| ->]; [left|right].
        -- apply (proj2 (like_caller_folder _ "photos/" identityId _
                           eq_refl Hsub)). by exists rest.
        -- apply (proj2 (like_caller_folder _ "faces/" identityId _
                           eq_refl Hsub)). by exists rest.
  - apply not_true_is_false. rewrite (allows_listed _ role _ _ Ha Hl Hinj Hmem).
    intros (st & Hst & Hact & _ & Hcond).
    destruct (Hlisted (StorageStack.callerContext identityId) st Hst Hact)
      as [-> _].
    simpl in Hcond. unfold iam.conditionHolds in Hcond. simpl in Hcond.
    unfold StorageStack.callerContext in Hcond.
    rewrite lookup_singleton_ne in Hcond by done. done.
Qed.

End AuthenticatedRole.

Lemma writes_confined_to_own_folders_witness :
  patterns.literal "dev" = true
  ∧ In "s3:DeleteObject" ["s3:PutObject"; "s3:PutObjectAcl"; "s3:DeleteObject"]
  ∧ (iam.allows (StorageStack.callerContext "us-east-1:bob")
       (StorageStack.authenticatedRole
          (PhomoStage.storageStack (PhomoStage.new "dev")))
       "s3:DeleteObject"
       (s3.objectArn
          (StorageStack.photoBucket
             (PhomoStage.storageStack (PhomoStage.new "dev")))
          "photos/us-east-1:alice/p1.jpg") = true
     ↔ ∃ rest,
         "photos/us-east-1:alice/p1.jpg"
         = "photos/" +:+ "us-east-1:bob" +:+ "/" +:+ rest
         ∨ "photos/us-east-1:alice/p1.jpg"
           = "faces/" +:+ "us-east-1:bob" +:+ "/" +:+ rest).
Proof.
  split; [reflexivity|]. split; [simpl; tauto|].
  exact (writes_confined_to_own_folders "dev" eq_refl "us-east-1:bob"
           "s3:DeleteObject" "photos/us-east-1:alice/p1.jpg"
           (or_intror (or_intror (or_introl eq_refl)))).
Defined.

Lemma reads_cover_exactly_two_level_keys_witness :
  patterns.literal "dev" = true
  ∧ (iam.allows (StorageStack.callerContext "us-east-1:bob")
       (StorageStack.authenticatedRole
          (PhomoStage.storageStack (PhomoStage.new "dev")))
       "s3:GetObject"
       (s3.objectArn
          (StorageStack.photoBucket
             (PhomoStage.storageStack (PhomoStage.new "dev")))
          "photos/p1.jpg") = true
     ↔ ∃ owner object,
         "photos/p1.jpg" = "photos/" +:+ owner +:+ "/" +:+ object
         ∨ "photos/p1.jpg" = "faces/" +:+ owner +:+ "/" +:+ object).
Proof.
  split; [reflexivity|].
  exact (reads_cover_exactly_two_level_keys "dev" eq_refl "us-east-1:bob"
           "photos/p1.jpg").
Defined.

Lemma role_allows_nothing_outside_the_bucket_witness :
  let bucket := StorageStack.photoBucket
                  (PhomoStage.storageStack (PhomoStage.new "dev")) in
  let role := StorageStack.authenticatedRole
                (PhomoStage.storageStack (PhomoStage.new "dev")) in
  let resource := s3.objectArn bucket "faces/us-east-1:alice/me.jpg" in
  patterns.literal "dev" = true
  ∧ iam.allows (StorageStack.callerContext "us-east-1:bob") role
      "S3:getobject" resource = true
  ∧ In (iam.lower "S3:getobject")
       (map iam.lower [ "s3:PutObject"; "s3:PutObjectAcl"; "s3:GetObject";
                        "s3:DeleteObject"; "s3:ListBucket" ])
  ∧ (resource = s3.bucketArn bucket
     ∨ ∃ key, resource = s3.objectArn bucket key).
Proof.
  intros bucket role resource.
  assert (H : iam.allows (StorageStack.callerContext "us-east-1:bob") role
                "S3:getobject" resource = true) by (vm_compute; reflexivity).
  split; [reflexivity|]. split; [exact H|].
  exact (role_allows_nothing_outside_the_bucket "dev" eq_refl
           (StorageStack.callerContext "us-east-1:bob") "S3:getobject"
           resource H).
Defined.

Lemma listing_confined_to_own_prefix_witness :
  let bucket := StorageStack.photoBucket
                  (PhomoStage.storageStack (PhomoStage.new "dev")) in
  let role := StorageStack.authenticatedRole
                (PhomoStage.storageStack (PhomoStage.new "dev")) in
  patterns.literal "dev" = true
  ∧ (iam.allows (patterns.listContext "us-east-1:bob" "photos/us-east-1:bob/a")
       role "s3:ListBucket" (s3.bucketArn bucket) = true
     ↔ s3.bucketArn bucket = s3.bucketArn bucket
       ∧ ∃ rest,
           "photos/us-east-1:bob/a"
           = "photos/" +:+ "us-east-1:bob" +:+ "/" +:+ rest
           ∨ "photos/us-east-1:bob/a"
             = "faces/" +:+ "us-east-1:bob" +:+ "/" +:+ rest)
  ∧ iam.allows (StorageStack.callerContext "us-east-1:bob") role
      "s3:ListBucket" (s3.bucketArn bucket) = false.
Proof.
  intros bucket role. split; [reflexivity|].
  exact (listing_confined_to_own_prefix "dev" eq_refl "us-east-1:bob"
           "photos/us-east-1:bob/a" (s3.bucketArn bucket)).
Defined.

(** ** Permissions and environments *)

(** X9. In every stage, a function that is granted access to a table or to
    the photo bucket finds the name of that table or bucket among the
    values of its environment. *)
Theorem granted_resources_are_in_the_environment (stageName : string) :
  Forall access.informed (PhomoStage.permissions (PhomoStage.new stageName)).
Proof.
  unfold PhomoStage.permissions. simpl.
  unfold FaceProcessingStack.mkPermissions,
    StreamProcessingStack.mkPermissions, ScheduledJobsStack.mkPermissions,
    ApiStack.mkPermissions.
  simpl.
  repeat (apply List.Forall_cons; [unfold access.informed; simpl; tauto|]).
  apply List.Forall_nil.
Qed.

(** The environment the API stack hands to its functions holds every
    variable any function of the stage receives. *)
Lemma environment_within_api (stageName : string) f kv :
  In f (PhomoStage.functions (PhomoStage.new stageName)) →
  In kv (lambda.environment f) →
  In kv (lambda.environment
           (ApiStack.acceptFriendshipFunction
              (PhomoStage.apiStack (PhomoStage.new stageName)))).
Proof.
  intros Hf Hkv. simpl in Hf.
  repeat (destruct Hf as [<-|Hf]; [simpl in *; tauto|]).
  destruct Hf.
Qed.

(** X10. In every stage, two functions that receive the same environment
    variable receive the same value for it. *)
Theorem environments_agree
    (stageName : string) (f g : lambda.Function) (k v w : string) :
  In f (PhomoStage.functions (PhomoStage.new stageName)) →
  In g (PhomoStage.functions (PhomoStage.new stageName)) →
  In (k, v) (lambda.environment f) →
  In (k, w) (lambda.environment g) →
  v = w.
Proof.
  intros Hf Hg Hv Hw.
  apply (environment_within_api stageName f _ Hf) in Hv.
  apply (environment_within_api stageName g _ Hg) in Hw.
  simpl in Hv, Hw.
  repeat (destruct Hv as [[= <- <-]|Hv]; [|]); try done;
    repeat (destruct Hw as [Hw'|Hw]; [by simplify_eq|]); done.
Qed.

Lemma environments_agree_witness :
  let st := PhomoStage.new "dev" in
  let f := StreamProcessingStack.feedEntrySyncFunction
             (PhomoStage.streamProcessingStack st) in
  let g := ApiStack.getContentUrlFunction (PhomoStage.apiStack st) in
  In f (PhomoStage.functions st)
  ∧ In g (PhomoStage.functions st)
  ∧ In ("CONTENT_TABLE_NAME", "Content-dev") (lambda.environment f)
  ∧ In ("CONTENT_TABLE_NAME", "Content-dev") (lambda.environment g)
  ∧ "Content-dev" = "Content-dev".
Proof.
  intros st f g.
  assert (Hf : In f (PhomoStage.functions st)) by (simpl; tauto).
  assert (Hg : In g (PhomoStage.functions st)) by (simpl; tauto).
  assert (Hv : In ("CONTENT_TABLE_NAME", "Content-dev")
                  (lambda.environment f)) by (vm_compute; tauto).
  assert (Hw : In ("CONTENT_TABLE_NAME", "Content-dev")
                  (lambda.environment g)) by (vm_compute; tauto).
  repeat (split; [done|]).
  exact (environments_agree "dev" f g _ _ _ Hf Hg Hv Hw).
Defined.

(** ** Who may read and write which table *)

Lemma canRead_readable (gs : list grants.Grant) f (tb : dynamodb.Table) :
  grants.canRead gs f tb = true
  ↔ In (dynamodb.constructId tb) (access.readable gs f).
Proof.
  unfold grants.canRead, access.readable.
  induction gs as [|g gs IH]; simpl; [done|].
  rewrite orb_true_iff, in_app_iff, IH.
  apply or_iff_compat_r.
  destruct (grants.isFunction (grants.grantee g) f
            && grants.reads (grants.access g)); simpl; [|done].
  destruct (grants.resource g); simpl; try done.
  rewrite bool_decide_eq_true. tauto.
Qed.

Lemma canWrite_writable (gs : list grants.Grant) f (tb : dynamodb.Table) :
  grants.canWrite gs f tb = true
  ↔ In (dynamodb.constructId tb) (access.writable gs f).
Proof.
  unfold grants.canWrite, access.writable.
  induction gs as [|g gs IH]; simpl; [done|].
  rewrite orb_true_iff, in_app_iff, IH.
  apply or_iff_compat_r.
  destruct (grants.isFunction (grants.grantee g) f
            && grants.writes (grants.access g)); simpl; [|done].
  destruct (grants.resource g); simpl; try done.
  rewrite bool_decide_eq_true. tauto.
Qed.

(** The grants on the RecipientEdge table, whoever holds them, are write
    grants only. *)
Lemma recipientEdge_never_readable (stageName : string) (f : lambda.Function) :
  ¬ In "RecipientEdgeTable"
       (access.readable (PhomoStage.permissions (PhomoStage.new stageName)) f).
Proof.
  unfold access.readable, PhomoStage.permissions. simpl.
  unfold lambda.same. simpl.
  repeat (destruct (bool_decide _); simpl); intuition discriminate.
Qed.

Lemma canReadStream_streamReadable
    (gs : list grants.Grant) f (tb : dynamodb.Table) :
  grants.canReadStream gs f tb = true
  ↔ In (dynamodb.constructId tb) (access.streamReadable gs f).
Proof.
  unfold grants.canReadStream, access.streamReadable, grants.readsStream.
  induction gs as [|g gs IH]; simpl; [done|].
  rewrite orb_true_iff, in_app_iff, IH.
  apply or_iff_compat_r.
  destruct (grants.isFunction (grants.grantee g) f); simpl; [|done].
  destruct (grants.access g); simpl; try done.
  destruct (grants.resource g); simpl; try done.
  rewrite bool_decide_eq_true. tauto.
Qed.

(** X11. In every stage the RecipientEdge table is written by the
    process-content-faces and retroactive-match functions and by no other
    principal; no principal is granted read access to the table, so no
    function can read it; and the one principal that may read its change
    stream is the feed-entry-sync function, through its event source. *)
Theorem recipient_edge_written_by_face_processing_only
    (stageName : string) (f : lambda.Function) :
  let st := PhomoStage.new stageName in
  let fp := PhomoStage.faceProcessingStack st in
  let edges := DatabaseStack.recipientEdgeTable (PhomoStage.databaseStack st) in
  access.writers (PhomoStage.permissions st) edges
  = [ grants.FunctionRole (FaceProcessingStack.processContentFacesFunction fp);
      grants.FunctionRole (FaceProcessingStack.retroactiveMatchFunction fp) ]
  ∧ access.readers (PhomoStage.permissions st) edges = []
  ∧ grants.canRead (PhomoStage.permissions st) f edges = false
  ∧ access.streamReaders (PhomoStage.permissions st) edges
    = [ grants.FunctionRole
          (StreamProcessingStack.feedEntrySyncFunction
             (PhomoStage.streamProcessingStack st)) ].
Proof.
  intros st fp edges. split; [reflexivity|]. split; [reflexivity|].
  split; [|reflexivity].
  apply not_true_is_false. rewrite canRead_readable.
  apply recipientEdge_never_readable.
Qed.

(** X12. In every stage and for every table: the feed-entry-sync function
    may write the table exactly when it is the FeedEntry table, read it
    exactly when it is the Content table, and read its change stream
    exactly when it is the RecipientEdge table; and a change of the
    FeedEntry table starts no function, so the projection cannot feed
    itself. *)
Theorem feed_entry_sync_least_privilege
    (stageName : string) (tb : dynamodb.Table) :
  let st := PhomoStage.new stageName in
  let sync := StreamProcessingStack.feedEntrySyncFunction
                (PhomoStage.streamProcessingStack st) in
  (grants.canWrite (PhomoStage.permissions st) sync tb = true
   ↔ dynamodb.constructId tb = "FeedEntryTable")
  ∧ (grants.canRead (PhomoStage.permissions st) sync tb = true
     ↔ dynamodb.constructId tb = "ContentTable")
  ∧ (grants.canReadStream (PhomoStage.permissions st) sync tb = true
     ↔ dynamodb.constructId tb = "RecipientEdgeTable")
  ∧ wiring.invoked st
      (wiring.StreamRecord
         (DatabaseStack.feedEntryTable (PhomoStage.databaseStack st))) = [].
Proof.
  intros st sync.
  rewrite canWrite_writable, canRead_readable, canReadStream_streamReadable.
  change (access.writable (PhomoStage.permissions st) sync)
    with ["FeedEntryTable"].
  change (access.readable (PhomoStage.permissions st) sync)
    with ["ContentTable"].
  change (access.streamReadable (PhomoStage.permissions st) sync)
    with ["RecipientEdgeTable"].
  simpl. intuition.
Qed.

(** X13. In every stage and for every table: the send-event-reminders
    function may write no table, and may read the table exactly when it is
    the Event, EventMember or User table. *)
Theorem event_reminders_read_only (stageName : string) (tb : dynamodb.Table) :
  let st := PhomoStage.new stageName in
  let remind := ScheduledJobsStack.sendEventRemindersFunction
                  (PhomoStage.scheduledJobsStack st) in
  grants.canWrite (PhomoStage.permissions st) remind tb = false
  ∧ (grants.canRead (PhomoStage.permissions st) remind tb = true
     ↔ In (dynamodb.constructId tb)
          ["EventTable"; "EventMemberTable"; "UserTable"]).
Proof.
  intros st remind. split.
  - apply not_true_is_false. rewrite canWrite_writable.
    change (access.writable (PhomoStage.permissions st) remind)
      with (@nil string).
    simpl. tauto.
  - rewrite canRead_readable.
    change (access.readable (PhomoStage.permissions st) remind)
      with ["EventTable"; "EventMemberTable"; "UserTable"].
    reflexivity.
Qed.

(** X14. In every stage and for every table: the get-content-url function,
    which reads the photo bucket, may write no table and may read the table
    exactly when it is the Content table; in particular it can read neither
    the RecipientEdge nor the FeedEntry table. *)
Theorem get_content_url_reads_content_only
    (stageName : string) (tb : dynamodb.Table) :
  let st := PhomoStage.new stageName in
  let url := ApiStack.getContentUrlFunction (PhomoStage.apiStack st) in
  access.readsBucket (PhomoStage.permissions st) url = true
  ∧ grants.canWrite (PhomoStage.permissions st) url tb = false
  ∧ (grants.canRead (PhomoStage.permissions st) url tb = true
     ↔ dynamodb.constructId tb = "ContentTable")
  ∧ grants.canRead (PhomoStage.permissions st) url
      (DatabaseStack.recipientEdgeTable (PhomoStage.databaseStack st)) = false
  ∧ grants.canRead (PhomoStage.permissions st) url
      (DatabaseStack.feedEntryTable (PhomoStage.databaseStack st)) = false.
Proof.
  intros st url. split; [reflexivity|]. split; [|split; [|by split]].
  - apply not_true_is_false. rewrite canWrite_writable.
    change (access.writable (PhomoStage.permissions st) url)
      with (@nil string).
    simpl. tauto.
  - rewrite canRead_readable.
    change (access.readable (PhomoStage.permissions st) url)
      with ["ContentTable"].
    simpl. intuition.
Qed.

(** ** What starts which function *)

(** X15. In every stage an occurrence (a bus event, a schedule, a stream
    record or a queue message) starts at most one function, and that
    function is process-content-faces, feed-entry-sync or
    send-event-reminders: the enrollment, retroactive-match and API
    functions are started by no occurrence. *)
Theorem occurrences_start_event_driven_functions_only
    (stageName : string) (o : wiring.Occurrence) :
  let st := PhomoStage.new stageName in
  wiring.invoked st o = []
  ∨ wiring.invoked st o
    = [FaceProcessingStack.processContentFacesFunction
         (PhomoStage.faceProcessingStack st)]
  ∨ wiring.invoked st o
    = [StreamProcessingStack.feedEntrySyncFunction
         (PhomoStage.streamProcessingStack st)]
  ∨ wiring.invoked st o
    = [ScheduledJobsStack.sendEventRemindersFunction
         (PhomoStage.scheduledJobsStack st)].
Proof.
  intros st. subst st. destruct o as [e|id|tb|q].
  - rewrite invoked_bus_event. destruct (events.matches _ e); tauto.
  - rewrite invoked_schedule. destruct (bool_decide _); tauto.
  - destruct (invoked_stream stageName tb) as [-> | ->]; tauto.
  - rewrite invoked_queue. destruct (bool_decide _); tauto.
Qed.

(** X16. In every stage the two paths that end in a feed entry are
    permitted from end to end.  An upload under photos/ starts one function,
    which may read the bucket and write RecipientEdge; a RecipientEdge
    stream record starts one function, which may read Content and write
    FeedEntry.  The accept-friendship function may write Friendship and
    invoke retroactive-match, which may write RecipientEdge but was given
    no access to the bucket. *)
Theorem materialization_paths_are_permitted (stageName key : string) :
  String.prefix "photos/" key = true →
  (let st := PhomoStage.new stageName in
   let db := PhomoStage.databaseStack st in
   let perms := PhomoStage.permissions st in
   let bucket := StorageStack.photoBucket (PhomoStage.storageStack st) in
   let edges := DatabaseStack.recipientEdgeTable db in
   let accept := ApiStack.acceptFriendshipFunction (PhomoStage.apiStack st) in
   let retro := FaceProcessingStack.retroactiveMatchFunction
                  (PhomoStage.faceProcessingStack st) in
   ∃ process sync,
     wiring.onObjectCreated st bucket key = [process]
     ∧ access.readsBucket perms process = true
     ∧ grants.canWrite perms process edges = true
     ∧ wiring.invoked st (wiring.StreamRecord edges) = [sync]
     ∧ grants.canRead perms sync (DatabaseStack.contentTable db) = true
     ∧ grants.canWrite perms sync (DatabaseStack.feedEntryTable db) = true
     ∧ grants.canWrite perms accept (DatabaseStack.friendshipTable db) = true
     ∧ acceptance.mayInvoke st accept retro = true
     ∧ grants.canWrite perms retro edges = true
     ∧ access.readsBucket perms retro = false).
Proof.
  intros Hkey st db perms bucket edges accept retro.
  exists (FaceProcessingStack.processContentFacesFunction
            (PhomoStage.faceProcessingStack st)),
         (StreamProcessingStack.feedEntrySyncFunction
            (PhomoStage.streamProcessingStack st)).
  split; [|repeat split].
  unfold wiring.onObjectCreated, wiring.objectCreated.
  change (s3.eventBridgeEnabled bucket) with true. cbv iota.
  subst st. rewrite invoked_bus_event.
  rewrite (proj2 (matches_photo_upload _ _)); [done|].
  repeat split. exists key. by split.
Qed.

Lemma materialization_paths_are_permitted_witness :
  String.prefix "photos/" "photos/us-east-1:alice/p1.jpg" = true
  ∧ (let st := PhomoStage.new "dev" in
     let perms := PhomoStage.permissions st in
     let bucket := StorageStack.photoBucket (PhomoStage.storageStack st) in
     let edges := DatabaseStack.recipientEdgeTable
                    (PhomoStage.databaseStack st) in
     ∃ process,
       wiring.onObjectCreated st bucket "photos/us-east-1:alice/p1.jpg"
       = [process]
       ∧ grants.canWrite perms process edges = true).
Proof.
  split; [reflexivity|].
  destruct (materialization_paths_are_permitted "dev"
              "photos/us-east-1:alice/p1.jpg" eq_refl)
    as (process & sync & H1 & _ & H3 & _).
  exists process. split; [exact H1 | exact H3].
Defined.

(** ** Sign-in and the bucket's CORS rule *)

(** X17. In every stage the web callback and logout URLs of the user pool
    client are served from one origin, and the photo bucket's CORS rule
    allows that origin: https://phomo.camera in prod, and the stage's own
    subdomain otherwise. *)
Theorem web_sign_in_origin_is_cors_allowed (stageName : string) :
  let origin := if bool_decide (stageName = "prod")
                then "https://phomo.camera"
                else "https://" +:+ stageName +:+ ".phomo.camera" in
  cors.allowsOrigin (cors.photoBucket stageName) origin = true
  ∧ UserPoolClient.callbackUrls (UserPoolClient.new stageName)
    = [ "phomo-" +:+ stageName +:+ "://oauth/callback";
        origin +:+ "/oauth/callback" ]
  ∧ UserPoolClient.logoutUrls (UserPoolClient.new stageName)
    = [ "phomo-" +:+ stageName +:+ "://oauth/logout";
        origin +:+ "/oauth/logout" ].
Proof.
  intros origin. subst origin. split.
  - unfold cors.allowsOrigin. simpl. rewrite orb_false_r.
    apply bool_decide_eq_true. case_bool_decide.
    + by left.
    + right. by left.
  - unfold UserPoolClient.new. simpl. case_bool_decide.
    + by split.
    + rewrite !append_assoc. by split.
Qed.

(** ** The pipeline *)

Lemma overlap_nil (l1 l2 : list (string * string)) n :
  names.overlap l1 l2 = [] → In n l1 → In n l2 → False.
Proof.
  unfold names.overlap. intros Hnil H1 H2.
  assert (Hin : In n (List.filter
                        (fun x => existsb (fun y => bool_decide (x = y)) l2)
                        l1)).
  { apply filter_In. split; [done|]. apply existsb_exists.
    exists n. split; [done|]. by apply bool_decide_eq_true. }
  rewrite Hnil in Hin. destruct Hin.
Qed.

(** X18. Whatever the default account, the pipeline deploys the configured
    stages in order, one deployment per stage.  Any two configured stages
    land in the same account, the default one, and in the same region; and
    a name of a table, function, queue, bucket, face collection, rule or
    export that two configured stages share makes them the same stage. *)
Theorem configured_stages_can_coexist
    (defaultAccount : option string) (c1 c2 : config.StageConfig) :
  In c1 config.stages →
  In c2 config.stages →
  map PipelineStack.id (PipelineStack.new defaultAccount)
  = map (fun c => "Phomo-" +:+ config.stageName c) config.stages
  ∧ PipelineStack.account (PipelineStack.deploy defaultAccount c1)
    = PipelineStack.orElse None defaultAccount
  ∧ PipelineStack.account (PipelineStack.deploy defaultAccount c1)
    = PipelineStack.account (PipelineStack.deploy defaultAccount c2)
  ∧ PipelineStack.region (PipelineStack.deploy defaultAccount c1)
    = PipelineStack.region (PipelineStack.deploy defaultAccount c2)
  ∧ (∀ n, In n (names.ofStage (config.stageName c1)) →
          In n (names.ofStage (config.stageName c2)) → c1 = c2).
Proof.
  intros H1 H2. split; [reflexivity|].
  simpl in H1, H2.
  destruct H1 as [<-|[<-|[<-|[]]]]; destruct H2 as [<-|[<-|[<-|[]]]];
    (split; [reflexivity|]); (split; [reflexivity|]);
    (split; [reflexivity|]); intros n Hn1 Hn2;
    first [ reflexivity
          | exfalso; revert Hn1 Hn2; apply overlap_nil;
            vm_compute; reflexivity ].
Qed.

Lemma configured_stages_can_coexist_witness :
  let dev := config.mkStageConfig "dev" None "us-east-1" in
  let prod := config.mkStageConfig "prod" None "us-east-1" in
  let account := Some "948676469219" in
  In dev config.stages
  ∧ In prod config.stages
  ∧ PipelineStack.account (PipelineStack.deploy account dev)
    = PipelineStack.account (PipelineStack.deploy account prod)
  ∧ PipelineStack.region (PipelineStack.deploy account dev)
    = PipelineStack.region (PipelineStack.deploy account prod)
  ∧ ¬ In ("table", "User-dev") (names.ofStage "prod").
Proof.
  intros dev prod account.
  assert (Hd : In dev config.stages) by (simpl; tauto).
  assert (Hp : In prod config.stages) by (simpl; tauto).
  split; [exact Hd|]. split; [exact Hp|].
  destruct (configured_stages_can_coexist account dev prod Hd Hp)
    as (_ & _ & Ha & Hr & Hn).
  split; [exact Ha|]. split; [exact Hr|].
  intros Hin.
  assert (Hdev : In ("table", "User-dev") (names.ofStage "dev"))
    by (vm_compute; tauto).
  discriminate (Hn _ Hdev Hin).
Defined.
